(** * hV_Screen: the e-paper driver of rp2040-pervasive-epaper-mpy

    A shallow embedding of [hV_Screen.py] (class [Screen]) and the
    properties of its framebuffer, raster, text and panel-update code.

    Python integers are [Z]; a [bytearray] is a [list Z] read and written
    through Python's index rules (negative indices count from the end, an
    index outside the array raises [IndexError]); attribute assignment is
    a record update of the [Screen] object; the SPI bus and the digital
    pins are a log of the operations performed on them, and the busy pin
    is read from a line the environment drives. *)

From Stdlib Require Import ZArith QArith Bool List Lia.
From stdpp Require Import base list list_numbers.
Open Scope Z_scope.

(** ** Python runtime *)

Module Py.

(** The exceptions the modelled code can raise. Reading a local before
    its assignment is [UnboundLocalError] in CPython and a plain
    [NameError] in MicroPython. *)
Inductive exn : Type :=
| IndexError
| ValueError
| TypeError
| UnboundLocalError.

(** Position denoted by index [i] in a sequence of [len] items. *)
Definition index (len i : Z) : option nat :=
  if (0 <=? i) && (i <? len) then Some (Z.to_nat i)
  else if (- len <=? i) && (i <? 0) then Some (Z.to_nat (i + len))
  else None.

(** [seq[i]] *)
Definition getitem {A} (l : list A) (i : Z) : exn + A :=
  match index (Z.of_nat (length l)) i with
  | Some n => match l !! n with Some v => inr v | None => inl IndexError end
  | None => inl IndexError
  end.

(** [b[i] = v] on a [bytearray]: the value must be in [range(256)]. *)
Definition setitem (l : list Z) (i v : Z) : exn + list Z :=
  match index (Z.of_nat (length l)) i with
  | Some n =>
      if (0 <=? v) && (v <? 256) then inr (<[n := v]> l) else inl ValueError
  | None => inl IndexError
  end.

(** [range(a, b)] *)
Definition range (a b : Z) : list Z := seqZ a (b - a).

(** [bytearray(n)] *)
Definition bytearray (n : Z) : exn + list Z :=
  if n <? 0 then inl ValueError else inr (replicate (Z.to_nat n) 0).

End Py.

(** ** Colours constants *)

Module Colour.
Definition BLACK : Z := 0x0000.  (* 0b0000000000000000 *)
Definition WHITE : Z := 0xffff.  (* 0b1111111111111111 *)
Definition GREY : Z := 0x7bef.  (* 0b0111101111101111 *)
Definition GRAY : Z := 0x7bef.  (* 0b0111101111101111 *)
End Colour.

(** ** The board: pins and SPI bus

    Every operation on a pin or on the bus is appended to [wire], oldest
    first. Delays are logged in milliseconds. The [k]-th read of the busy
    pin returns [busy_pin k]. *)

Inductive pin : Type := CS | DC | RESET.

Inductive event : Type :=
| PinWrite (p : pin) (v : Z)
| Sleep (ms : Z)
| SpiWrite (data : list Z)
| BusyRead (v : Z).

Record Board : Type := {
  wire : list event;
  busy_pin : nat -> Z;
  polls : nat
}.

(** ** The Screen object *)

(** The shared font descriptor [Font.font_s]. *)
Record FontInfo : Type := {
  font_kind : Z;
  font_height : Z;
  font_maxWidth : Z;
  font_first : Z;
  font_number : Z
}.

Record Screen : Type := {
  _fontSize : Z;
  _fontSolid : bool;
  _penSolid : bool;
  _invert : bool;
  _fontSpaceX : Z;
  _fontSpaceY : Z;
  _orientation : Z;
  _font : FontInfo;
  _screenSizeV : Z;
  _screenSizeH : Z;
  _screenColourBits : Z;
  _bufferDepth : Z;
  _bufferSizeV : Z;
  _bufferSizeH : Z;
  _pageColourSize : Z;
  _newImage : list Z;
  _oldImage : list Z;
  board : Board
}.

(** Attribute assignment, one function per attribute the code assigns
    ([_penSolid] and [_fontSpaceY] are never assigned: the class has no
    [setPenSolid], and [setFontSpaceY] binds a local name). *)

Definition with_fontSize (v : Z) (s : Screen) : Screen :=
  {| _fontSize := v; _fontSolid := _fontSolid s;
     _penSolid := _penSolid s; _invert := _invert s;
     _fontSpaceX := _fontSpaceX s; _fontSpaceY := _fontSpaceY s;
     _orientation := _orientation s; _font := _font s;
     _screenSizeV := _screenSizeV s; _screenSizeH := _screenSizeH s;
     _screenColourBits := _screenColourBits s;
     _bufferDepth := _bufferDepth s; _bufferSizeV := _bufferSizeV s;
     _bufferSizeH := _bufferSizeH s;
     _pageColourSize := _pageColourSize s; _newImage := _newImage s;
     _oldImage := _oldImage s; board := board s |}.

Definition with_fontSolid (v : bool) (s : Screen) : Screen :=
  {| _fontSize := _fontSize s; _fontSolid := v;
     _penSolid := _penSolid s; _invert := _invert s;
     _fontSpaceX := _fontSpaceX s; _fontSpaceY := _fontSpaceY s;
     _orientation := _orientation s; _font := _font s;
     _screenSizeV := _screenSizeV s; _screenSizeH := _screenSizeH s;
     _screenColourBits := _screenColourBits s;
     _bufferDepth := _bufferDepth s; _bufferSizeV := _bufferSizeV s;
     _bufferSizeH := _bufferSizeH s;
     _pageColourSize := _pageColourSize s; _newImage := _newImage s;
     _oldImage := _oldImage s; board := board s |}.

Definition with_invert (v : bool) (s : Screen) : Screen :=
  {| _fontSize := _fontSize s; _fontSolid := _fontSolid s;
     _penSolid := _penSolid s; _invert := v;
     _fontSpaceX := _fontSpaceX s; _fontSpaceY := _fontSpaceY s;
     _orientation := _orientation s; _font := _font s;
     _screenSizeV := _screenSizeV s; _screenSizeH := _screenSizeH s;
     _screenColourBits := _screenColourBits s;
     _bufferDepth := _bufferDepth s; _bufferSizeV := _bufferSizeV s;
     _bufferSizeH := _bufferSizeH s;
     _pageColourSize := _pageColourSize s; _newImage := _newImage s;
     _oldImage := _oldImage s; board := board s |}.

Definition with_fontSpaceX (v : Z) (s : Screen) : Screen :=
  {| _fontSize := _fontSize s; _fontSolid := _fontSolid s;
     _penSolid := _penSolid s; _invert := _invert s; _fontSpaceX := v;
     _fontSpaceY := _fontSpaceY s; _orientation := _orientation s;
     _font := _font s; _screenSizeV := _screenSizeV s;
     _screenSizeH := _screenSizeH s;
     _screenColourBits := _screenColourBits s;
     _bufferDepth := _bufferDepth s; _bufferSizeV := _bufferSizeV s;
     _bufferSizeH := _bufferSizeH s;
     _pageColourSize := _pageColourSize s; _newImage := _newImage s;
     _oldImage := _oldImage s; board := board s |}.

Definition with_orientation (v : Z) (s : Screen) : Screen :=
  {| _fontSize := _fontSize s; _fontSolid := _fontSolid s;
     _penSolid := _penSolid s; _invert := _invert s;
     _fontSpaceX := _fontSpaceX s; _fontSpaceY := _fontSpaceY s;
     _orientation := v; _font := _font s;
     _screenSizeV := _screenSizeV s; _screenSizeH := _screenSizeH s;
     _screenColourBits := _screenColourBits s;
     _bufferDepth := _bufferDepth s; _bufferSizeV := _bufferSizeV s;
     _bufferSizeH := _bufferSizeH s;
     _pageColourSize := _pageColourSize s; _newImage := _newImage s;
     _oldImage := _oldImage s; board := board s |}.

Definition with_font (v : FontInfo) (s : Screen) : Screen :=
  {| _fontSize := _fontSize s; _fontSolid := _fontSolid s;
     _penSolid := _penSolid s; _invert := _invert s;
     _fontSpaceX := _fontSpaceX s; _fontSpaceY := _fontSpaceY s;
     _orientation := _orientation s; _font := v;
     _screenSizeV := _screenSizeV s; _screenSizeH := _screenSizeH s;
     _screenColourBits := _screenColourBits s;
     _bufferDepth := _bufferDepth s; _bufferSizeV := _bufferSizeV s;
     _bufferSizeH := _bufferSizeH s;
     _pageColourSize := _pageColourSize s; _newImage := _newImage s;
     _oldImage := _oldImage s; board := board s |}.

Definition with_newImage (v : list Z) (s : Screen) : Screen :=
  {| _fontSize := _fontSize s; _fontSolid := _fontSolid s;
     _penSolid := _penSolid s; _invert := _invert s;
     _fontSpaceX := _fontSpaceX s; _fontSpaceY := _fontSpaceY s;
     _orientation := _orientation s; _font := _font s;
     _screenSizeV := _screenSizeV s; _screenSizeH := _screenSizeH s;
     _screenColourBits := _screenColourBits s;
     _bufferDepth := _bufferDepth s; _bufferSizeV := _bufferSizeV s;
     _bufferSizeH := _bufferSizeH s;
     _pageColourSize := _pageColourSize s; _newImage := v;
     _oldImage := _oldImage s; board := board s |}.

Definition with_oldImage (v : list Z) (s : Screen) : Screen :=
  {| _fontSize := _fontSize s; _fontSolid := _fontSolid s;
     _penSolid := _penSolid s; _invert := _invert s;
     _fontSpaceX := _fontSpaceX s; _fontSpaceY := _fontSpaceY s;
     _orientation := _orientation s; _font := _font s;
     _screenSizeV := _screenSizeV s; _screenSizeH := _screenSizeH s;
     _screenColourBits := _screenColourBits s;
     _bufferDepth := _bufferDepth s; _bufferSizeV := _bufferSizeV s;
     _bufferSizeH := _bufferSizeH s;
     _pageColourSize := _pageColourSize s; _newImage := _newImage s;
     _oldImage := v; board := board s |}.

Definition with_board (v : Board) (s : Screen) : Screen :=
  {| _fontSize := _fontSize s; _fontSolid := _fontSolid s;
     _penSolid := _penSolid s; _invert := _invert s;
     _fontSpaceX := _fontSpaceX s; _fontSpaceY := _fontSpaceY s;
     _orientation := _orientation s; _font := _font s;
     _screenSizeV := _screenSizeV s; _screenSizeH := _screenSizeH s;
     _screenColourBits := _screenColourBits s;
     _bufferDepth := _bufferDepth s; _bufferSizeV := _bufferSizeV s;
     _bufferSizeH := _bufferSizeH s;
     _pageColourSize := _pageColourSize s; _newImage := _newImage s;
     _oldImage := _oldImage s; board := v |}.

(** ** Method bodies as state transformers

    A method runs on the object and either returns a value, raises, or
    is still polling the busy pin when the polls it was given run out.
    The object is carried in all three cases: what a method wrote before
    it raised stays written. *)

Inductive outcome (A : Type) : Type :=
| Return (a : A) (s : Screen)
| Raise (e : Py.exn) (s : Screen)
| Blocked (s : Screen).

Arguments Return {A} a s.
Arguments Raise {A} e s.
Arguments Blocked {A} s.

Definition M (A : Type) : Type := Screen -> outcome A.

Definition ret {A} (a : A) : M A := fun s => Return a s.

Definition bind {A B} (m : M A) (k : A -> M B) : M B := fun s =>
  match m s with
  | Return a s' => k a s'
  | Raise e s' => Raise e s'
  | Blocked s' => Blocked s'
  end.

Definition raise {A} (e : Py.exn) : M A := fun s => Raise e s.

Definition self : M Screen := fun s => Return s s.

Definition assign (f : Screen -> Screen) : M unit := fun s => Return tt (f s).

Definition lift {A} (r : Py.exn + A) : M A :=
  match r with inl e => raise e | inr a => ret a end.

Declare Scope py_scope.
Delimit Scope py_scope with py.
Notation "x <- c ;; k" := (bind c (fun x => k))
  (at level 100, c at next level, right associativity) : py_scope.
Notation "c ;; k" := (bind c (fun _ => k))
  (at level 100, right associativity) : py_scope.
Open Scope py_scope.

(** [for x in xs: body] *)
Fixpoint for_each {A B} (xs : list B) (body : B -> M A) : M unit :=
  match xs with
  | [] => ret tt
  | x :: xs' => body x ;; for_each xs' body
  end.

(** The state an outcome ends in, and the outcome without its value. *)
Definition final {A} (o : outcome A) : Screen :=
  match o with Return _ s => s | Raise _ s => s | Blocked s => s end.

Definition effect {A} (o : outcome A) : outcome unit :=
  match o with
  | Return _ s => Return tt s
  | Raise e s => Raise e s
  | Blocked s => Blocked s
  end.

Definition outcome_map {A} (f : Screen -> Screen) (o : outcome A)
  : outcome A :=
  match o with
  | Return a s => Return a (f s)
  | Raise e s => Raise e (f s)
  | Blocked s => Blocked (f s)
  end.

(** [self._newImage[z]] and [self._newImage[z] = v] *)
Definition newImage_get (z : Z) : M Z := fun s =>
  lift (Py.getitem (_newImage s) z) s.

Definition newImage_set (z v : Z) : M unit := fun s =>
  match Py.setitem (_newImage s) z v with
  | inl e => Raise e s
  | inr img => Return tt (with_newImage img s)
  end.

(** Pins, bus and clock. *)
Definition log (e : event) (s : Screen) : Screen :=
  with_board {| wire := wire (board s) ++ [e];
                busy_pin := busy_pin (board s);
                polls := polls (board s) |} s.

Definition pin_value (p : pin) (v : Z) : M unit := assign (log (PinWrite p v)).
Definition sleep_ms (ms : Z) : M unit := assign (log (Sleep ms)).
Definition spi_write (data : list Z) : M unit := assign (log (SpiWrite data)).

(** [self.busy.value()] *)
Definition busy_value : M Z := fun s =>
  let v := busy_pin (board s) (polls (board s)) in
  Return v (with_board {| wire := wire (board s) ++ [BusyRead v];
                          busy_pin := busy_pin (board s);
                          polls := S (polls (board s)) |} s).

(** ** Utilities

    The bit index is in 0..7 at every call site. *)

Definition bitSet (value bit_index : Z) : Z :=
  Z.lor value (Z.shiftl 1 bit_index).

Definition bitClear (value bit_index : Z) : Z :=
  Z.land value (Z.lnot (Z.shiftl 1 bit_index)).

Definition bitRead (value bit_index : Z) : Z :=
  Z.land value (Z.shiftl 1 bit_index).

(** ** SPI utilities *)

(** [while busy.value() != 1: sleep(0.032)], given at most [n] polls. *)
Fixpoint waitBusy (n : nat) : M unit :=
  match n with
  | O => fun s => Blocked s
  | S n' =>
      v <- busy_value ;;
      if negb (v =? 1) then sleep_ms 32 ;; waitBusy n' else ret tt
  end.

Definition sendCommand8 (command : Z) : M unit :=
  pin_value DC 0 ;;
  pin_value CS 0 ;;
  sleep_ms 50 ;;
  spi_write [command] ;;
  sleep_ms 50.

Definition sendIndexData (index : Z) (data : list Z) (size : Z) : M unit :=
  pin_value DC 0 ;;
  pin_value CS 0 ;;
  sleep_ms 50 ;;
  spi_write [index] ;;
  sleep_ms 50 ;;
  pin_value CS 1 ;;
  pin_value DC 1 ;;
  pin_value CS 0 ;;
  sleep_ms 50 ;;
  spi_write data ;;
  sleep_ms 50 ;;
  pin_value CS 1.

(** ** COG utilities *)

Definition COG_initial (n : nat) : M unit :=
  sendIndexData 0x00 [0x00] 1 ;;
  waitBusy n ;;
  sendIndexData 0xe5 [Z.lor 0x19 0x40] 1 ;;
  sendIndexData 0xe0 [0x02] 1 ;;
  sendIndexData 0x00 [Z.lor 0xcf 0x10; Z.lor 0x8d 0x02] 2.

(** [__COG_sendImageDataFast] is three statements, run in order. They
    are kept apart so that the method can also be observed between two
    of them: [COG_sendImageDataFast_upto k] stops after the first [k]. *)
Definition COG_sendImageDataFast_statements : list (M unit) :=
  [ (s <- self ;; sendIndexData 0x10 (_oldImage s) (_pageColourSize s));
    (s <- self ;; sendIndexData 0x13 (_newImage s) (_pageColourSize s));
    (s <- self ;; assign (with_oldImage (_newImage s))) ].

Definition COG_sendImageDataFast : M unit :=
  for_each COG_sendImageDataFast_statements (fun statement => statement).

Definition COG_sendImageDataFast_upto (k : nat) : M unit :=
  for_each (take k COG_sendImageDataFast_statements)
    (fun statement => statement).

Definition COG_update (n : nat) : M unit :=
  sendCommand8 0x04 ;;
  pin_value CS 1 ;;
  waitBusy n ;;
  sendCommand8 0x12 ;;
  pin_value CS 1 ;;
  waitBusy n.

Definition COG_powerOff (n : nat) : M unit :=
  sendCommand8 0x02 ;;
  pin_value CS 1 ;;
  waitBusy n.

(** ** Functions *)

(** [Screen(spi, cs, reset, dc, busy, screenW, screenH)]: the class
    defaults, then [__init__]. [font_s] is the descriptor object of the
    font module, [line] what the busy pin will read. *)
Definition init (font_s : FontInfo) (line : nat -> Z) (screenW screenH : Z)
  : Py.exn + Screen :=
  let screenSizeV := screenW in
  let screenSizeH := screenH in
  let screenColourBits := 1 in
  let bufferDepth := screenColourBits in
  let bufferSizeV := screenSizeV in
  let bufferSizeH := Z.shiftr screenSizeH 3 in
  let pageColourSize := bufferSizeV * bufferSizeH in
  match Py.bytearray pageColourSize with
  | inl e => inl e
  | inr image =>
      inr {| _fontSize := 0; _fontSolid := false; _penSolid := false;
             _invert := false; _fontSpaceX := 1; _fontSpaceY := 1;
             _orientation := 0; _font := font_s;
             _screenSizeV := screenSizeV; _screenSizeH := screenSizeH;
             _screenColourBits := screenColourBits;
             _bufferDepth := bufferDepth;
             _bufferSizeV := bufferSizeV; _bufferSizeH := bufferSizeH;
             _pageColourSize := pageColourSize;
             _newImage := image; _oldImage := image;
             board := {| wire := []; busy_pin := line; polls := O |} |}
  end.

Definition flush (n : nat) : M unit :=
  COG_initial n ;;
  COG_sendImageDataFast ;;
  COG_update n ;;
  COG_powerOff n.

(** The three double loops of [clear] differ only in the byte written
    to row [i]. *)
Definition clear_fill (pattern : Z -> Z) : M unit :=
  s <- self ;;
  for_each (Py.range 0 (_bufferSizeV s)) (fun i =>
    s <- self ;;
    for_each (Py.range 0 (_bufferSizeH s)) (fun j =>
      s <- self ;;
      newImage_set (i * _bufferSizeH s + j) (pattern i))).

Definition clear (colour : Z) : M unit :=
  s <- self ;;
  if colour =? Colour.GREY then
    clear_fill (fun i => if i mod 2 =? 0 then 0xaa else 0x55)
  else if xorb (colour =? Colour.WHITE) (_invert s) then
    clear_fill (fun _ => 0x00)
  else
    clear_fill (fun _ => 0xff).

Definition regenerate (n : nat) : M unit :=
  clear Colour.BLACK ;;
  flush n ;;
  sleep_ms 100 ;;
  clear Colour.WHITE ;;
  flush n ;;
  sleep_ms 100.

Definition invert (flag : bool) : M unit := assign (with_invert flag).

Definition screenSizeX : M Z :=
  s <- self ;;
  if (_orientation s =? 1) || (_orientation s =? 3) then
    ret (_screenSizeV s)
  else if (_orientation s =? 0) || (_orientation s =? 2) then
    ret (_screenSizeH s)
  else ret 0.

Definition screenSizeY : M Z :=
  s <- self ;;
  if (_orientation s =? 1) || (_orientation s =? 3) then
    ret (_screenSizeH s)
  else if (_orientation s =? 0) || (_orientation s =? 2) then
    ret (_screenSizeV s)
  else ret 0.

Definition setOrientation (orientation : Z) : M unit :=
  (if orientation =? 6 then
     assign (with_orientation 0) ;;
     sx <- screenSizeX ;;
     sy <- screenSizeY ;;
     if sx >? sy then assign (with_orientation 1) else ret tt
   else if orientation =? 7 then
     assign (with_orientation 0) ;;
     sx <- screenSizeX ;;
     sy <- screenSizeY ;;
     if sx <? sy then assign (with_orientation 1) else ret tt
   else ret tt) ;;
  assign (with_orientation (orientation mod 4)).

Definition getOrientation : M Z :=
  s <- self ;; ret (_orientation s).

(** Returns [(flag, x, y)]; flag false = success, true = error. *)
Definition orientCoordinates (s : Screen) (x y : Z) : bool * Z * Z :=
  let flag := true in
  if _orientation s =? 3 then
    if (x <? _screenSizeV s) && (y <? _screenSizeH s) then
      let x := _screenSizeV s - 1 - x in
      let flag := false in
      (flag, x, y)
    else (flag, x, y)
  else if _orientation s =? 2 then
    if (x <? _screenSizeH s) && (y <? _screenSizeV s) then
      let x := _screenSizeH s - 1 - x in
      let y := _screenSizeV s - 1 - y in
      let '(y, x) := (x, y) in
      let flag := false in
      (flag, x, y)
    else (flag, x, y)
  else if _orientation s =? 1 then
    if (x <? _screenSizeV s) && (y <? _screenSizeH s) then
      let y := _screenSizeH s - 1 - y in
      let flag := false in
      (flag, x, y)
    else (flag, x, y)
  else
    if (x <? _screenSizeH s) && (y <? _screenSizeV s) then
      let '(y, x) := (x, y) in
      let flag := false in
      (flag, x, y)
    else (flag, x, y).

Definition getZT (s : Screen) (x1 y1 : Z) : Z * Z :=
  (x1 * _bufferSizeH s + Z.shiftr y1 3, 7 - y1 mod 8).

(** [point] returns 0 on rejected coordinates and [None] otherwise. *)
Definition point (x1 y1 colour : Z) : M (option Z) :=
  s <- self ;;
  let '(flag, x1, y1) := orientCoordinates s x1 y1 in
  if flag then ret (Some 0) else
  let '(z1, t1) := getZT s x1 y1 in
  let flagOdd := (x1 + y1) mod 2 =? 0 in
  let colour :=
    if colour =? Colour.GREY then
      if flagOdd then Colour.BLACK else Colour.WHITE
    else colour in
  if xorb (colour =? Colour.WHITE) (_invert s) then
    b <- newImage_get z1 ;;
    newImage_set z1 (bitClear b t1) ;;
    ret None
  else if xorb (colour =? Colour.BLACK) (_invert s) then
    b <- newImage_get z1 ;;
    newImage_set z1 (bitSet b t1) ;;
    ret None
  else ret None.

(** Calling a local variable: an unbound local raises, and an [int] is
    not callable. *)
Definition call_local {A} (f : option Z) (arg : Z) : M A :=
  match f with
  | None => raise Py.UnboundLocalError
  | Some _ => raise Py.TypeError
  end.

(** The statements of [readPixel] from [(z1, t1) = ...] to the end. *)
Definition readPixel_decode (x1 y1 : Z) : M Z :=
  s <- self ;;
  let '(z1, t1) := getZT s x1 y1 in
  b <- newImage_get z1 ;;
  let value := bitRead b t1 in
  let value := Z.shiftl value 4 in
  let value := Z.land value 0xf0 in
  if value =? 0x10 then ret Colour.BLACK else ret Colour.WHITE.

(** [value] is a local of [readPixel] (it is assigned further down), so
    the statement [value(0)] reads it before any assignment. *)
Definition readPixel (x1 y1 : Z) : M Z :=
  s <- self ;;
  let '(flag, x1, y1) := orientCoordinates s x1 y1 in
  if flag then ret 0 else
  let result := 0 in
  let value : option Z := None in
  call_local (A := Z) value 0 ;;
  readPixel_decode x1 y1.

(** [line]: the general case. [err = dx / 2] is a Python float; it and
    every value it takes afterwards is an integer or a half-integer,
    exactly representable, so it is kept as a rational. [n] bounds the
    iterations of [while (wx1 <= wx2)]; [line] passes the exact count. *)
Definition Qlt_bool (a b : Q) : bool := negb (Qle_bool b a).

Fixpoint line_while (n : nat) (flag : bool) (wx1 wy1 wx2 dx dy ystep : Z)
    (err : Q) (colour : Z) : M unit :=
  match n with
  | O => ret tt
  | S n' =>
      if wx1 <=? wx2 then
        (if flag then point wy1 wx1 colour else point wx1 wy1 colour) ;;
        let err := (err - inject_Z dy)%Q in
        let '(wy1, err) :=
          if Qlt_bool err 0 then (wy1 + ystep, (err + inject_Z dx)%Q)
          else (wy1, err) in
        let wx1 := wx1 + 1 in
        line_while n' flag wx1 wy1 wx2 dx dy ystep err colour
      else ret tt
  end.

Definition line (x1 y1 x2 y2 colour : Z) : M unit :=
  if (x1 =? x2) && (y1 =? y2) then
    point x1 y1 colour ;; ret tt
  else if x1 =? x2 then
    let '(y2, y1) := if y1 >? y2 then (y1, y2) else (y2, y1) in
    for_each (Py.range y1 (y2 + 1)) (fun y => point x1 y colour)
  else if y1 =? y2 then
    let '(x2, x1) := if x1 >? x2 then (x1, x2) else (x2, x1) in
    for_each (Py.range x1 (x2 + 1)) (fun x => point x y1 colour)
  else
    let wx1 := x1 in
    let wx2 := x2 in
    let wy1 := y1 in
    let wy2 := y2 in
    let flag := Z.abs (wy2 - wy1) >? Z.abs (wx2 - wx1) in
    let '(wy1, wx1, wy2, wx2) :=
      if flag then (wx1, wy1, wx2, wy2) else (wy1, wx1, wy2, wx2) in
    let '(wx2, wx1, wy2, wy1) :=
      if wx1 >? wx2 then (wx1, wx2, wy1, wy2) else (wx2, wx1, wy2, wy1) in
    let dx := wx2 - wx1 in
    let dy := Z.abs (wy2 - wy1) in
    let err := (inject_Z dx / 2)%Q in
    let ystep := if wy1 <? wy2 then 1 else -1 in
    line_while (Z.to_nat (wx2 - wx1 + 1)) flag wx1 wy1 wx2 dx dy ystep err
      colour.

Definition dLine (x0 y0 dx dy colour : Z) : M unit :=
  line x0 y0 (x0 + dx - 1) (y0 + dy - 1) colour.

Definition rectangle (x1 y1 x2 y2 colour : Z) : M unit :=
  s <- self ;;
  if negb (_penSolid s) then
    line x1 y1 x1 y2 colour ;;
    line x1 y1 x2 y1 colour ;;
    line x1 y2 x2 y2 colour ;;
    line x2 y1 x2 y2 colour
  else
    let '(x2, x1) := if x1 >? x2 then (x1, x2) else (x2, x1) in
    let '(y2, y1) := if y1 >? y2 then (y1, y2) else (y2, y1) in
    for_each (Py.range x1 (x2 + 1)) (fun x =>
      for_each (Py.range y1 (y2 + 1)) (fun y =>
        point x y colour)).

Definition dRectangle (x0 y0 dx dy colour : Z) : M unit :=
  rectangle x0 y0 (x0 + dx - 1) (y0 + dy - 1) colour.

(** ** Font functions

    The font module [hV_Fonts] supplies the constant [MAX_FONT_SIZE] and
    the glyph tables, indexed by glyph and then by column byte. *)

Section Fonts.

Variable MAX_FONT_SIZE : Z.
Variables _Terminal6x8e _Terminal8x12e _Terminal12x16e : list (list Z).

Definition setFontSolid (flag : bool) : M unit :=
  assign (with_fontSolid flag).

Definition selectFont (font : Z) : M unit :=
  (if font <? MAX_FONT_SIZE then assign (with_fontSize font)
   else assign (with_fontSize (MAX_FONT_SIZE - 1))) ;;
  s <- self ;;
  if _fontSize s =? 0 then
    assign (with_font {| font_kind := 0x40; font_height := 8;
                         font_maxWidth := 6; font_first := 32;
                         font_number := 224 |})
  else if _fontSize s =? 1 then
    assign (with_font {| font_kind := 0x40; font_height := 12;
                         font_maxWidth := 8; font_first := 32;
                         font_number := 224 |})
  else if _fontSize s =? 2 then
    assign (with_font {| font_kind := 0x40; font_height := 16;
                         font_maxWidth := 12; font_first := 32;
                         font_number := 224 |})
  else if _fontSize s =? 3 then
    assign (with_font {| font_kind := 0x40; font_height := 24;
                         font_maxWidth := 16; font_first := 32;
                         font_number := 224 |})
  else ret tt.

Definition getFont : M Z := s <- self ;; ret (_fontSize s).

Definition fontMax : M Z := ret MAX_FONT_SIZE.

Definition characterSizeX (character : Z) : M Z :=
  s <- self ;; ret (font_maxWidth (_font s) + _fontSpaceX s).

Definition characterSizeY : M Z :=
  s <- self ;; ret (font_height (_font s)).

Definition stringSizeX (text : list Z) : M Z :=
  s <- self ;; ret (Z.of_nat (length text) * font_maxWidth (_font s)).

Definition setFontSpaceX (number : Z) : M unit :=
  assign (with_fontSpaceX number).

(** The body assigns the local name [self_fontSpaceY]. *)
Definition setFontSpaceY (number : Z) : M unit :=
  let self_fontSpaceY := number in
  ret tt.

(** [table[character][index]] *)
Definition glyph_byte (table : list (list Z)) (character index : Z) : M Z :=
  row <- lift (Py.getitem table character) ;;
  lift (Py.getitem row index).

Definition getCharacter (character index : Z) : M Z :=
  s <- self ;;
  if _fontSize s =? 0 then glyph_byte _Terminal6x8e character index
  else if _fontSize s =? 1 then glyph_byte _Terminal8x12e character index
  else if _fontSize s =? 2 then glyph_byte _Terminal12x16e character index
  else ret 0.

(** [text] is the string as its code points, so [ord(text[k])] is the
    [k]-th item and [ord(" ")] is 32. *)
Definition ord_at (text : list Z) (k : Z) : M Z :=
  lift (Py.getitem text k).

Definition gText (x0 y0 : Z) (text : list Z) (textColour backColour : Z)
  : M unit :=
  s <- self ;;
  if _fontSize s =? 0 then
    for_each (Py.range 0 (Z.of_nat (length text))) (fun k =>
      o <- ord_at text k ;;
      let c := o - 32 in
      for_each (Py.range 0 6) (fun i =>
        line <- getCharacter c i ;;
        for_each (Py.range 0 8) (fun j =>
          s <- self ;;
          if bitRead line j >? 0 then
            point (x0 + 6 * k + i) (y0 + j) textColour ;; ret tt
          else if _fontSolid s then
            point (x0 + 6 * k + i) (y0 + j) backColour ;; ret tt
          else ret tt)))
  else if _fontSize s =? 1 then
    for_each (Py.range 0 (Z.of_nat (length text))) (fun k =>
      o <- ord_at text k ;;
      let c := o - 32 in
      for_each (Py.range 0 8) (fun i =>
        line <- getCharacter c (2 * i) ;;
        line1 <- getCharacter c (2 * i + 1) ;;
        for_each (Py.range 0 8) (fun j =>
          s <- self ;;
          (if negb (bitRead line j =? 0) then
             point (x0 + 8 * k + i) (y0 + j) textColour ;; ret tt
           else if _fontSolid s then
             point (x0 + 8 * k + i) (y0 + j) backColour ;; ret tt
           else ret tt) ;;
          s <- self ;;
          if negb (bitRead line1 j =? 0) then
            point (x0 + 8 * k + i) (y0 + 8 + j) textColour ;; ret tt
          else if _fontSolid s && (j <? 4) then
            point (x0 + 8 * k + i) (y0 + 8 + j) backColour ;; ret tt
          else ret tt)))
  else if _fontSize s =? 2 then
    for_each (Py.range 0 (Z.of_nat (length text))) (fun k =>
      o <- ord_at text k ;;
      let c := o - 32 in
      for_each (Py.range 0 12) (fun i =>
        line <- getCharacter c (2 * i) ;;
        line1 <- getCharacter c (2 * i + 1) ;;
        for_each (Py.range 0 8) (fun j =>
          s <- self ;;
          (if negb (bitRead line j =? 0) then
             point (x0 + 12 * k + i) (y0 + j) textColour ;; ret tt
           else if _fontSolid s then
             point (x0 + 12 * k + i) (y0 + j) backColour ;; ret tt
           else ret tt) ;;
          s <- self ;;
          if negb (bitRead line1 j =? 0) then
            point (x0 + 12 * k + i) (y0 + 8 + j) textColour ;; ret tt
          else if _fontSolid s then
            point (x0 + 12 * k + i) (y0 + 8 + j) backColour ;; ret tt
          else ret tt)))
  else ret tt.

(** [begin]: panel reset, then the default font. *)
Definition begin : M unit :=
  pin_value CS 1 ;;
  sleep_ms 5 ;;
  pin_value RESET 1 ;;
  sleep_ms 5 ;;
  pin_value RESET 0 ;;
  sleep_ms 10 ;;
  pin_value RESET 1 ;;
  sleep_ms 5 ;;
  pin_value CS 1 ;;
  sleep_ms 5 ;;
  selectFont 0.

End Fonts.

(** ** Reference definitions used in the statements *)

(** The coordinate mapper as the specification words it: the buffer
    coordinates of logical [(x, y)], or [None] for out of bounds. *)
Definition mapCoordinates (H_short V_tall x y orientation : Z)
  : option (Z * Z) :=
  match orientation with
  | 0 => if (x <? H_short) && (y <? V_tall) then Some (y, x) else None
  | 1 =>
      if (x <? V_tall) && (y <? H_short) then Some (x, H_short - 1 - y)
      else None
  | 2 =>
      if (x <? H_short) && (y <? V_tall)
      then Some (V_tall - 1 - y, H_short - 1 - x) else None
  | 3 =>
      if (x <? V_tall) && (y <? H_short) then Some (V_tall - 1 - x, y)
      else None
  | _ => None
  end.

(** The code's own out-of-bounds signal. *)
Definition rejected (s : Screen) (x y : Z) : bool :=
  fst (fst (orientCoordinates s x y)).

(** The stored bit of logical pixel [(x, y)], when the mapper accepts it
    and its byte exists. *)
Definition pixel_bit (s : Screen) (x y : Z) : option bool :=
  let '(flag, x1, y1) := orientCoordinates s x y in
  if flag then None else
  let '(z1, t1) := getZT s x1 y1 in
  match Py.getitem (_newImage s) z1 with
  | inr b => Some (Z.testbit b t1)
  | inl _ => None
  end.

(** What one register write puts on the wire. *)
Definition indexData_events (index : Z) (data : list Z) : list event :=
  [PinWrite DC 0; PinWrite CS 0; Sleep 50; SpiWrite [index]; Sleep 50;
   PinWrite CS 1; PinWrite DC 1; PinWrite CS 0; Sleep 50; SpiWrite data;
   Sleep 50; PinWrite CS 1].

Definition command8_events (command : Z) : list event :=
  [PinWrite DC 0; PinWrite CS 0; Sleep 50; SpiWrite [command]; Sleep 50].

(** The image-transfer phase for the planes of [s]. *)
Definition transfer_events (s : Screen) : list event :=
  indexData_events 0x10 (_oldImage s) ++ indexData_events 0x13 (_newImage s).

(** A write of one of the two image register indices. *)
Definition image_index_write (e : event) : Prop :=
  e = SpiWrite [0x10] \/ e = SpiWrite [0x13].

Definition emit (evs : list event) (s : Screen) : Screen :=
  with_board {| wire := wire (board s) ++ evs;
                busy_pin := busy_pin (board s);
                polls := polls (board s) |} s.

(** A busy line that reads ready at every poll, the descriptor of font 0
    and a 2 x 8 panel (V=2, H=8: two bytes per plane). *)
Definition always_ready : nat -> Z := fun _ => 1.

Definition font_6x8 : FontInfo :=
  {| font_kind := 0x40; font_height := 8; font_maxWidth := 6;
     font_first := 32; font_number := 224 |}.

Definition panel (V H : Z) (image : list Z) : Screen :=
  {| _fontSize := 0; _fontSolid := false; _penSolid := false;
     _invert := false; _fontSpaceX := 1; _fontSpaceY := 1;
     _orientation := 0; _font := font_6x8;
     _screenSizeV := V; _screenSizeH := H;
     _screenColourBits := 1; _bufferDepth := 1;
     _bufferSizeV := V; _bufferSizeH := Z.shiftr H 3;
     _pageColourSize := V * Z.shiftr H 3;
     _newImage := image; _oldImage := replicate (length image) 0;
     board := {| wire := []; busy_pin := always_ready; polls := O |} |}.

(** ** Predicates used in the statements *)

(** The wire during a flush that got through the image transfer:
    [before], the transfer of the planes of [s], [after]; the previous
    plane is now the current one. *)
Definition reached_transfer (s s' : Screen) : Prop :=
  exists before after,
    wire (board s')
    = wire (board s) ++ before ++ transfer_events s ++ after
    /\ Forall (fun e => ~ image_index_write e) before
    /\ Forall (fun e => ~ image_index_write e) after
    /\ _oldImage s' = _newImage s
    /\ _newImage s' = _newImage s.

(** A flush that stopped before the transfer: no image register index
    was written and both planes are as they were. *)
Definition stopped_before_transfer (s s' : Screen) : Prop :=
  exists before,
    wire (board s') = wire (board s) ++ before
    /\ Forall (fun e => ~ image_index_write e) before
    /\ _oldImage s' = _oldImage s
    /\ _newImage s' = _newImage s.

(** The image transfer from [s], statement by statement. After the
    first statement the wire has gained the write of index 0x10 with the
    previous plane of [s]; after the second, the write of index 0x13 with
    the current plane; both planes are still those of [s]. Only the third
    statement, which writes nothing, makes the previous plane the current
    one; that is where the method returns. *)
Definition transfer_in_order (s : Screen) : Prop :=
  exists s1 s2 s3,
    COG_sendImageDataFast_upto 1 s = Return tt s1
    /\ COG_sendImageDataFast_upto 2 s = Return tt s2
    /\ COG_sendImageDataFast_upto 3 s = Return tt s3
    /\ COG_sendImageDataFast s = Return tt s3
    /\ wire (board s1)
       = wire (board s) ++ indexData_events 0x10 (_oldImage s)
    /\ wire (board s2)
       = wire (board s1) ++ indexData_events 0x13 (_newImage s)
    /\ wire (board s3) = wire (board s2)
    /\ (_oldImage s1 = _oldImage s /\ _newImage s1 = _newImage s)
    /\ (_oldImage s2 = _oldImage s /\ _newImage s2 = _newImage s)
    /\ (_oldImage s3 = _newImage s /\ _newImage s3 = _newImage s).

(** [(x, y)] names a pixel of the screen: both coordinates are from 0 up
    to the sizes [screenSizeX()] and [screenSizeY()] report. *)
Definition within_screen (s : Screen) (x y : Z) : Prop :=
  exists sx sy,
    screenSizeX s = Return sx s /\ screenSizeY s = Return sy s
    /\ 0 <= x < sx /\ 0 <= y < sy.

(** [s'] is [s] after some bus and pin traffic that wrote neither image
    register index: both planes and every attribute are as in [s]. *)
Definition quiet_step (s s' : Screen) : Prop :=
  exists evs k,
    s' = with_board {| wire := wire (board s) ++ evs;
                       busy_pin := busy_pin (board s);
                       polls := k |} s
    /\ Forall (fun e => ~ image_index_write e) evs.

(** What a method leaves behind when it does not raise. *)
Definition quietly {A} (s : Screen) (o : outcome A) : Prop :=
  match o with
  | Return _ s' => quiet_step s s'
  | Blocked s' => quiet_step s s'
  | Raise _ _ => False
  end.

(** A flush returns when every wait finds the pin ready within [n]
    polls. *)
Definition ready_within (n : nat) (line : nat -> Z) : Prop :=
  forall k, exists j, (j < n)%nat /\ line (k + j)%nat = 1.

(** [m] changes nothing but the current plane. *)
Definition draws_only {A} (m : M A) : Prop :=
  forall s, exists img, final (m s) = with_newImage img s.

(** [m] runs the same whatever the stored horizontal font spacing. *)
Definition ignores_fontSpaceX {A} (m : M A) : Prop :=
  forall n s,
    m (with_fontSpaceX n s) = outcome_map (with_fontSpaceX n) (m s).

(** [s'] is [s] with another current plane. *)
Definition redrawn (s s' : Screen) : Prop :=
  exists img, s' = with_newImage img s.

(** The descriptor is the one [selectFont] installs for the selector. *)
Definition font_selected (s : Screen) : Prop :=
  (_fontSize s = 0 -> font_maxWidth (_font s) = 6)
  /\ (_fontSize s = 1 -> font_maxWidth (_font s) = 8)
  /\ (_fontSize s = 2 -> font_maxWidth (_font s) = 12).

(** The bit an accepted, resolved colour leaves in the plane. *)
Definition ink (s : Screen) (colour : Z) : bool :=
  negb (xorb (colour =? Colour.WHITE) (_invert s)).

(** Bit [t] of item [z] of a plane. *)
Definition bit_at (img : list Z) (z t : Z) : option bool :=
  match Py.getitem img z with
  | inr b => Some (Z.testbit b t)
  | inl _ => None
  end.

(** The short side is a whole number of bytes, as [__init__] makes it
    for a height that is a multiple of 8. *)
Definition byte_aligned (s : Screen) : Prop :=
  _screenSizeH s = 8 * _bufferSizeH s.

(** ** Further functions of the class *)

(** The loop shared by the two branches of [circle]: [plot] is the body's
    drawing at the updated [(x, y)]. [x] grows by one each round and [y]
    never grows, so [while (x < y)] runs at most [y - x] rounds; [n]
    bounds the rounds, and the result is the [(x, y)] the loop ends with. *)
Fixpoint circle_while {A} (n : nat) (plot : Z -> Z -> M A)
    (f ddF_x ddF_y x y : Z) : M (Z * Z) :=
  match n with
  | O => ret (x, y)
  | S n' =>
      if x <? y then
        let '(y, ddF_y, f) :=
          if f >=? 0 then (y - 1, ddF_y + 2, f + (ddF_y + 2))
          else (y, ddF_y, f) in
        let x := x + 1 in
        let ddF_x := ddF_x + 2 in
        let f := f + ddF_x in
        plot x y ;;
        circle_while n' plot f ddF_x ddF_y x y
      else ret (x, y)
  end.

Section Circle.

(** The class defines no [setPenSolid]; what the call in the solid branch
    of [circle] does is left open. *)
Variable setPenSolid : bool -> M unit.

Definition circle (x0 y0 radius colour : Z) : M unit :=
  let f := 1 - radius in
  let ddF_x := 1 in
  let ddF_y := -2 * radius in
  let x := 0 in
  let y := radius in
  s <- self ;;
  if negb (_penSolid s) then
    point x0 (y0 + radius) colour ;;
    point x0 (y0 - radius) colour ;;
    point (x0 + radius) y0 colour ;;
    point (x0 - radius) y0 colour ;;
    circle_while (Z.to_nat (y - x)) (fun x y =>
      point (x0 + x) (y0 + y) colour ;;
      point (x0 - x) (y0 + y) colour ;;
      point (x0 + x) (y0 - y) colour ;;
      point (x0 - x) (y0 - y) colour ;;
      point (x0 + y) (y0 + x) colour ;;
      point (x0 - y) (y0 + x) colour ;;
      point (x0 + y) (y0 - x) colour ;;
      point (x0 - y) (y0 - x) colour) f ddF_x ddF_y x y ;;
    ret tt
  else
    xy <- circle_while (Z.to_nat (y - x)) (fun x y =>
      line (x0 + x) (y0 + y) (x0 - x) (y0 + y) colour ;;
      line (x0 + x) (y0 - y) (x0 - x) (y0 - y) colour ;;
      line (x0 + y) (y0 - x) (x0 + y) (y0 + x) colour ;;
      line (x0 - y) (y0 - x) (x0 - y) (y0 + x) colour) f ddF_x ddF_y x y ;;
    let '(x, y) := xy in
    setPenSolid true ;;
    rectangle (x0 - x) (y0 - y) (x0 + x) (y0 + y) colour.

End Circle.

(** ** Predicates of the further properties *)

(** [m] keeps [P], however it ends. *)
Definition keeps {A} (P : Screen -> Prop) (m : M A) : Prop :=
  forall s, P s -> P (final (m s)).

Definition is_byte (b : Z) : Prop := 0 <= b < 256.

(** [s] is [s0] with another current plane of the same length, all of
    whose items are bytes. *)
Definition same_shape (s0 s : Screen) : Prop :=
  exists img,
    s = with_newImage img s0
    /\ length img = length (_newImage s0)
    /\ Forall is_byte img.

(** The planes are as [__init__] sizes them: [_pageColourSize] bytes
    each, for a panel of non-negative sides. *)
Definition well_sized (s : Screen) : Prop :=
  0 <= _screenSizeV s /\ 0 <= _screenSizeH s
  /\ _bufferSizeV s = _screenSizeV s
  /\ _bufferSizeH s = Z.shiftr (_screenSizeH s) 3
  /\ Z.of_nat (length (_newImage s)) = _bufferSizeV s * _bufferSizeH s
  /\ length (_oldImage s) = length (_newImage s).

(** The bus writes of a log, each with the level of the data/command
    line when it was made (0 = command, 1 = data), replayed from level
    [dc]. *)
Fixpoint tagged_writes (dc : Z) (evs : list event) : list (Z * list Z) :=
  match evs with
  | [] => []
  | PinWrite DC v :: evs' => tagged_writes v evs'
  | SpiWrite data :: evs' => (dc, data) :: tagged_writes dc evs'
  | _ :: evs' => tagged_writes dc evs'
  end.

(** What [j] not-ready polls followed by a ready one put on the wire,
    for a busy line read from poll [p] on. *)
Fixpoint wait_events (line : nat -> Z) (p j : nat) : list event :=
  match j with
  | O => [BusyRead (line p)]
  | S j' => BusyRead (line p) :: Sleep 32 :: wait_events line (S p) j'
  end.

(** The bus writes of one panel update with planes [previous] and
    [current]: register index or command bytes on the command level,
    payloads on the data level. *)
Definition update_writes (previous current : list Z) : list (Z * list Z) :=
  [(0, [0x00]); (1, [0x00]);
   (0, [0xe5]); (1, [0x59]);
   (0, [0xe0]); (1, [0x02]);
   (0, [0x00]); (1, [0xdf; 0x8f]);
   (0, [0x10]); (1, previous);
   (0, [0x13]); (1, current);
   (0, [0x04]); (0, [0x12]); (0, [0x02])].

(** An event of a busy wait. *)
Definition poll_event (e : event) : Prop :=
  (exists v, e = BusyRead v) \/ e = Sleep 32.

(** Chip select while the log [evs] is replayed from level [cs]: no byte
    is written while the device is deselected. The result is the level
    the log ends with. *)
Fixpoint selected_writes (cs : Z) (evs : list event) : option Z :=
  match evs with
  | [] => Some cs
  | PinWrite CS v :: evs' => selected_writes v evs'
  | SpiWrite _ :: evs' => if cs =? 0 then selected_writes cs evs' else None
  | _ :: evs' => selected_writes cs evs'
  end.

(** A Screen as [__init__] builds it for a panel whose short side is a
    multiple of 8, at any later point of its life. *)
Definition on_panel (s : Screen) : Prop :=
  well_sized s /\ byte_aligned s /\ Forall is_byte (_newImage s).

(** [_penSolid] has no setter in the class; this is the assignment
    [screen._penSolid = v] made from outside. *)
Definition with_penSolid (v : bool) (s : Screen) : Screen :=
  {| _fontSize := _fontSize s; _fontSolid := _fontSolid s;
     _penSolid := v; _invert := _invert s;
     _fontSpaceX := _fontSpaceX s; _fontSpaceY := _fontSpaceY s;
     _orientation := _orientation s; _font := _font s;
     _screenSizeV := _screenSizeV s; _screenSizeH := _screenSizeH s;
     _screenColourBits := _screenColourBits s;
     _bufferDepth := _bufferDepth s; _bufferSizeV := _bufferSizeV s;
     _bufferSizeH := _bufferSizeH s;
     _pageColourSize := _pageColourSize s; _newImage := _newImage s;
     _oldImage := _oldImage s; board := board s |}.

(** The normalized range of a rectangle and its border. *)
Definition in_rectangle (x1 y1 x2 y2 a b : Z) : Prop :=
  Z.min x1 x2 <= a <= Z.max x1 x2 /\ Z.min y1 y2 <= b <= Z.max y1 y2.

Definition on_border (x1 y1 x2 y2 a b : Z) : Prop :=
  in_rectangle x1 y1 x2 y2 a b
  /\ (a = x1 \/ a = x2 \/ b = y1 \/ b = y2).

(** The byte [clear(colour)] writes to every item of row [i]. *)
Definition clear_byte (s : Screen) (colour i : Z) : Z :=
  if colour =? Colour.GREY then (if i mod 2 =? 0 then 0xaa else 0x55)
  else if xorb (colour =? Colour.WHITE) (_invert s) then 0x00
  else 0xff.

(** The bit a cleared plane holds for logical [(x, y)]: the dither of
    GREY sets the bits whose buffer coordinates have an even sum. *)
Definition clear_bit (s : Screen) (colour x y : Z) : bool :=
  if colour =? Colour.GREY then
    let '(_, x1, y1) := orientCoordinates s x y in (x1 + y1) mod 2 =? 0
  else negb (xorb (colour =? Colour.WHITE) (_invert s)).

(** Everything one returning [flush] puts on the wire, given the logs
    [w1] .. [w4] of its four busy waits. *)
Definition flush_events (s : Screen) (w1 w2 w3 w4 : list event)
  : list event :=
  indexData_events 0x00 [0x00] ++ w1
  ++ indexData_events 0xe5 [0x59]
  ++ indexData_events 0xe0 [0x02]
  ++ indexData_events 0x00 [0xdf; 0x8f]
  ++ transfer_events s
  ++ command8_events 0x04 ++ [PinWrite CS 1] ++ w2
  ++ command8_events 0x12 ++ [PinWrite CS 1] ++ w3
  ++ command8_events 0x02 ++ [PinWrite CS 1] ++ w4.

(** The Screen after bus traffic [evs] and polls up to [k]. *)
Definition after_traffic (evs : list event) (k : nat) (s : Screen) : Screen :=
  with_board {| wire := wire (board s) ++ evs;
                busy_pin := busy_pin (board s);
                polls := k |} s.

(** The level the data/command line ends on. *)
Fixpoint dc_end (dc : Z) (evs : list event) : Z :=
  match evs with
  | [] => dc
  | PinWrite DC v :: evs' => dc_end v evs'
  | _ :: evs' => dc_end dc evs'
  end.

(** [s1] is [s0] redrawn with the pixel of [(a, b)] as it was. *)
Definition untouched (s0 : Screen) (a b : Z) (s1 : Screen) : Prop :=
  redrawn s0 s1 /\ pixel_bit s1 a b = pixel_bit s0 a b.

(** The cell grid of [gText]: column stride and rows written per
    character for the stored selector. *)
Definition text_cell (s : Screen) : Z * Z :=
  if _fontSize s =? 0 then (6, 8)
  else if _fontSize s =? 1 then (8, 16)
  else if _fontSize s =? 2 then (12, 16)
  else (0, 0).

(** [s1] is [s0] redrawn with the pixel of [(a, b)] in the ink of [c]. *)
Definition inked (s0 : Screen) (c a b : Z) (s1 : Screen) : Prop :=
  redrawn s0 s1 /\ pixel_bit s1 a b = Some (ink s0 c).

(** From a state of [P], [m] returns, in a state of [Q]. *)
Definition leads {A} (P Q : Screen -> Prop) (m : M A) : Prop :=
  forall s, P s -> exists r s', m s = Return r s' /\ Q s'.

(** [(a, b)] is within half a pixel of the circle of radius [r] around
    [(x0, y0)]: its squared distance [d] has [r*r - r <= d <= r*r + r]. *)
Definition on_ring (x0 y0 r a b : Z) : Prop :=
  - r <= (a - x0) * (a - x0) + (b - y0) * (b - y0) - r * r <= r.

(** The four points of the circle on the axes through its centre. *)
Definition axis_point (x0 y0 r a b : Z) : Prop :=
  (a = x0 /\ (b = y0 + r \/ b = y0 - r))
  \/ (b = y0 /\ (a = x0 + r \/ a = x0 - r)).

(** [(a, b)] is within half a pixel of the straight line through
    [(x1, y1)] and [(x2, y2)], measured along the minor axis. *)
Definition near_line (x1 y1 x2 y2 a b : Z) : Prop :=
  2 * Z.abs ((a - x1) * (y2 - y1) - (b - y1) * (x2 - x1))
  <= Z.max (Z.abs (x2 - x1)) (Z.abs (y2 - y1)).

(** [s1] is a panel, [s] redrawn in colour [c]: the accepted pixels of
    [In] show the ink, the pixels of [Out] are as in [s]. *)
Definition painted (s : Screen) (c : Z) (In Out : Z -> Z -> Prop)
    (s1 : Screen) : Prop :=
  on_panel s1 /\ redrawn s s1
  /\ (forall a b, In a b -> rejected s a b = false ->
        pixel_bit s1 a b = Some (ink s c))
  /\ (forall a b, 0 <= a -> 0 <= b -> Out a b ->
        pixel_bit s1 a b = pixel_bit s a b).

(** * Properties *)

(** ** Running method bodies *)

Lemma bind_Return {A B} (m : M A) (k : A -> M B) s a s' :
  m s = Return a s' -> bind m k s = k a s'.
Proof. unfold bind. intros ->. reflexivity. Qed.

Lemma effect_bind_ret {A} (m : M A) s :
  bind m (fun _ => ret tt) s = effect (m s).
Proof. unfold bind, effect, ret. destruct (m s); reflexivity. Qed.

Lemma init_panel V H :
  0 <= V * Z.shiftr H 3 ->
  init font_6x8 always_ready V H
  = inr (panel V H (replicate (Z.to_nat (V * Z.shiftr H 3)) 0)).
Proof.
  intros Hsz. unfold init, Py.bytearray.
  destruct (Z.ltb_spec (V * Z.shiftr H 3) 0) as [Hlt | _]; [lia |].
  unfold panel. rewrite length_replicate. reflexivity.
Qed.

(** ** Font selector and spacing *)

(** C10. [setFontSpaceY(n)] returns with the Screen exactly as it was:
    the stored vertical spacing keeps its value, and whatever runs next
    runs as if the call had not been made. *)
Theorem setFontSpaceY_no_effect :
  forall (number : Z) (s : Screen),
    setFontSpaceY number s = Return tt s
    /\ _fontSpaceY (final (setFontSpaceY number s)) = _fontSpaceY s
    /\ forall (A : Type) (m : M A), (setFontSpaceY number ;; m) s = m s.
Proof.
  intros number s. split; [reflexivity |]. split; [reflexivity |].
  intros A m. reflexivity.
Qed.

Lemma selectFont_fontSize MAX font s :
  _fontSize (final (selectFont MAX font s))
  = if font <? MAX then font else MAX - 1.
Proof.
  unfold selectFont, bind, assign, self, ret.
  destruct (font <? MAX); cbn;
    repeat match goal with |- context [if ?b then _ else _] => destruct b end;
    reflexivity.
Qed.

Lemma selectFont_returns MAX font s :
  exists s', selectFont MAX font s = Return tt s'.
Proof.
  unfold selectFont, bind, assign, self, ret.
  destruct (font <? MAX); cbn;
    repeat match goal with |- context [if ?b then _ else _] => destruct b end;
    eexists; reflexivity.
Qed.

(** A non-negative selector does end up in [0, MAX_FONT_SIZE). *)
Lemma selectFont_clamps_above MAX font s :
  0 < MAX -> 0 <= font ->
  0 <= _fontSize (final (selectFont MAX font s)) < MAX.
Proof.
  intros HM Hf. rewrite selectFont_fontSize.
  destruct (Z.ltb_spec font MAX); lia.
Qed.

(** C9 (the code departs from it). Whatever [MAX_FONT_SIZE] is,
    [selectFont(-1)] returns and [getFont()] then reports a negative
    selector: the value is stored, not clamped into [0, MAX_FONT_SIZE). *)
Theorem selectFont_negative_stored :
  forall (MAX_FONT_SIZE : Z) (s : Screen),
    exists v s',
      (selectFont MAX_FONT_SIZE (-1) ;; getFont) s = Return v s'
      /\ v < 0
      /\ (-1 < MAX_FONT_SIZE -> v = -1).
Proof.
  intros MAX s.
  destruct (selectFont_returns MAX (-1) s) as [s' Hs'].
  pose proof (selectFont_fontSize MAX (-1) s) as Hf.
  rewrite Hs' in Hf; cbn in Hf.
  exists (_fontSize s'), s'. split.
  - rewrite (bind_Return _ _ _ _ _ Hs'). reflexivity.
  - rewrite Hf. destruct (Z.ltb_spec (-1) MAX); split; lia.
Qed.

(** ** Orientation *)

Lemma setOrientation_stores o s :
  exists s', setOrientation o s = Return tt s'
             /\ _orientation s' = o mod 4.
Proof.
  unfold setOrientation, bind, assign, self, ret, screenSizeX, screenSizeY.
  destruct (o =? 6); [| destruct (o =? 7)]; cbn;
    repeat match goal with |- context [if ?b then _ else _] => destruct b end;
    eexists; split; reflexivity.
Qed.

Lemma setOrientation_range o s :
  0 <= _orientation (final (setOrientation o s)) < 4.
Proof.
  destruct (setOrientation_stores o s) as (s' & Hs' & Ho).
  rewrite Hs'. cbn. rewrite Ho. apply Z.mod_pos_bound. lia.
Qed.

(** C2 (the code departs from it). After [setOrientation(6)] the stored
    orientation read back by [getOrientation()] is 2, and after
    [setOrientation(7)] it is 3, on every Screen: neither is 0 or 1. *)
Theorem setOrientation_6_7_stored :
  forall s : Screen,
    (exists s', (setOrientation 6 ;; getOrientation) s = Return 2 s')
    /\ (exists s', (setOrientation 7 ;; getOrientation) s = Return 3 s').
Proof.
  intros s. split.
  - destruct (setOrientation_stores 6 s) as (s' & Hs' & Ho).
    exists s'. rewrite (bind_Return _ _ _ _ _ Hs').
    unfold getOrientation, bind, self, ret. rewrite Ho. reflexivity.
  - destruct (setOrientation_stores 7 s) as (s' & Hs' & Ho).
    exists s'. rewrite (bind_Return _ _ _ _ _ Hs').
    unfold getOrientation, bind, self, ret. rewrite Ho. reflexivity.
Qed.

(** C4. For each orientation 0..3 the mapper's answer is the one the
    specification's four cases give: the mapped pair with the flag clear
    when the case's bounds hold, and the error flag otherwise. *)
Theorem orientCoordinates_four_cases :
  forall (s : Screen) (x y : Z),
    0 <= _orientation s < 4 ->
    orientCoordinates s x y
    = match mapCoordinates (_screenSizeH s) (_screenSizeV s) x y
              (_orientation s) with
      | Some (x', y') => (false, x', y')
      | None => (true, x, y)
      end.
Proof.
  intros s x y Ho.
  assert (Hcases : _orientation s = 0 \/ _orientation s = 1
                   \/ _orientation s = 2 \/ _orientation s = 3) by lia.
  unfold orientCoordinates, mapCoordinates.
  destruct Hcases as [-> | [-> | [-> | ->]]]; cbn;
    match goal with |- context [if ?b then _ else _] => destruct b end;
    reflexivity.
Qed.

Lemma orientCoordinates_four_cases_witness :
  0 <= _orientation (with_orientation 2 (panel 2 8 [0; 0])) < 4
  /\ orientCoordinates (with_orientation 2 (panel 2 8 [0; 0])) 3 1
     = (false, 0, 4).
Proof.
  assert (Ho : 0 <= _orientation (with_orientation 2 (panel 2 8 [0; 0])) < 4)
    by (cbn; lia).
  split; [exact Ho |].
  rewrite (orientCoordinates_four_cases
             (with_orientation 2 (panel 2 8 [0; 0])) 3 1 Ho).
  reflexivity.
Defined.

(** ** Points *)

(** When the mapper rejects [(x, y)], [point(x, y, c)] returns (the
    value 0) without raising, and the Screen - both planes and every
    other attribute - is the one it was called on. *)
Lemma point_rejected_no_effect :
  forall (s : Screen) (x y c : Z),
    rejected s x y = true ->
    point x y c s = Return (Some 0) s.
Proof.
  intros s x y c Hrej. unfold rejected in Hrej.
  unfold point, bind, self.
  destruct (orientCoordinates s x y) as [[flag x1] y1]. cbn in Hrej.
  subst flag. reflexivity.
Qed.

Lemma point_rejected_no_effect_witness :
  rejected (panel 2 8 [0; 0]) 8 0 = true
  /\ point 8 0 Colour.BLACK (panel 2 8 [0; 0])
     = Return (Some 0) (panel 2 8 [0; 0]).
Proof.
  split; [reflexivity |].
  apply (point_rejected_no_effect (panel 2 8 [0; 0]) 8 0 Colour.BLACK).
  reflexivity.
Defined.

(** C5 (the code departs from it). On a fresh 2 x 8 panel, orientation
    0, the screen is 8 by 2. The coordinate (-1, 0) is not within it, yet
    the mapper accepts it - it tests the upper bounds only - and
    [point(-1, 0, BLACK)] returns having set bit 0 of the last byte of
    the plane, which is the pixel (7, 1) of the screen, white before. The
    coordinate (-100, 0) is not within it either, and
    [point(-100, 0, BLACK)] raises [IndexError]. *)
Theorem point_off_screen_not_ignored :
  exists s0 s1,
    init font_6x8 always_ready 2 8 = inr s0
    /\ screenSizeX s0 = Return 8 s0 /\ screenSizeY s0 = Return 2 s0
    /\ ~ within_screen s0 (-1) 0
    /\ rejected s0 (-1) 0 = false
    /\ point (-1) 0 Colour.BLACK s0 = Return None s1
    /\ _newImage s0 = [0; 0] /\ _newImage s1 = [0; 1]
    /\ within_screen s0 7 1
    /\ pixel_bit s0 7 1 = Some false
    /\ pixel_bit s1 7 1 = Some true
    /\ ~ within_screen s0 (-100) 0
    /\ point (-100) 0 Colour.BLACK s0 = Raise Py.IndexError s0.
Proof.
  eexists. eexists.
  split; [vm_compute; reflexivity |].
  split; [reflexivity |]. split; [reflexivity |].
  split; [intros (sx & sy & _ & _ & Hx & _); lia |].
  split; [reflexivity |].
  split; [vm_compute; reflexivity |].
  split; [reflexivity |]. split; [reflexivity |].
  split; [exists 8, 2; repeat split; lia |].
  split; [reflexivity |]. split; [reflexivity |].
  split; [intros (sx & sy & _ & _ & Hx & _); lia |].
  vm_compute. reflexivity.
Qed.

Lemma readPixel_accepted_raises s x y :
  rejected s x y = false ->
  readPixel x y s = Raise Py.UnboundLocalError s.
Proof.
  unfold rejected, readPixel, bind, self.
  destruct (orientCoordinates s x y) as [[flag x1] y1]. cbn.
  intros ->. reflexivity.
Qed.

(** C1 (the code departs from it). On a fresh 2 x 8 panel, orientation 0,
    [point(0,0,BLACK)] with invert off sets bit 7 of byte 0, and
    [readPixel(0,0)] then raises instead of returning BLACK; with invert
    on, the same two calls raise as well instead of returning WHITE. The
    statements after the faulty one would return WHITE for the set bit. *)
Theorem readPixel_after_point :
  exists s0 s1,
    init font_6x8 always_ready 2 8 = inr s0
    /\ _invert s0 = false
    /\ rejected s0 0 0 = false
    /\ point 0 0 Colour.BLACK s0 = Return None s1
    /\ _newImage s1 = [0x80; 0x00]
    /\ readPixel 0 0 s1 = Raise Py.UnboundLocalError s1
    /\ readPixel_decode 0 0 s1 = Return Colour.WHITE s1
    /\ (invert true ;; point 0 0 Colour.BLACK ;; readPixel 0 0) s0
       = Raise Py.UnboundLocalError (with_invert true s0).
Proof.
  eexists. eexists.
  split; [vm_compute; reflexivity |].
  repeat split; vm_compute; reflexivity.
Qed.

(** ** Lines *)

(** C7. [line(x, y, x, y, c)] ends exactly as [point(x, y, c)] does:
    in the same Screen, and raising whenever [point] raises. *)
Theorem line_degenerate_is_point :
  forall (x y c : Z) (s : Screen),
    line x y x y c s = effect (point x y c s).
Proof.
  intros x y c s. unfold line. rewrite !Z.eqb_refl. cbn [andb].
  apply effect_bind_ret.
Qed.

(** ** Panel update *)

Lemma emit_emit evs1 evs2 s : emit evs2 (emit evs1 s) = emit (evs1 ++ evs2) s.
Proof. unfold emit, with_board. cbn. rewrite <- app_assoc. reflexivity. Qed.

Lemma log_emit e s : log e s = emit [e] s.
Proof. reflexivity. Qed.

Lemma sendIndexData_run index data size s :
  sendIndexData index data size s
  = Return tt (emit (indexData_events index data) s).
Proof.
  unfold sendIndexData, bind, pin_value, sleep_ms, spi_write, assign.
  rewrite !log_emit, !emit_emit. reflexivity.
Qed.

Lemma sendCommand8_run command s :
  sendCommand8 command s = Return tt (emit (command8_events command) s).
Proof.
  unfold sendCommand8, bind, pin_value, sleep_ms, spi_write, assign.
  rewrite !log_emit, !emit_emit. reflexivity.
Qed.

Lemma quiet_step_refl s : quiet_step s s.
Proof.
  exists [], (polls (board s)). split; [| constructor].
  destruct s as [? ? ? ? ? ? ? ? ? ? ? ? ? ? ? ? ? [w b p]]. cbn.
  rewrite app_nil_r. reflexivity.
Qed.

Lemma quiet_step_trans s1 s2 s3 :
  quiet_step s1 s2 -> quiet_step s2 s3 -> quiet_step s1 s3.
Proof.
  intros (e1 & k1 & -> & H1) (e2 & k2 & -> & H2).
  exists (e1 ++ e2), k2. split.
  - unfold with_board. cbn. rewrite app_assoc. reflexivity.
  - apply Forall_app. split; assumption.
Qed.

Lemma quiet_step_emit evs s :
  Forall (fun e => ~ image_index_write e) evs -> quiet_step s (emit evs s).
Proof. intros H. exists evs, (polls (board s)). split; [reflexivity | exact H]. Qed.

Lemma quiet_step_facts s s' :
  quiet_step s s' ->
  _newImage s' = _newImage s /\ _oldImage s' = _oldImage s
  /\ busy_pin (board s') = busy_pin (board s)
  /\ exists evs, wire (board s') = wire (board s) ++ evs
                 /\ Forall (fun e => ~ image_index_write e) evs.
Proof.
  intros (evs & k & -> & Hq). cbn. repeat split. exists evs. auto.
Qed.

Ltac not_image_write :=
  repeat constructor; intros [Heq | Heq]; discriminate Heq.

Lemma quietly_bind {A B} (m : M A) (k : A -> M B) s :
  quietly s (m s) ->
  (forall a s', quiet_step s s' -> quietly s' (k a s')) ->
  quietly s (bind m k s).
Proof.
  unfold bind. destruct (m s) as [a s' | e s' | s']; cbn; intros Hm Hk.
  - specialize (Hk a s' Hm).
    destruct (k a s') as [b s'' | e s'' | s'']; cbn in *;
      eauto using quiet_step_trans.
  - exact Hm.
  - exact Hm.
Qed.

Lemma waitBusy_quietly n : forall s, quietly s (waitBusy n s).
Proof.
  induction n as [| n IH]; intros s; cbn [waitBusy].
  - cbn. apply quiet_step_refl.
  - unfold bind at 1. cbn [busy_value].
    set (v := busy_pin (board s) (polls (board s))).
    set (s1 := with_board _ s).
    assert (H1 : quiet_step s s1).
    { exists [BusyRead v], (S (polls (board s))). split; [reflexivity |].
      not_image_write. }
    destruct (negb (v =? 1)).
    + unfold bind, sleep_ms, assign. rewrite log_emit.
      specialize (IH (emit [Sleep 32] s1)).
      assert (H2 : quiet_step s (emit [Sleep 32] s1)).
      { eapply quiet_step_trans; [exact H1 |].
        apply quiet_step_emit. not_image_write. }
      destruct (waitBusy n (emit [Sleep 32] s1)); cbn in *;
        eauto using quiet_step_trans.
    + cbn. exact H1.
Qed.

Lemma sendIndexData_quietly index data size s :
  index <> 0x10 -> index <> 0x13 ->
  data <> [0x10] -> data <> [0x13] ->
  quietly s (sendIndexData index data size s).
Proof.
  intros Hi1 Hi2 Hd1 Hd2. rewrite sendIndexData_run. cbn.
  apply quiet_step_emit. unfold indexData_events.
  repeat constructor; intros [Heq | Heq]; try discriminate Heq;
    injection Heq; congruence.
Qed.

Lemma sendCommand8_quietly command s :
  command <> 0x10 -> command <> 0x13 ->
  quietly s (sendCommand8 command s).
Proof.
  intros Hi1 Hi2. rewrite sendCommand8_run. cbn.
  apply quiet_step_emit. unfold command8_events.
  repeat constructor; intros [Heq | Heq]; try discriminate Heq;
    injection Heq; congruence.
Qed.

Lemma pin_value_quietly p v s : quietly s (pin_value p v s).
Proof.
  unfold pin_value, assign. cbn. rewrite log_emit.
  apply quiet_step_emit. not_image_write.
Qed.

Ltac quiet_steps :=
  repeat lazymatch goal with
    | |- quietly _ (waitBusy _ _) => apply waitBusy_quietly
    | |- quietly _ (pin_value _ _ _) => apply pin_value_quietly
    | |- quietly _ (sendIndexData _ _ _ _) =>
        apply sendIndexData_quietly; intros Heq; vm_compute in Heq;
        discriminate Heq
    | |- quietly _ (sendCommand8 _ _) =>
        apply sendCommand8_quietly; intros Heq; discriminate Heq
    | |- quietly _ (bind _ _ _) => apply quietly_bind; [| intros ? ? _]
    end.

Lemma COG_initial_quietly n s : quietly s (COG_initial n s).
Proof. unfold COG_initial. quiet_steps. Qed.

Lemma COG_update_quietly n s : quietly s (COG_update n s).
Proof. unfold COG_update. quiet_steps. Qed.

Lemma COG_powerOff_quietly n s : quietly s (COG_powerOff n s).
Proof. unfold COG_powerOff. quiet_steps. Qed.

Lemma COG_sendImageDataFast_run s :
  COG_sendImageDataFast s
  = Return tt (with_oldImage (_newImage s) (emit (transfer_events s) s)).
Proof.
  unfold COG_sendImageDataFast, COG_sendImageDataFast_statements.
  cbn [for_each]. unfold bind, self, assign, ret.
  rewrite !sendIndexData_run. cbn [_newImage emit with_board].
  unfold transfer_events. rewrite emit_emit. reflexivity.
Qed.

(** However a flush ends - returned, or still waiting on the busy
    pin - nothing before the image transfer writes an image register
    index or changes a plane; the transfer writes index 0x10 with the
    previous plane as it was when flush was called, then index 0x13 with
    the current plane; and only a flush that got through the transfer
    has "previous" equal to "current". A flush never raises. *)
Lemma flush_outcome :
  forall (n : nat) (s : Screen),
    match flush n s with
    | Return _ s' => reached_transfer s s'
    | Blocked s' => stopped_before_transfer s s' \/ reached_transfer s s'
    | Raise _ _ => False
    end.
Proof.
  intros n s.
  unfold flush. unfold bind at 1.
  pose proof (COG_initial_quietly n s) as H1.
  destruct (COG_initial n s) as [[] s1 | e s1 | s1]; cbn in H1;
    [| contradiction |].
  2:{ left. apply quiet_step_facts in H1.
      destruct H1 as (Hn & Ho & _ & evs & Hw & Hq).
      exists evs. auto. }
  unfold bind at 1. rewrite COG_sendImageDataFast_run.
  set (s2 := with_oldImage _ _).
  assert (H2 : quietly s2 (bind (COG_update n) (fun _ => COG_powerOff n) s2)).
  { apply quietly_bind; [apply COG_update_quietly |].
    intros ? ? _. apply COG_powerOff_quietly. }
  apply quiet_step_facts in H1.
  destruct H1 as (Hn1 & Ho1 & _ & before & Hw1 & Hq1).
  assert (Hreach : forall s', quiet_step s2 s' -> reached_transfer s s').
  { intros s' Hs'. apply quiet_step_facts in Hs'.
    destruct Hs' as (Hn' & Ho' & _ & after & Hw' & Hq').
    exists before, after. rewrite Hw', Hn', Ho'. subst s2. cbn.
    unfold transfer_events. rewrite Hw1, Hn1, Ho1.
    rewrite <- !app_assoc. auto. }
  destruct (bind (COG_update n) (fun _ => COG_powerOff n) s2)
    as [[] s3 | e s3 | s3]; cbn in H2.
  - apply Hreach, H2.
  - contradiction.
  - right. apply Hreach, H2.
Qed.

Lemma waitBusy_returns n : forall s,
  (exists j, (j < n)%nat
             /\ busy_pin (board s) (polls (board s) + j)%nat = 1) ->
  exists s', waitBusy n s = Return tt s'.
Proof.
  induction n as [| n IH]; intros s (j & Hj & Hr); [lia |].
  cbn [waitBusy]. unfold bind at 1. cbn [busy_value].
  destruct (Z.eqb_spec (busy_pin (board s) (polls (board s))) 1)
    as [Heq | Hne]; cbn [negb].
  - eexists. reflexivity.
  - unfold bind, sleep_ms, assign. apply IH. cbn.
    destruct j as [| j].
    + rewrite Nat.add_0_r in Hr. contradiction.
    + exists j. split; [lia |]. rewrite <- Hr. f_equal. lia.
Qed.

Lemma waitBusy_ready n s0 s :
  ready_within n (busy_pin (board s0)) ->
  busy_pin (board s) = busy_pin (board s0) ->
  exists s', waitBusy n s = Return tt s' /\ quiet_step s s'.
Proof.
  intros Hr Hb.
  destruct (waitBusy_returns n s) as [s' Hs'].
  { rewrite Hb. apply Hr. }
  exists s'. split; [exact Hs' |].
  pose proof (waitBusy_quietly n s) as Hq. rewrite Hs' in Hq. exact Hq.
Qed.

Theorem flush_returns :
  forall (n : nat) (s : Screen),
    ready_within n (busy_pin (board s)) ->
    exists s', flush n s = Return tt s'.
Proof.
  intros n s Hr.
  assert (Hwait : forall s1, busy_pin (board s1) = busy_pin (board s) ->
            exists s', waitBusy n s1 = Return tt s'
                       /\ busy_pin (board s') = busy_pin (board s)).
  { intros s1 Hb. destruct (waitBusy_ready n s s1 Hr Hb) as (s' & Hs' & Hq).
    exists s'. split; [exact Hs' |].
    apply quiet_step_facts in Hq. destruct Hq as (_ & _ & Hb' & _).
    congruence. }
  unfold flush, COG_initial, COG_update, COG_powerOff, bind.
  rewrite !sendIndexData_run.
  destruct (Hwait (emit (indexData_events 0 [0]) s) eq_refl)
    as (s1 & -> & Hb1).
  rewrite !sendIndexData_run, COG_sendImageDataFast_run.
  rewrite !sendCommand8_run. cbn [pin_value assign].
  match goal with |- context [waitBusy n ?x] =>
    destruct (Hwait x) as (s2 & -> & Hb2); [exact Hb1 |] end.
  rewrite !sendCommand8_run.
  match goal with |- context [waitBusy n ?x] =>
    destruct (Hwait x) as (s3 & -> & Hb3); [exact Hb2 |] end.
  rewrite !sendCommand8_run.
  match goal with |- context [waitBusy n ?x] =>
    destruct (Hwait x) as (s4 & -> & Hb4); [exact Hb3 |] end.
  eexists. reflexivity.
Qed.

Lemma COG_initial_returns n s :
  ready_within n (busy_pin (board s)) ->
  exists s1, COG_initial n s = Return tt s1.
Proof.
  intros Hr. destruct (flush_returns n s Hr) as [s' Hs'].
  unfold flush in Hs'. unfold bind at 1 in Hs'.
  destruct (COG_initial n s) as [[] s1 | |]; [| discriminate ..].
  exists s1. reflexivity.
Qed.

Lemma COG_sendImageDataFast_in_order s : transfer_in_order s.
Proof.
  exists (emit (indexData_events 0x10 (_oldImage s)) s),
         (emit (transfer_events s) s),
         (with_oldImage (_newImage s) (emit (transfer_events s) s)).
  unfold COG_sendImageDataFast_upto, COG_sendImageDataFast_statements.
  cbn [take for_each]. unfold bind, self, assign, ret.
  rewrite !sendIndexData_run, COG_sendImageDataFast_run.
  cbn [_newImage _oldImage emit with_board with_oldImage board wire].
  unfold transfer_events. rewrite !emit_emit, !app_assoc.
  repeat split; reflexivity.
Qed.

(** C3. The image transfer of every flush, in three parts.
    (1) A flush whose waits find the panel ready returns, so the transfer
    does take place. (2) However a flush ends - returned, or still
    waiting on the busy pin - it never raises; nothing before the
    transfer writes an image register index or changes a plane; a flush
    that returned wrote index 0x10 with the previous plane as it was at
    the call, then index 0x13 with the current plane, and has "previous"
    equal to "current"; one that is still waiting either did all that or
    has written neither index and changed neither plane. (3) The transfer
    starts from the planes flush was called with, and statement by
    statement it first writes the previous plane under 0x10, then the
    current plane under 0x13, both planes being untouched so far, and
    only then copies "current" into "previous". *)
Theorem flush_transfer_order :
  forall (n : nat) (s : Screen),
    (ready_within n (busy_pin (board s)) ->
     exists s', flush n s = Return tt s' /\ reached_transfer s s')
    /\ match flush n s with
       | Return _ s' => reached_transfer s s'
       | Blocked s' => stopped_before_transfer s s' \/ reached_transfer s s'
       | Raise _ _ => False
       end
    /\ (forall s1,
          COG_initial n s = Return tt s1 ->
          _oldImage s1 = _oldImage s /\ _newImage s1 = _newImage s
          /\ transfer_in_order s1
          /\ flush n s = (COG_update n ;; COG_powerOff n)%py
                           (with_oldImage (_newImage s1)
                              (emit (transfer_events s1) s1))).
Proof.
  intros n s. pose proof (flush_outcome n s) as Hout.
  split; [| split; [exact Hout |]].
  - intros Hr. destruct (flush_returns n s Hr) as [s' Hs'].
    exists s'. split; [exact Hs' |]. rewrite Hs' in Hout. exact Hout.
  - intros s1 H1. pose proof (COG_initial_quietly n s) as Hq.
    rewrite H1 in Hq. apply quiet_step_facts in Hq.
    destruct Hq as (Hn & Ho & _).
    split; [exact Ho |]. split; [exact Hn |].
    split; [apply COG_sendImageDataFast_in_order |].
    unfold flush. unfold bind at 1. rewrite H1.
    unfold bind at 1. rewrite COG_sendImageDataFast_run. reflexivity.
Qed.

Lemma flush_transfer_order_witness :
  ready_within 1 (busy_pin (board (panel 2 8 [1; 2])))
  /\ (exists s',
        flush 1 (panel 2 8 [1; 2]) = Return tt s'
        /\ reached_transfer (panel 2 8 [1; 2]) s')
  /\ exists s1,
       COG_initial 1 (panel 2 8 [1; 2]) = Return tt s1
       /\ _oldImage s1 = [0; 0] /\ _newImage s1 = [1; 2]
       /\ transfer_in_order s1.
Proof.
  assert (Hr : ready_within 1 (busy_pin (board (panel 2 8 [1; 2]))))
    by (intros k; exists O; split; [lia | reflexivity]).
  split; [exact Hr |].
  destruct (flush_transfer_order 1 (panel 2 8 [1; 2]))
    as (Hlive & _ & Htransfer).
  split; [exact (Hlive Hr) |].
  destruct (COG_initial_returns 1 (panel 2 8 [1; 2]) Hr) as [s1 H1].
  exists s1.
  destruct (Htransfer s1 H1) as (Ho & Hn & Hin & _).
  split; [exact H1 |]. split; [exact Ho |]. split; [exact Hn |].
  exact Hin.
Defined.

(** ** What drawing reads and writes *)

Lemma with_newImage_same s : with_newImage (_newImage s) s = s.
Proof. destruct s. reflexivity. Qed.

Section Composition.

Context {A B : Type}.

Lemma draws_only_ret (a : A) : draws_only (ret a).
Proof. intros s. exists (_newImage s). cbn. now rewrite with_newImage_same. Qed.

Lemma draws_only_lift (r : Py.exn + A) : draws_only (lift r).
Proof.
  intros s. exists (_newImage s).
  destruct r; cbn; now rewrite with_newImage_same.
Qed.

Lemma draws_only_bind (m : M A) (k : A -> M B) :
  draws_only m -> (forall a, draws_only (k a)) -> draws_only (bind m k).
Proof.
  intros Hm Hk s. destruct (Hm s) as [img Himg]. unfold bind.
  destruct (m s) as [a s1 | e s1 | s1]; cbn in Himg; subst s1;
    [| exists img; reflexivity ..].
  destruct (Hk a (with_newImage img s)) as [img' Himg'].
  exists img'. rewrite Himg'. reflexivity.
Qed.

Lemma draws_only_self_bind (k : Screen -> M B) :
  (forall s0, draws_only (k s0)) -> draws_only (bind self k).
Proof. intros Hk s. unfold bind, self. apply Hk. Qed.

Lemma ignores_ret (a : A) : ignores_fontSpaceX (ret a).
Proof. intros n s. reflexivity. Qed.

Lemma ignores_lift (r : Py.exn + A) : ignores_fontSpaceX (lift r).
Proof. intros n s. destruct r; reflexivity. Qed.

Lemma ignores_bind (m : M A) (k : A -> M B) :
  ignores_fontSpaceX m -> (forall a, ignores_fontSpaceX (k a)) ->
  ignores_fontSpaceX (bind m k).
Proof.
  intros Hm Hk n s. unfold bind. rewrite Hm.
  destruct (m s) as [a s1 | e s1 | s1]; cbn; [apply Hk | reflexivity ..].
Qed.

Lemma ignores_self_bind (k : Screen -> M B) :
  (forall s0, ignores_fontSpaceX (k s0)) ->
  (forall n s0, k (with_fontSpaceX n s0) = k s0) ->
  ignores_fontSpaceX (bind self k).
Proof. intros H1 H2 n s. unfold bind, self. rewrite H2. apply H1. Qed.

End Composition.

Lemma draws_only_for_each {A B} (xs : list B) (body : B -> M A) :
  (forall x, draws_only (body x)) -> draws_only (for_each xs body).
Proof.
  intros Hb. induction xs as [| x xs IH]; cbn [for_each].
  - intros s. exists (_newImage s). cbn. now rewrite with_newImage_same.
  - apply draws_only_bind; [apply Hb | intros _; exact IH].
Qed.

Lemma ignores_for_each {A B} (xs : list B) (body : B -> M A) :
  (forall x, ignores_fontSpaceX (body x)) ->
  ignores_fontSpaceX (for_each xs body).
Proof.
  intros Hb. induction xs as [| x xs IH]; cbn [for_each].
  - intros n s. reflexivity.
  - apply ignores_bind; [apply Hb | intros _; exact IH].
Qed.

Lemma draws_only_newImage_get z : draws_only (newImage_get z).
Proof. intros s. unfold newImage_get. apply draws_only_lift. Qed.

Lemma draws_only_newImage_set z v : draws_only (newImage_set z v).
Proof.
  intros s. unfold newImage_set.
  destruct (Py.setitem (_newImage s) z v) as [e | img]; cbn.
  - exists (_newImage s). now rewrite with_newImage_same.
  - exists img. reflexivity.
Qed.

Lemma ignores_newImage_get z : ignores_fontSpaceX (newImage_get z).
Proof.
  intros n s. unfold newImage_get. cbn [_newImage with_fontSpaceX].
  apply ignores_lift.
Qed.

Lemma ignores_newImage_set z v : ignores_fontSpaceX (newImage_set z v).
Proof.
  intros n s. unfold newImage_set. cbn [_newImage with_fontSpaceX].
  destruct (Py.setitem (_newImage s) z v); reflexivity.
Qed.

Ltac compose_steps :=
  cbv zeta;
  repeat lazymatch goal with
    | |- draws_only (bind self _) => apply draws_only_self_bind; intros ?
    | |- draws_only (bind _ _) => apply draws_only_bind; [| intros ?]
    | |- draws_only (for_each _ _) => apply draws_only_for_each; intros ?
    | |- draws_only (ret _) => apply draws_only_ret
    | |- draws_only (lift _) => apply draws_only_lift
    | |- draws_only (newImage_get _) => apply draws_only_newImage_get
    | |- draws_only (newImage_set _ _) => apply draws_only_newImage_set
    | |- ignores_fontSpaceX (bind self _) =>
        apply ignores_self_bind; [intros ? | intros ? ?; reflexivity]
    | |- ignores_fontSpaceX (bind _ _) => apply ignores_bind; [| intros ?]
    | |- ignores_fontSpaceX (for_each _ _) =>
        apply ignores_for_each; intros ?
    | |- ignores_fontSpaceX (ret _) => apply ignores_ret
    | |- ignores_fontSpaceX (lift _) => apply ignores_lift
    | |- ignores_fontSpaceX (newImage_get _) => apply ignores_newImage_get
    | |- ignores_fontSpaceX (newImage_set _ _) =>
        apply ignores_newImage_set
    | |- _ (if ?b then _ else _) => destruct b
    | |- _ (let '(_, _) := ?p in _) => destruct p
    end.

Lemma draws_only_point x y c : draws_only (point x y c).
Proof. unfold point. compose_steps. Qed.

Lemma ignores_point x y c : ignores_fontSpaceX (point x y c).
Proof. unfold point. compose_steps. Qed.

(** ** Text *)

Ltac text_steps :=
  repeat first
    [ apply draws_only_point
    | apply ignores_point
    | progress compose_steps ].

Lemma draws_only_gText t6 t8 t12 x0 y0 text tc bc :
  draws_only (gText t6 t8 t12 x0 y0 text tc bc).
Proof. unfold gText, ord_at, getCharacter, glyph_byte. text_steps. Qed.

Lemma ignores_gText t6 t8 t12 x0 y0 text tc bc :
  ignores_fontSpaceX (gText t6 t8 t12 x0 y0 text tc bc).
Proof. unfold gText, ord_at, getCharacter, glyph_byte. text_steps. Qed.

Lemma bind_self {B} (k : Screen -> M B) s : bind self k s = k s s.
Proof. reflexivity. Qed.

Lemma bind_assoc_ret {A B} (m : M A) (k : M B) s :
  bind (bind m (fun _ => ret tt)) (fun _ => k) s = bind m (fun _ => k) s.
Proof. unfold bind, ret. destruct (m s); reflexivity. Qed.

Lemma for_each_fmap {A B C} (f : C -> B) (xs : list C) (body : B -> M A) s :
  for_each (f <$> xs) body s = for_each xs (fun x => body (f x)) s.
Proof.
  revert s. induction xs as [| x xs IH]; intros s; cbn; [reflexivity |].
  unfold bind. destruct (body (f x) s); auto.
Qed.

Lemma for_each_ext_in {A B} (xs : list B) (f g : B -> M A) :
  (forall x s, x ∈ xs -> f x s = g x s) ->
  forall s, for_each xs f s = for_each xs g s.
Proof.
  induction xs as [| x xs IH]; intros Hfg s; cbn; [reflexivity |].
  unfold bind. rewrite Hfg by left.
  destruct (g x s); auto. apply IH. intros y s' Hy. apply Hfg. now right.
Qed.

Lemma for_each_range_first {A} (n : Z) (body : Z -> M A) s :
  0 <= n ->
  for_each (Py.range 0 (1 + n)) body s
  = bind (body 0) (fun _ => for_each (Py.range 0 n)
                              (fun k => body (1 + k))) s.
Proof.
  intros Hn. unfold Py.range.
  rewrite seqZ_cons by lia. cbn [for_each].
  unfold bind. destruct (body 0 s); try reflexivity.
  replace (Z.succ 0) with (1 + 0) by lia.
  replace (Z.pred (1 + n - 0)) with (n - 0) by lia.
  rewrite <- (fmap_add_seqZ 1 0). apply for_each_fmap.
Qed.

Lemma for_each_ext_range {A} (n : Z) (f g : Z -> M A) :
  (forall k s, 0 <= k < n -> f k s = g k s) ->
  forall s, for_each (Py.range 0 n) f s = for_each (Py.range 0 n) g s.
Proof.
  intros Hfg. apply for_each_ext_in. intros k s Hk. apply Hfg.
  unfold Py.range in Hk. apply elem_of_seqZ in Hk. lia.
Qed.

Lemma ord_at_head ch rest : ord_at (ch :: rest) 0 = ret ch.
Proof.
  unfold ord_at, Py.getitem, Py.index.
  replace (0 <? Z.of_nat (length (ch :: rest))) with true
    by (symmetry; apply Z.ltb_lt; cbn [length]; lia).
  reflexivity.
Qed.

Lemma ord_at_tail ch rest k :
  0 <= k < Z.of_nat (length rest) ->
  ord_at (ch :: rest) (1 + k) = ord_at rest k.
Proof.
  intros Hk. unfold ord_at, Py.getitem, Py.index.
  replace (0 <=? 1 + k) with true by (symmetry; apply Z.leb_le; lia).
  replace (1 + k <? Z.of_nat (length (ch :: rest))) with true
    by (symmetry; apply Z.ltb_lt; cbn [length]; lia).
  replace (0 <=? k) with true by (symmetry; apply Z.leb_le; lia).
  replace (k <? Z.of_nat (length rest)) with true
    by (symmetry; apply Z.ltb_lt; lia).
  cbn [andb]. replace (Z.to_nat (1 + k)) with (S (Z.to_nat k)) by lia.
  reflexivity.
Qed.

Lemma selectFont_font_selected MAX font s :
  font_selected (final (selectFont MAX font s)).
Proof.
  unfold selectFont, bind, assign, self, ret, font_selected.
  destruct (font <? MAX); cbn.
  - destruct (Z.eqb_spec font 0); [cbn; lia |].
    destruct (Z.eqb_spec font 1); [cbn; lia |].
    destruct (Z.eqb_spec font 2); [cbn; lia |].
    destruct (Z.eqb_spec font 3); cbn; lia.
  - destruct (Z.eqb_spec (MAX - 1) 0); [cbn; lia |].
    destruct (Z.eqb_spec (MAX - 1) 1); [cbn; lia |].
    destruct (Z.eqb_spec (MAX - 1) 2); [cbn; lia |].
    destruct (Z.eqb_spec (MAX - 1) 3); cbn; lia.
Qed.

Lemma bind_bind_self {A B} (k1 : Screen -> M A) (k : A -> M B) s :
  bind (bind self k1) k s = bind (k1 s) k s.
Proof. reflexivity. Qed.

Lemma bind_cong_draws {A B} (m : M A) (k k' : A -> M B) s :
  draws_only m ->
  (forall a img, k a (with_newImage img s) = k' a (with_newImage img s)) ->
  bind m k s = bind m k' s.
Proof.
  intros Hm Hk. destruct (Hm s) as [img Himg]. unfold bind.
  destruct (m s) as [a s1 | e s1 | s1]; cbn in Himg; subst; auto.
Qed.

(** One branch of [gText]: the selector is [Hfs], the stride [w]. *)
Ltac stride_branch Hfs w x0 :=
  unfold gText at 1; rewrite bind_self, Hfs; cbn [Z.eqb Pos.eqb];
  match goal with
  | |- context [Z.of_nat (length (?ch :: ?rest))] =>
      replace (Z.of_nat (length (ch :: rest)))
        with (1 + Z.of_nat (length rest)) by (cbn [length]; lia)
  end;
  rewrite for_each_range_first by lia;
  rewrite ord_at_head;
  unfold gText at 1; rewrite bind_bind_self, Hfs; cbn [Z.eqb Pos.eqb];
  match goal with
  | |- context [Py.range 0 (Z.of_nat (length [?ch]))] =>
      change (Py.range 0 (Z.of_nat (length [ch]))) with [0]
  end;
  cbn [for_each]; rewrite ord_at_head, bind_assoc_ret;
  apply bind_cong_draws;
  [ unfold getCharacter, glyph_byte; text_steps
  | intros _ img; unfold gText; rewrite bind_self;
    cbn [_fontSize with_newImage]; rewrite Hfs; cbn [Z.eqb Pos.eqb];
    apply for_each_ext_range; intros k s' Hk;
    rewrite ord_at_tail by lia;
    replace (x0 + w * (1 + k)) with (x0 + w + w * k) by lia;
    reflexivity ].

Lemma gText_stride t6 t8 t12 x0 y0 ch rest tc bc s :
  font_selected s ->
  gText t6 t8 t12 x0 y0 (ch :: rest) tc bc s
  = bind (gText t6 t8 t12 x0 y0 [ch] tc bc)
         (fun _ => gText t6 t8 t12 (x0 + font_maxWidth (_font s)) y0 rest
                     tc bc) s.
Proof.
  intros (H0 & H1 & H2).
  destruct (Z.eq_dec (_fontSize s) 0) as [Hfs | Hn0];
    [rewrite (H0 Hfs); stride_branch Hfs 6 x0 |].
  destruct (Z.eq_dec (_fontSize s) 1) as [Hfs | Hn1];
    [rewrite (H1 Hfs); stride_branch Hfs 8 x0 |].
  destruct (Z.eq_dec (_fontSize s) 2) as [Hfs | Hn2];
    [rewrite (H2 Hfs); stride_branch Hfs 12 x0 |].
  unfold gText, bind, self.
  destruct (Z.eqb_spec (_fontSize s) 0); [contradiction |].
  destruct (Z.eqb_spec (_fontSize s) 1); [contradiction |].
  destruct (Z.eqb_spec (_fontSize s) 2); [contradiction |].
  cbn. destruct (Z.eqb_spec (_fontSize s) 0); [contradiction |].
  destruct (Z.eqb_spec (_fontSize s) 1); [contradiction |].
  destruct (Z.eqb_spec (_fontSize s) 2); [contradiction |].
  reflexivity.
Qed.

(** C8. Two runs of [gText] that differ only in the value given to
    [setFontSpaceX] end alike - same return or exception, same planes,
    same everything but the stored spacing itself; [characterSizeX]
    reports [maxWidth + fontSpaceX]; and once a font is selected, drawing
    a text is drawing its first character and then the rest one
    [maxWidth] further right. *)
Theorem gText_ignores_fontSpaceX :
  forall (MAX_FONT_SIZE : Z) (t6 t8 t12 : list (list Z)) (s : Screen)
         (a b x0 y0 : Z) (text : list Z) (tc bc ch font : Z)
         (rest : list Z),
    let run n := (setFontSpaceX n ;; gText t6 t8 t12 x0 y0 text tc bc) s in
    let s1 := final (selectFont MAX_FONT_SIZE font s) in
    run a = outcome_map (with_fontSpaceX a) (run b)
    /\ _newImage (final (run a)) = _newImage (final (run b))
    /\ (setFontSpaceX a ;; characterSizeX ch) s
       = Return (font_maxWidth (_font s) + a) (with_fontSpaceX a s)
    /\ gText t6 t8 t12 x0 y0 (ch :: rest) tc bc s1
       = (gText t6 t8 t12 x0 y0 [ch] tc bc ;;
          gText t6 t8 t12 (x0 + font_maxWidth (_font s1)) y0 rest tc bc) s1.
Proof.
  intros MAX t6 t8 t12 s a b x0 y0 text tc bc ch font rest run s1.
  assert (Hrun : forall n,
            run n = outcome_map (with_fontSpaceX n)
                      (gText t6 t8 t12 x0 y0 text tc bc s)).
  { intros n. subst run. cbv beta. unfold bind at 1.
    unfold setFontSpaceX, assign. apply ignores_gText. }
  assert (Hab : run a = outcome_map (with_fontSpaceX a) (run b)).
  { rewrite (Hrun a), (Hrun b).
    destruct (gText t6 t8 t12 x0 y0 text tc bc s); reflexivity. }
  split; [exact Hab |]. split; [| split].
  - rewrite Hab. destruct (run b); reflexivity.
  - reflexivity.
  - apply gText_stride. apply selectFont_font_selected.
Qed.

(** ** Pixels under [point] *)

Lemma testbit_bitSet b t1 t :
  0 <= t1 -> 0 <= t ->
  Z.testbit (bitSet b t1) t = Z.testbit b t || (t1 =? t).
Proof.
  intros H1 H. unfold bitSet.
  rewrite Z.lor_spec, Z.shiftl_1_l, Z.pow2_bits_eqb by lia. reflexivity.
Qed.

Lemma testbit_bitClear b t1 t :
  0 <= t1 -> 0 <= t ->
  Z.testbit (bitClear b t1) t = Z.testbit b t && negb (t1 =? t).
Proof.
  intros H1 H. unfold bitClear.
  rewrite Z.land_spec, Z.lnot_spec, Z.shiftl_1_l, Z.pow2_bits_eqb by lia.
  reflexivity.
Qed.

Lemma getZT_bit_range s x1 y1 : 0 <= snd (getZT s x1 y1) <= 7.
Proof.
  unfold getZT. cbn [snd].
  pose proof (Z.mod_pos_bound y1 8 ltac:(lia)). lia.
Qed.

Lemma index_length_insert (img : list Z) n v z :
  Py.index (Z.of_nat (length (<[n := v]> img))) z
  = Py.index (Z.of_nat (length img)) z.
Proof. now rewrite length_insert. Qed.

Lemma index_lt len z n : Py.index len z = Some n -> Z.of_nat n < len.
Proof.
  unfold Py.index.
  destruct (Z.leb_spec 0 z); destruct (Z.ltb_spec z len); cbn;
    try (intros [= <-]; lia).
  all: destruct (Z.leb_spec (- len) z); destruct (Z.ltb_spec z 0); cbn;
    try discriminate; intros [= <-]; lia.
Qed.

Lemma getitem_index {A} (img : list A) z n :
  Py.index (Z.of_nat (length img)) z = Some n ->
  exists b, img !! n = Some b /\ Py.getitem img z = inr b.
Proof.
  intros Hi. pose proof (index_lt _ _ _ Hi) as Hlt.
  destruct (lookup_lt_is_Some_2 img n ltac:(lia)) as [b Hb].
  exists b. split; [exact Hb |]. unfold Py.getitem. now rewrite Hi, Hb.
Qed.

(** Replacing one item: a bit of the plane keeps its value unless it
    lives in the replaced item. *)
Lemma bit_at_setitem (img img' : list Z) z1 b1 v z t :
  Py.getitem img z1 = inr b1 ->
  Py.setitem img z1 v = inr img' ->
  bit_at img' z t = bit_at img z t
  \/ (bit_at img' z t = Some (Z.testbit v t)
      /\ bit_at img z t = Some (Z.testbit b1 t)
      /\ Py.index (Z.of_nat (length img)) z
         = Py.index (Z.of_nat (length img)) z1).
Proof.
  unfold Py.getitem, Py.setitem, bit_at.
  destruct (Py.index (Z.of_nat (length img)) z1) as [n1 |] eqn:Hi1;
    [| discriminate].
  destruct (getitem_index img z1 n1 Hi1) as (b & Hb & _). rewrite Hb.
  intros [= <-].
  destruct ((0 <=? v) && (v <? 256)); [| discriminate].
  intros [= <-]. unfold Py.getitem. rewrite index_length_insert.
  destruct (Py.index (Z.of_nat (length img)) z) as [n |] eqn:Hi;
    [| left; reflexivity].
  destruct (getitem_index img z n Hi) as (bz & Hbz & _). rewrite Hbz.
  destruct (Nat.eq_dec n1 n) as [-> | Hne].
  - right. rewrite list_lookup_insert_eq by (eapply lookup_lt_Some; eauto).
    repeat split; congruence.
  - left. rewrite list_lookup_insert_ne by exact Hne. now rewrite Hbz.
Qed.

Lemma bit_at_setitem_same (img img' : list Z) z1 v t :
  Py.setitem img z1 v = inr img' ->
  bit_at img' z1 t = Some (Z.testbit v t).
Proof.
  unfold Py.setitem, bit_at.
  destruct (Py.index (Z.of_nat (length img)) z1) as [n1 |] eqn:Hi1;
    [| discriminate].
  destruct ((0 <=? v) && (v <? 256)); [| discriminate].
  intros [= <-]. unfold Py.getitem. rewrite index_length_insert, Hi1.
  pose proof (index_lt _ _ _ Hi1).
  rewrite list_lookup_insert_eq by lia. reflexivity.
Qed.

Lemma index_nonneg_inj len z z1 :
  0 <= z -> 0 <= z1 -> Py.index len z1 <> None ->
  Py.index len z = Py.index len z1 -> z = z1.
Proof.
  unfold Py.index. intros Hz Hz1.
  destruct (Z.leb_spec 0 z); [| lia]. destruct (Z.leb_spec 0 z1); [| lia].
  destruct (Z.ltb_spec z1 0); [lia |].
  destruct (Z.ltb_spec z 0); [lia |].
  rewrite !andb_false_r. cbn [andb].
  destruct (Z.ltb_spec z len); destruct (Z.ltb_spec z1 len);
    try congruence.
  intros _ [= Heq]. lia.
Qed.

Lemma pixel_bit_eq s x y :
  pixel_bit s x y
  = let '(flag, x1, y1) := orientCoordinates s x y in
    if flag then None
    else bit_at (_newImage s) (fst (getZT s x1 y1)) (snd (getZT s x1 y1)).
Proof.
  unfold pixel_bit, bit_at. destruct (orientCoordinates s x y) as [[f x1] y1].
  destruct f; reflexivity.
Qed.

(** What a returning [point] did: nothing, or one bit of one item. *)
Lemma point_cases s x y c r s' :
  point x y c s = Return r s' ->
  (s' = s
   /\ (rejected s x y = false -> ~ (c = Colour.BLACK \/ c = Colour.WHITE)))
  \/ exists x1 y1 b img' (set : bool),
       orientCoordinates s x y = (false, x1, y1)
       /\ Py.getitem (_newImage s) (fst (getZT s x1 y1)) = inr b
       /\ Py.setitem (_newImage s) (fst (getZT s x1 y1))
            (if set then bitSet b (snd (getZT s x1 y1))
             else bitClear b (snd (getZT s x1 y1))) = inr img'
       /\ s' = with_newImage img' s
       /\ (c = Colour.BLACK \/ c = Colour.WHITE -> set = ink s c).
Proof.
  unfold point, rejected. rewrite bind_self.
  destruct (orientCoordinates s x y) as [[flag x1] y1] eqn:Ho.
  destruct flag; [intros [= _ <-]; left; split; [reflexivity | discriminate] |].
  destruct (getZT s x1 y1) as [z1 t1] eqn:Hzt. cbv zeta.
  set (c' := if c =? Colour.GREY then _ else c).
  assert (Hc' : c = Colour.BLACK \/ c = Colour.WHITE -> c' = c).
  { subst c'. intros [-> | ->]; reflexivity. }
  unfold ink.
  destruct (xorb (c' =? Colour.WHITE) (_invert s)) eqn:Hw;
    [| destruct (xorb (c' =? Colour.BLACK) (_invert s)) eqn:Hb].
  - unfold bind, newImage_get, newImage_set, lift, ret, raise.
    destruct (Py.getitem (_newImage s) z1) as [e | b] eqn:Hg;
      [discriminate |].
    destruct (Py.setitem (_newImage s) z1 (bitClear b t1)) as [e | img']
      eqn:Hs; [discriminate |].
    intros [= _ <-]. right. exists x1, y1, b, img', false. rewrite Hzt. cbn [fst snd].
    do 4 (split; [first [assumption | reflexivity] |]).
    intros Hc. rewrite <- (Hc' Hc), Hw. reflexivity.
  - unfold bind, newImage_get, newImage_set, lift, ret, raise.
    destruct (Py.getitem (_newImage s) z1) as [e | b] eqn:Hg;
      [discriminate |].
    destruct (Py.setitem (_newImage s) z1 (bitSet b t1)) as [e | img']
      eqn:Hs; [discriminate |].
    intros [= _ <-]. right. exists x1, y1, b, img', true. rewrite Hzt. cbn [fst snd].
    do 4 (split; [first [assumption | reflexivity] |]).
    intros Hc. rewrite <- (Hc' Hc), Hw. reflexivity.
  - intros [= _ <-]. left. split; [reflexivity |].
    intros _ Hc. specialize (Hc' Hc). rewrite Hc' in Hw, Hb.
    destruct Hc as [-> | ->]; destruct (_invert s); discriminate.
Qed.

(** With BLACK or WHITE an accepted coordinate is always written. *)
Lemma point_written s x y c r s' :
  c = Colour.BLACK \/ c = Colour.WHITE ->
  rejected s x y = false ->
  point x y c s = Return r s' ->
  pixel_bit s' x y = Some (ink s c).
Proof.
  intros Hc Hacc Hp.
  destruct (point_cases _ _ _ _ _ _ Hp)
    as [[_ Hno] | (x1 & y1 & b & img' & set & Ho & Hg & Hs & -> & Hset)].
  { exfalso. exact (Hno Hacc Hc). }
  rewrite pixel_bit_eq.
  change (orientCoordinates (with_newImage img' s) x y)
    with (orientCoordinates s x y).
  rewrite Ho.
  change (getZT (with_newImage img' s) x1 y1) with (getZT s x1 y1).
  cbn [_newImage with_newImage].
  rewrite (bit_at_setitem_same _ _ _ _ _ Hs). f_equal.
  pose proof (getZT_bit_range s x1 y1) as Ht.
  rewrite <- (Hset Hc).
  destruct set.
  - rewrite testbit_bitSet, Z.eqb_refl by lia. apply orb_true_r.
  - rewrite testbit_bitClear, Z.eqb_refl by lia. apply andb_false_r.
Qed.

(** A pixel that already shows the ink of [c] keeps it under any further
    [point] in colour [c], whatever bit that call addresses. *)
Lemma point_keeps_ink s a b c r s' x y :
  c = Colour.BLACK \/ c = Colour.WHITE ->
  point a b c s = Return r s' ->
  pixel_bit s x y = Some (ink s c) ->
  pixel_bit s' x y = Some (ink s c).
Proof.
  intros Hc Hp Hpix.
  destruct (point_cases _ _ _ _ _ _ Hp)
    as [[-> _] | (a1 & b1 & b0 & img' & set & Ho & Hg & Hs & -> & Hset)];
    [exact Hpix |].
  rewrite pixel_bit_eq in Hpix |- *.
  change (orientCoordinates (with_newImage img' s) x y)
    with (orientCoordinates s x y).
  destruct (orientCoordinates s x y) as [[flag x1] y1].
  destruct flag; [discriminate |].
  change (getZT (with_newImage img' s) x1 y1) with (getZT s x1 y1).
  cbn [_newImage with_newImage].
  pose proof (getZT_bit_range s x1 y1) as Ht.
  pose proof (getZT_bit_range s a1 b1) as Ht1.
  set (t := snd (getZT s x1 y1)) in *.
  set (t1 := snd (getZT s a1 b1)) in *.
  destruct (bit_at_setitem _ _ _ _ _ (fst (getZT s x1 y1)) t Hg Hs)
    as [-> | (-> & Hold & _)]; [exact Hpix |].
  rewrite Hold in Hpix. injection Hpix as Hpix. f_equal.
  rewrite <- (Hset Hc) in *.
  destruct set.
  - rewrite testbit_bitSet, Hpix by lia. reflexivity.
  - rewrite testbit_bitClear, Hpix by lia. reflexivity.
Qed.



(** ** Rectangles *)

Lemma rectangle_solid x1 y1 x2 y2 c s :
  _penSolid s = true ->
  rectangle x1 y1 x2 y2 c s
  = for_each (Py.range (Z.min x1 x2) (Z.max x1 x2 + 1)) (fun x =>
      for_each (Py.range (Z.min y1 y2) (Z.max y1 y2 + 1)) (fun y =>
        point x y c)) s.
Proof.
  intros Hpen. unfold rectangle. rewrite bind_self, Hpen. cbn [negb].
  destruct (Z.gtb_spec x1 x2); destruct (Z.gtb_spec y1 y2);
    match goal with
    | |- for_each (Py.range ?a (?b + 1))
           (fun x => for_each (Py.range ?c (?d + 1)) _) _ = _ =>
        replace (Z.min x1 x2) with a by lia;
        replace (Z.max x1 x2) with b by lia;
        replace (Z.min y1 y2) with c by lia;
        replace (Z.max y1 y2) with d by lia
    end; reflexivity.
Qed.

Lemma rectangle_outline x1 y1 x2 y2 c s :
  _penSolid s = false ->
  rectangle x1 y1 x2 y2 c s
  = (line x1 y1 x1 y2 c ;; line x1 y1 x2 y1 c ;;
     line x1 y2 x2 y2 c ;; line x2 y1 x2 y2 c) s.
Proof. intros Hpen. unfold rectangle. rewrite bind_self, Hpen. reflexivity. Qed.

(** ** Loops of points *)

Lemma for_each_preserve {A B} (I : Screen -> Prop) (xs : list B)
    (body : B -> M A) :
  (forall a s r s', a ∈ xs -> I s -> body a s = Return r s' -> I s') ->
  forall s r s', I s -> for_each xs body s = Return r s' -> I s'.
Proof.
  induction xs as [| a xs IH]; intros Hbody s r s' HI; cbn [for_each].
  - intros [= _ <-]. exact HI.
  - unfold bind. destruct (body a s) as [ra s1 | |] eqn:Ha; try discriminate.
    apply IH.
    + intros a' s2 r2 s2' Hin. apply Hbody. now right.
    + eapply Hbody; [left | exact HI | exact Ha].
Qed.

Lemma for_each_establish {A B} (J I : Screen -> Prop) (xs : list B)
    (body : B -> M A) (a0 : B) :
  a0 ∈ xs ->
  (forall a s r s', J s -> body a s = Return r s' -> J s') ->
  (forall s r s', J s -> body a0 s = Return r s' -> I s') ->
  (forall a s r s', I s -> body a s = Return r s' -> I s') ->
  forall s r s', J s -> for_each xs body s = Return r s' -> I s'.
Proof.
  intros Hin HJ Hest HI.
  induction xs as [| a xs IH]; [inversion Hin |].
  intros s r s' HJs. cbn [for_each]. unfold bind.
  destruct (body a s) as [ra s1 | |] eqn:Ha; try discriminate.
  apply elem_of_cons in Hin. destruct Hin as [<- | Hin].
  - apply (for_each_preserve I); [| eapply Hest; eauto].
    intros a' s2 r2 s2' _. apply HI.
  - apply IH; [exact Hin | eapply HJ; eauto].
Qed.

Lemma elem_of_range a b x : x ∈ Py.range a b <-> a <= x < b.
Proof. unfold Py.range. rewrite elem_of_seqZ. lia. Qed.

Lemma draws_only_Return {A} (m : M A) s r s' :
  draws_only m -> m s = Return r s' -> exists img, s' = with_newImage img s.
Proof. intros Hm Hr. destruct (Hm s) as [img Himg]. rewrite Hr in Himg. eauto. Qed.

Lemma redrawn_point s0 s a b c r s' :
  redrawn s0 s -> point a b c s = Return r s' -> redrawn s0 s'.
Proof.
  intros [img ->] Hp.
  destruct (draws_only_Return _ _ _ _ (draws_only_point a b c) Hp)
    as [img' ->].
  exists img'. reflexivity.
Qed.

(** The solid half of C6, on the pixels: after a solid rectangle in
    BLACK or WHITE returns, every accepted coordinate of the normalized
    range shows that colour's ink. *)
Lemma rectangle_solid_pixels s x1 y1 x2 y2 c s' x y :
  _penSolid s = true ->
  c = Colour.BLACK \/ c = Colour.WHITE ->
  rectangle x1 y1 x2 y2 c s = Return tt s' ->
  Z.min x1 x2 <= x <= Z.max x1 x2 ->
  Z.min y1 y2 <= y <= Z.max y1 y2 ->
  rejected s x y = false ->
  pixel_bit s' x y = Some (ink s c).
Proof.
  intros Hpen Hc Hrect Hx Hy Hacc. rewrite rectangle_solid in Hrect by exact Hpen.
  set (J := redrawn s).
  set (I := fun s1 => redrawn s s1 /\ pixel_bit s1 x y = Some (ink s c)).
  assert (HIpoint : forall a b s1 r s1',
             I s1 -> point a b c s1 = Return r s1' -> I s1').
  { intros a b s1 r s1' [Hred Hpix] Hp. split;
      [eapply redrawn_point; eauto |].
    destruct Hred as [img ->].
    exact (point_keeps_ink _ _ _ _ _ _ _ _ Hc Hp Hpix). }
  assert (HJpoint : forall a b s1 r s1',
             J s1 -> point a b c s1 = Return r s1' -> J s1').
  { intros a b s1 r s1' Hred Hp. eapply redrawn_point; eauto. }
  refine (proj2 (for_each_establish J I _ _ x _ _ _ _ s tt s' _ Hrect)).
  - apply elem_of_range. lia.
  - intros a s1 r s1' HJ1. apply (for_each_preserve J); [| exact HJ1].
    intros b s2 r2 s2' _. apply HJpoint.
  - intros s1 r s1' HJ1.
    apply (for_each_establish J I _ _ y); [apply elem_of_range; lia | ..].
    + intros b. apply HJpoint.
    + intros s2 r2 s2' HJ2 Hp. split; [eapply redrawn_point; eauto |].
      destruct HJ2 as [img ->].
      exact (point_written (with_newImage img s) _ _ _ _ _ Hc Hacc Hp).
    + intros b. apply HIpoint.
    + exact HJ1.
  - intros a s1 r s1' HI1. apply (for_each_preserve I); [| exact HI1].
    intros b s2 r2 s2' _. apply HIpoint.
  - exists (_newImage s). symmetry. apply with_newImage_same.
Qed.

(** ** Pixels on the screen *)

Ltac orient_cases s :=
  unfold orientCoordinates;
  destruct (_orientation s =? 3);
    [| destruct (_orientation s =? 2); [| destruct (_orientation s =? 1)]];
  repeat match goal with
    | |- context [?a <? ?b] => destruct (Z.ltb_spec a b)
    end; cbn [andb].

Lemma accepted_on_screen s x y x1 y1 :
  0 <= x -> 0 <= y ->
  orientCoordinates s x y = (false, x1, y1) ->
  0 <= x1 /\ 0 <= y1 < _screenSizeH s.
Proof.
  intros Hx Hy. orient_cases s; intros [= <- <-]; lia.
Qed.

Lemma accepted_injective s x y a b x1 y1 :
  orientCoordinates s x y = (false, x1, y1) ->
  orientCoordinates s a b = (false, x1, y1) ->
  a = x /\ b = y.
Proof.
  orient_cases s; intros [= <- <-]; try discriminate; intros [= Eq1 Eq2]; lia.
Qed.

Lemma getZT_injective s x1 y1 a1 b1 :
  byte_aligned s ->
  0 <= x1 -> 0 <= y1 < _screenSizeH s ->
  0 <= a1 -> 0 <= b1 < _screenSizeH s ->
  getZT s x1 y1 = getZT s a1 b1 ->
  x1 = a1 /\ y1 = b1.
Proof.
  unfold byte_aligned, getZT. intros Hal Hx Hy Ha Hb [= Hz Ht].
  rewrite !Z.shiftr_div_pow2 in Hz by lia. change (2 ^ 3) with 8 in Hz.
  pose proof (Z.div_mod y1 8 ltac:(lia)) as Ey.
  pose proof (Z.div_mod b1 8 ltac:(lia)) as Eb.
  pose proof (Z.mod_pos_bound y1 8 ltac:(lia)).
  pose proof (Z.mod_pos_bound b1 8 ltac:(lia)).
  assert (0 <= y1 / 8 < _bufferSizeH s) by
    (split; [apply Z.div_pos; lia | apply Z.div_lt_upper_bound; lia]).
  assert (0 <= b1 / 8 < _bufferSizeH s) by
    (split; [apply Z.div_pos; lia | apply Z.div_lt_upper_bound; lia]).
  assert (x1 = a1) by nia.
  subst a1. split; [reflexivity |]. lia.
Qed.

Lemma getZT_item_nonneg s x1 y1 :
  byte_aligned s -> 0 <= x1 -> 0 <= y1 < _screenSizeH s ->
  0 <= fst (getZT s x1 y1).
Proof.
  unfold byte_aligned, getZT. intros Hal Hx Hy. cbn [fst].
  rewrite Z.shiftr_div_pow2 by lia.
  assert (0 <= y1 / 2 ^ 3) by (apply Z.div_pos; lia). nia.
Qed.

(** On such a screen, drawing at a non-negative coordinate leaves every
    other non-negative coordinate's pixel as it was. *)
Lemma point_other_pixel s a b c r s' x y :
  byte_aligned s ->
  0 <= a -> 0 <= b -> 0 <= x -> 0 <= y ->
  (a, b) <> (x, y) ->
  point a b c s = Return r s' ->
  pixel_bit s' x y = pixel_bit s x y.
Proof.
  intros Hal Ha Hb Hx Hy Hne Hp.
  destruct (point_cases _ _ _ _ _ _ Hp)
    as [[-> _] | (a1 & b1 & b0 & img' & set & Ho & Hg & Hs & -> & _)];
    [reflexivity |].
  rewrite !pixel_bit_eq.
  change (orientCoordinates (with_newImage img' s) x y)
    with (orientCoordinates s x y).
  destruct (orientCoordinates s x y) as [[flag x1] y1] eqn:Hox.
  destruct flag; [reflexivity |].
  change (getZT (with_newImage img' s) x1 y1) with (getZT s x1 y1).
  cbn [_newImage with_newImage].
  destruct (accepted_on_screen _ _ _ _ _ Ha Hb Ho) as [Ha1 Hb1].
  destruct (accepted_on_screen _ _ _ _ _ Hx Hy Hox) as [Hx1 Hy1].
  pose proof (getZT_bit_range s x1 y1) as Ht.
  pose proof (getZT_bit_range s a1 b1) as Ht1.
  pose proof (getZT_item_nonneg s x1 y1 Hal Hx1 Hy1) as Hz.
  pose proof (getZT_item_nonneg s a1 b1 Hal Ha1 Hb1) as Hz1.
  destruct (bit_at_setitem _ _ _ _ _ (fst (getZT s x1 y1))
              (snd (getZT s x1 y1)) Hg Hs) as [-> | (-> & -> & Hidx)];
    [reflexivity |].
  f_equal.
  apply index_nonneg_inj in Hidx; [| lia | lia |].
  2:{ unfold Py.getitem in Hg.
      destruct (Py.index _ (fst (getZT s a1 b1))); [discriminate |].
      discriminate Hg. }
  assert (Hbits : snd (getZT s a1 b1) <> snd (getZT s x1 y1)).
  { intros Hbit.
    destruct (getZT_injective s x1 y1 a1 b1 Hal Hx1 Hy1 Ha1 Hb1) as [-> ->].
    { destruct (getZT s x1 y1), (getZT s a1 b1). cbn in *. congruence. }
    destruct (accepted_injective _ _ _ _ _ _ _ Hox Ho) as [-> ->].
    now apply Hne. }
  destruct set.
  - rewrite testbit_bitSet by lia.
    destruct (Z.eqb_spec (snd (getZT s a1 b1)) (snd (getZT s x1 y1)));
      [contradiction | apply orb_false_r].
  - rewrite testbit_bitClear by lia.
    destruct (Z.eqb_spec (snd (getZT s a1 b1)) (snd (getZT s x1 y1)));
      [contradiction | apply andb_true_r].
Qed.

(** ** Border lines *)

Lemma range_single a : Py.range a (a + 1) = [a].
Proof.
  unfold Py.range. replace (a + 1 - a) with 1 by lia.
  rewrite seqZ_cons by lia. now rewrite seqZ_nil by lia.
Qed.

Lemma line_vertical x ya yb c s :
  line x ya x yb c s
  = for_each (Py.range (Z.min ya yb) (Z.max ya yb + 1))
      (fun y => point x y c) s.
Proof.
  unfold line. rewrite Z.eqb_refl. cbn [andb].
  destruct (Z.eqb_spec ya yb) as [-> | Hne].
  - rewrite Z.min_id, Z.max_id, range_single. reflexivity.
  - destruct (Z.gtb_spec ya yb).
    + replace (Z.min ya yb) with yb by lia.
      replace (Z.max ya yb) with ya by lia. reflexivity.
    + replace (Z.min ya yb) with ya by lia.
      replace (Z.max ya yb) with yb by lia. reflexivity.
Qed.

Lemma line_horizontal xa y xb c s :
  line xa y xb y c s
  = for_each (Py.range (Z.min xa xb) (Z.max xa xb + 1))
      (fun x => point x y c) s.
Proof.
  unfold line. rewrite Z.eqb_refl, andb_true_r.
  destruct (Z.eqb_spec xa xb) as [-> | Hne].
  - rewrite Z.min_id, Z.max_id, range_single. reflexivity.
  - destruct (Z.gtb_spec xa xb).
    + replace (Z.min xa xb) with xb by lia.
      replace (Z.max xa xb) with xa by lia. reflexivity.
    + replace (Z.min xa xb) with xa by lia.
      replace (Z.max xa xb) with xb by lia. reflexivity.
Qed.

Lemma bind_Return_inv {A B} (m : M A) (k : A -> M B) s r s' :
  bind m k s = Return r s' ->
  exists a s1, m s = Return a s1 /\ k a s1 = Return r s'.
Proof.
  unfold bind. destruct (m s) as [a s1 | |]; try discriminate. eauto.
Qed.

(** The outline half of C6 where it holds: on a byte-aligned screen, an
    outline rectangle with non-negative corners that returns leaves every
    pixel strictly inside it as it was. *)
Lemma rectangle_outline_interior_on_screen s x1 y1 x2 y2 c s' x y :
  _penSolid s = false ->
  byte_aligned s ->
  0 <= x1 -> 0 <= y1 -> 0 <= x2 -> 0 <= y2 ->
  rectangle x1 y1 x2 y2 c s = Return tt s' ->
  Z.min x1 x2 < x < Z.max x1 x2 ->
  Z.min y1 y2 < y < Z.max y1 y2 ->
  pixel_bit s' x y = pixel_bit s x y.
Proof.
  intros Hpen Hal Hx1 Hy1 Hx2 Hy2 Hrect Hx Hy.
  rewrite rectangle_outline in Hrect by exact Hpen.
  assert (Hx0 : 0 <= x) by lia. assert (Hy0 : 0 <= y) by lia.
  set (I := fun s1 => redrawn s s1 /\ pixel_bit s1 x y = pixel_bit s x y).
  assert (Hpoint : forall a b s1 r s1',
             0 <= a -> 0 <= b -> (a, b) <> (x, y) ->
             I s1 -> point a b c s1 = Return r s1' -> I s1').
  { intros a b s1 r s1' Ha Hb Hne [Hred Hpix] Hp.
    split; [eapply redrawn_point; eauto |].
    rewrite <- Hpix. destruct Hred as [img ->].
    exact (point_other_pixel (with_newImage img s) _ _ _ _ _ _ _
             Hal Ha Hb Hx0 Hy0 Hne Hp). }
  assert (Hvert : forall xa s1 r s1',
             0 <= xa -> xa <> x -> I s1 ->
             line xa y1 xa y2 c s1 = Return r s1' -> I s1').
  { intros xa s1 r s1' Hxa Hne HI1. rewrite line_vertical.
    apply (for_each_preserve I); [| exact HI1].
    intros b s2 r2 s2' Hb%elem_of_range.
    apply Hpoint; [lia | lia | congruence]. }
  assert (Hhoriz : forall ya s1 r s1',
             0 <= ya -> ya <> y -> I s1 ->
             line x1 ya x2 ya c s1 = Return r s1' -> I s1').
  { intros ya s1 r s1' Hya Hne HI1. rewrite line_horizontal.
    apply (for_each_preserve I); [| exact HI1].
    intros a s2 r2 s2' Ha%elem_of_range.
    apply Hpoint; [lia | lia | congruence]. }
  apply bind_Return_inv in Hrect. destruct Hrect as (r1 & s1 & Hl1 & Hrect).
  apply bind_Return_inv in Hrect. destruct Hrect as (r2 & s2 & Hl2 & Hrect).
  apply bind_Return_inv in Hrect. destruct Hrect as (r3 & s3 & Hl3 & Hl4).
  assert (HI0 : I s).
  { split; [| reflexivity]. exists (_newImage s). symmetry.
    apply with_newImage_same. }
  apply (Hvert x1 _ _ _ Hx1 ltac:(lia)) in Hl1; [| exact HI0].
  apply (Hhoriz y1 _ _ _ Hy1 ltac:(lia)) in Hl2; [| exact Hl1].
  apply (Hhoriz y2 _ _ _ Hy2 ltac:(lia)) in Hl3; [| exact Hl2].
  apply (Hvert x2 _ _ _ Hx2 ltac:(lia)) in Hl4; [| exact Hl3].
  exact (proj2 Hl4).
Qed.

(** The instance used by C6 is outside this lemma only by its negative
    corner. *)
Lemma byte_aligned_init font_s line V H s :
  H mod 8 = 0 -> init font_s line V H = inr s -> byte_aligned s.
Proof.
  intros Hm. unfold init.
  destruct (Py.bytearray (V * Z.shiftr H 3)); [discriminate |].
  intros [= <-]. unfold byte_aligned. cbn.
  rewrite Z.shiftr_div_pow2 by lia. change (2 ^ 3) with 8.
  pose proof (Z.div_mod H 8 ltac:(lia)). lia.
Qed.

(** C6 (the code departs from it). On a fresh 2 x 8 panel, orientation 0,
    outline pen, [rectangle(-8,-1,1,1,BLACK)] returns; pixel (0,0) lies
    strictly inside the rectangle, is accepted by the mapper and was
    white, yet it is black afterwards: the border coordinate (-8,1)
    passes the upper-bound-only check and addresses the same bit. *)
Theorem rectangle_outline_interior_changed :
  exists s0 s1,
    init font_6x8 always_ready 2 8 = inr s0
    /\ _penSolid s0 = false
    /\ rectangle (-8) (-1) 1 1 Colour.BLACK s0 = Return tt s1
    /\ (-8 < 0 < 1 /\ -1 < 0 < 1)
    /\ pixel_bit s0 0 0 = Some false
    /\ pixel_bit s1 0 0 = Some true
    /\ rejected s0 (-8) 1 = false
    /\ (let '(_, x, y) := orientCoordinates s0 (-8) 1 in getZT s0 x y)
       = (let '(_, x, y) := orientCoordinates s0 0 0 in getZT s0 x y).
Proof.
  eexists. eexists.
  split; [vm_compute; reflexivity |].
  split; [reflexivity |].
  split; [vm_compute; reflexivity |].
  split; [lia |].
  repeat split; vm_compute; reflexivity.
Qed.

(** * Further properties *)

(** ** Invariants through method bodies *)

Section Keeps.

Context {A B : Type} (P : Screen -> Prop).

Lemma keeps_ret (a : A) : keeps P (ret a).
Proof. intros s Hs. exact Hs. Qed.

Lemma keeps_lift (r : Py.exn + A) : keeps P (lift r).
Proof. intros s Hs. destruct r; exact Hs. Qed.

Lemma keeps_bind (m : M A) (k : A -> M B) :
  keeps P m -> (forall a, keeps P (k a)) -> keeps P (bind m k).
Proof.
  intros Hm Hk s Hs. specialize (Hm s Hs). unfold bind.
  destruct (m s) as [a s1 | e s1 | s1]; cbn in Hm |- *;
    [apply Hk; exact Hm | exact Hm ..].
Qed.

Lemma keeps_self_bind (k : Screen -> M B) :
  (forall s0, keeps P (k s0)) -> keeps P (bind self k).
Proof. intros Hk s Hs. unfold bind, self. apply Hk, Hs. Qed.

End Keeps.

Lemma keeps_for_each {A B} (P : Screen -> Prop) (xs : list B)
    (body : B -> M A) :
  (forall x, keeps P (body x)) -> keeps P (for_each xs body).
Proof.
  intros Hb. induction xs as [| x xs IH]; cbn [for_each].
  - apply keeps_ret.
  - apply keeps_bind; [apply Hb | intros _; exact IH].
Qed.

Lemma keeps_apply {A} (P : Screen -> Prop) (m : M A) s :
  keeps P m -> P s -> P (final (m s)).
Proof. intros Hm. apply Hm. Qed.

Lemma keeps_newImage_get P z : keeps P (newImage_get z).
Proof. intros s Hs. unfold newImage_get. apply keeps_lift, Hs. Qed.

Lemma land_255_byte b : is_byte b <-> Z.land b 255 = b.
Proof.
  unfold is_byte. change 255 with (Z.ones 8). rewrite Z.land_ones by lia.
  change (2 ^ 8) with 256. split.
  - intros Hb. apply Z.mod_small. exact Hb.
  - intros <-. apply Z.mod_pos_bound. lia.
Qed.

Lemma is_byte_bitSet b t : is_byte b -> 0 <= t <= 7 -> is_byte (bitSet b t).
Proof.
  intros Hb Ht. apply land_255_byte. apply land_255_byte in Hb.
  unfold bitSet. rewrite Z.land_lor_distr_l, Hb. f_equal.
  apply land_255_byte. rewrite Z.shiftl_1_l. unfold is_byte.
  split; [apply Z.pow_nonneg; lia |].
  apply (Z.lt_le_trans _ (2 ^ 8)); [apply Z.pow_lt_mono_r; lia | reflexivity].
Qed.

Lemma is_byte_bitClear b t : is_byte b -> is_byte (bitClear b t).
Proof.
  intros Hb. apply land_255_byte. apply land_255_byte in Hb.
  unfold bitClear.
  rewrite <- Z.land_assoc, (Z.land_comm (Z.lnot _)), Z.land_assoc, Hb.
  reflexivity.
Qed.

Lemma same_shape_refl s0 :
  Forall is_byte (_newImage s0) -> same_shape s0 s0.
Proof.
  intros Hb. exists (_newImage s0).
  split; [symmetry; apply with_newImage_same | split; [reflexivity | exact Hb]].
Qed.

Lemma keeps_shape_newImage_set s0 z v :
  keeps (same_shape s0) (newImage_set z v).
Proof.
  intros s (img & -> & Hlen & Hb). unfold newImage_set, same_shape.
  cbn [_newImage with_newImage]. unfold Py.setitem.
  destruct (Py.index (Z.of_nat (length img)) z) as [n |];
    [| exists img; auto].
  destruct (Z.leb_spec 0 v); destruct (Z.ltb_spec v 256); cbn [andb final];
    try (exists img; split; [reflexivity | auto]).
  exists (<[n := v]> img). split; [reflexivity |].
  split; [now rewrite length_insert |].
  apply Forall_insert; [exact Hb | unfold is_byte; lia].
Qed.

Ltac keeps_steps :=
  cbv zeta;
  repeat lazymatch goal with
    | |- keeps _ (bind self _) => apply keeps_self_bind; intros ?
    | |- keeps _ (bind _ _) => apply keeps_bind; [| intros ?]
    | |- keeps _ (for_each _ _) => apply keeps_for_each; intros ?
    | |- keeps _ (ret _) => apply keeps_ret
    | |- keeps _ (lift _) => apply keeps_lift
    | |- keeps _ (newImage_get _) => apply keeps_newImage_get
    | |- keeps (same_shape _) (newImage_set _ _) =>
        apply keeps_shape_newImage_set
    | |- keeps _ (if ?b then _ else _) => destruct b
    | |- keeps _ (let '(_, _) := ?p in _) => destruct p
    end.

Lemma keeps_shape_point s0 x y c : keeps (same_shape s0) (point x y c).
Proof. unfold point. keeps_steps. Qed.

Lemma keeps_shape_line_while s0 n : forall flag wx1 wy1 wx2 dx dy ystep err c,
  keeps (same_shape s0) (line_while n flag wx1 wy1 wx2 dx dy ystep err c).
Proof.
  induction n as [| n IH]; intros; cbn [line_while]; [apply keeps_ret |].
  destruct (wx1 <=? wx2); [| apply keeps_ret].
  apply keeps_bind; [destruct flag; apply keeps_shape_point |].
  intros _. cbv zeta. destruct (Qlt_bool _ _); apply IH.
Qed.

Ltac shape_steps :=
  repeat first
    [ apply keeps_shape_point
    | apply keeps_shape_line_while
    | progress keeps_steps ].

Lemma keeps_shape_line s0 x1 y1 x2 y2 c :
  keeps (same_shape s0) (line x1 y1 x2 y2 c).
Proof.
  unfold line.
  destruct ((x1 =? x2) && (y1 =? y2)); [shape_steps |].
  destruct (x1 =? x2); [destruct (y1 >? y2); shape_steps |].
  destruct (y1 =? y2); [destruct (x1 >? x2); shape_steps |].
  cbv zeta.
  destruct (Z.abs (y2 - y1) >? Z.abs (x2 - x1));
    repeat match goal with
      | |- context [if ?b then _ else _] => destruct b
      end; apply keeps_shape_line_while.
Qed.

Lemma keeps_shape_rectangle s0 x1 y1 x2 y2 c :
  keeps (same_shape s0) (rectangle x1 y1 x2 y2 c).
Proof.
  unfold rectangle. apply keeps_self_bind. intros s.
  destruct (negb (_penSolid s)).
  - repeat (apply keeps_bind; [apply keeps_shape_line | intros _]).
    apply keeps_shape_line.
  - destruct (x1 >? x2); destruct (y1 >? y2); shape_steps.
Qed.

Lemma keeps_shape_clear s0 colour : keeps (same_shape s0) (clear colour).
Proof. unfold clear, clear_fill. shape_steps. Qed.

Lemma keeps_shape_gText s0 t6 t8 t12 x0 y0 text tc bc :
  keeps (same_shape s0) (gText t6 t8 t12 x0 y0 text tc bc).
Proof. unfold gText, ord_at, getCharacter, glyph_byte. shape_steps. Qed.

Lemma keeps_shape_circle_while s0 {A} n (plot : Z -> Z -> M A) :
  (forall x y, keeps (same_shape s0) (plot x y)) ->
  forall f ddF_x ddF_y x y,
    keeps (same_shape s0) (circle_while n plot f ddF_x ddF_y x y).
Proof.
  intros Hplot. induction n as [| n IH]; intros; cbn [circle_while];
    [apply keeps_ret |].
  destruct (x <? y); [| apply keeps_ret].
  destruct (f >=? 0); cbv zeta;
    (apply keeps_bind; [apply Hplot | intros _; apply IH]).
Qed.

Lemma keeps_shape_circle s0 setPenSolid x0 y0 radius c :
  (forall flag, keeps (same_shape s0) (setPenSolid flag)) ->
  keeps (same_shape s0) (circle setPenSolid x0 y0 radius c).
Proof.
  intros Hset. unfold circle. cbv zeta. apply keeps_self_bind. intros s.
  destruct (negb (_penSolid s)).
  - repeat (apply keeps_bind; [apply keeps_shape_point | intros _]).
    apply keeps_bind; [| intros _; apply keeps_ret].
    apply keeps_shape_circle_while. intros x y. shape_steps.
  - apply keeps_bind.
    + apply keeps_shape_circle_while. intros x y.
      repeat (apply keeps_bind; [apply keeps_shape_line | intros _]).
      apply keeps_shape_line.
    + intros [x y]. apply keeps_bind; [apply Hset | intros _].
      apply keeps_shape_rectangle.
Qed.

(** X1. Drawing changes the current plane and nothing else: whether
    [point], [line], [rectangle], [clear], [gText] or an outline [circle]
    returns or raises, the Screen it leaves is the one it was called on
    with a current plane of the same length, still made of bytes. *)
Theorem drawing_keeps_shape :
  forall (s : Screen) (setPenSolid : bool -> M unit)
         (t6 t8 t12 : list (list Z)) (text : list Z)
         (x1 y1 x2 y2 c c2 : Z),
    Forall is_byte (_newImage s) ->
    same_shape s (final (point x1 y1 c s))
    /\ same_shape s (final (line x1 y1 x2 y2 c s))
    /\ same_shape s (final (rectangle x1 y1 x2 y2 c s))
    /\ same_shape s (final (clear c s))
    /\ same_shape s (final (gText t6 t8 t12 x1 y1 text c c2 s))
    /\ (_penSolid s = false ->
        same_shape s (final (circle setPenSolid x1 y1 x2 c s))).
Proof.
  intros s setPenSolid t6 t8 t12 text x1 y1 x2 y2 c c2 Hb.
  pose proof (same_shape_refl s Hb) as H0.
  split; [apply keeps_shape_point, H0 |].
  split; [apply keeps_shape_line, H0 |].
  split; [apply keeps_shape_rectangle, H0 |].
  split; [apply keeps_shape_clear, H0 |].
  split; [apply keeps_shape_gText, H0 |].
  intros Hpen. unfold circle. cbv zeta. rewrite bind_self, Hpen. cbn [negb].
  apply keeps_apply; [| exact H0].
  repeat (apply keeps_bind; [apply keeps_shape_point | intros _]).
  apply keeps_bind; [| intros _; apply keeps_ret].
  apply keeps_shape_circle_while. intros x y. shape_steps.
Qed.

Lemma drawing_keeps_shape_witness :
  Forall is_byte (_newImage (panel 2 8 [0; 0]))
  /\ same_shape (panel 2 8 [0; 0])
       (final (point 0 0 Colour.BLACK (panel 2 8 [0; 0]))).
Proof.
  assert (Hb : Forall is_byte (_newImage (panel 2 8 [0; 0])))
    by (repeat constructor; unfold is_byte; lia).
  split; [exact Hb |].
  exact (proj1 (drawing_keeps_shape (panel 2 8 [0; 0]) (fun _ => ret tt)
                  [] [] [] [] 0 0 1 1 Colour.BLACK Colour.WHITE Hb)).
Defined.

(** ** Bit utilities *)

(** X2. The three bit utilities fit together: for a bit index [i >= 0],
    reading bit [i] after [bitSet] gives [1 << i] and after [bitClear]
    gives 0, every other bit is left as it was, and on a byte with
    [i <= 7] both results are bytes again. *)
Theorem bit_utilities_roundtrip :
  forall (v i : Z),
    0 <= i ->
    bitRead (bitSet v i) i = Z.shiftl 1 i
    /\ bitRead (bitClear v i) i = 0
    /\ (forall j, 0 <= j -> j <> i ->
          Z.testbit (bitSet v i) j = Z.testbit v j
          /\ Z.testbit (bitClear v i) j = Z.testbit v j)
    /\ (is_byte v -> i <= 7 ->
          is_byte (bitSet v i) /\ is_byte (bitClear v i)).
Proof.
  intros v i Hi. split; [| split; [| split]].
  - unfold bitRead, bitSet. apply Z.bits_inj'. intros n Hn.
    rewrite Z.land_spec, Z.lor_spec.
    destruct (Z.testbit (Z.shiftl 1 i) n), (Z.testbit v n); reflexivity.
  - unfold bitRead, bitClear. apply Z.bits_inj'. intros n Hn.
    rewrite !Z.land_spec, Z.lnot_spec, Z.bits_0 by lia.
    destruct (Z.testbit (Z.shiftl 1 i) n), (Z.testbit v n); reflexivity.
  - intros j Hj Hne. split.
    + rewrite testbit_bitSet by lia.
      destruct (Z.eqb_spec i j); [congruence | apply orb_false_r].
    + rewrite testbit_bitClear by lia.
      destruct (Z.eqb_spec i j); [congruence | apply andb_true_r].
  - intros Hv Hi7. split.
    + apply is_byte_bitSet; [assumption | lia].
    + apply is_byte_bitClear; assumption.
Qed.

Lemma bit_utilities_roundtrip_witness :
  0 <= 7 /\ bitRead (bitSet 0x05 7) 7 = 0x80.
Proof.
  split; [lia |].
  exact (proj1 (bit_utilities_roundtrip 0x05 7 ltac:(lia))).
Defined.

(** ** Orientation and screen size *)

(** X3. For every integer [o], [setOrientation(o)] stores [o % 4], a
    value in 0..3, and changes nothing else; [getOrientation()] reads it
    back. *)
Theorem setOrientation_stores_mod4 :
  forall (o : Z) (s : Screen),
    (setOrientation o ;; getOrientation) s
    = Return (o mod 4) (with_orientation (o mod 4) s)
    /\ 0 <= o mod 4 < 4.
Proof.
  intros o s. split; [| apply Z.mod_pos_bound; lia].
  unfold setOrientation, getOrientation, bind, assign, self, ret,
    screenSizeX, screenSizeY.
  destruct (o =? 6); [| destruct (o =? 7)]; cbn;
    repeat match goal with |- context [if ?b then _ else _] => destruct b end;
    reflexivity.
Qed.

(** X4. The mapper and the size queries agree: for a stored orientation
    0..3, [screenSizeX()] and [screenSizeY()] return the two panel sides
    (never the fallback 0), and a coordinate is accepted exactly when
    [x < screenSizeX()] and [y < screenSizeY()]. *)
Theorem accepted_iff_below_screenSize :
  forall (s : Screen) (x y : Z),
    0 <= _orientation s < 4 ->
    exists sx sy,
      screenSizeX s = Return sx s
      /\ screenSizeY s = Return sy s
      /\ (rejected s x y = false <-> x < sx /\ y < sy)
      /\ ((sx = _screenSizeV s /\ sy = _screenSizeH s)
          \/ (sx = _screenSizeH s /\ sy = _screenSizeV s)).
Proof.
  intros s x y Ho.
  assert (Hcases : _orientation s = 0 \/ _orientation s = 1
                   \/ _orientation s = 2 \/ _orientation s = 3) by lia.
  unfold screenSizeX, screenSizeY, rejected, orientCoordinates, bind, self,
    ret.
  destruct Hcases as [-> | [-> | [-> | ->]]]; cbn [Z.eqb Pos.eqb orb];
    eexists; eexists; (split; [reflexivity |]); (split; [reflexivity |]);
    (split; [| first [left; split; reflexivity | right; split; reflexivity]]);
    match goal with
    | |- context [(?a <? ?b) && (?c <? ?d)] =>
        destruct (Z.ltb_spec a b); destruct (Z.ltb_spec c d)
    end; cbn; split; intros; try discriminate; try reflexivity; lia.
Qed.

Lemma accepted_iff_below_screenSize_witness :
  0 <= _orientation (with_orientation 1 (panel 2 8 [0; 0])) < 4
  /\ exists sx sy,
       screenSizeX (with_orientation 1 (panel 2 8 [0; 0]))
       = Return sx (with_orientation 1 (panel 2 8 [0; 0]))
       /\ screenSizeY (with_orientation 1 (panel 2 8 [0; 0]))
          = Return sy (with_orientation 1 (panel 2 8 [0; 0]))
       /\ (rejected (with_orientation 1 (panel 2 8 [0; 0])) 1 7 = false
           <-> 1 < sx /\ 7 < sy)
       /\ ((sx = 2 /\ sy = 8) \/ (sx = 8 /\ sy = 2)).
Proof.
  assert (Ho : 0 <= _orientation (with_orientation 1 (panel 2 8 [0; 0])) < 4)
    by (cbn; lia).
  split; [exact Ho |].
  exact (accepted_iff_below_screenSize
           (with_orientation 1 (panel 2 8 [0; 0])) 1 7 Ho).
Defined.

(** X5. The reported sizes swap with the parity of the orientation:
    after [setOrientation(o)], [screenSizeX()] is the wide side and
    [screenSizeY()] the small side when [o] is odd, and the other way
    round when [o] is even. *)
Theorem screenSize_swaps_with_orientation :
  forall (o : Z) (s : Screen),
    (setOrientation o ;; screenSizeX) s
    = Return (if Z.odd o then _screenSizeV s else _screenSizeH s)
        (with_orientation (o mod 4) s)
    /\ (setOrientation o ;; screenSizeY) s
       = Return (if Z.odd o then _screenSizeH s else _screenSizeV s)
           (with_orientation (o mod 4) s).
Proof.
  intros o s.
  destruct (setOrientation_stores o s) as (s' & Hs' & Ho).
  assert (Hs : s' = with_orientation (o mod 4) s).
  { revert Hs'. unfold setOrientation, bind, assign, self, ret,
      screenSizeX, screenSizeY.
    destruct (o =? 6); [| destruct (o =? 7)]; cbn;
      repeat match goal with |- context [if ?b then _ else _] => destruct b end;
      intros [= <-]; reflexivity. }
  subst s'.
  pose proof (Z.mod_pos_bound o 4 ltac:(lia)) as Hr.
  assert (Hodd : Z.odd o = Z.odd (o mod 4)).
  { rewrite (Z.div_mod o 4) at 1 by lia.
    replace (4 * (o / 4) + o mod 4) with (o mod 4 + 2 * (2 * (o / 4))) by lia.
    apply Z.odd_add_mul_2. }
  rewrite !(bind_Return _ _ _ _ _ Hs'), Hodd.
  unfold screenSizeX, screenSizeY, bind, self, ret.
  cbn [_orientation with_orientation _screenSizeV _screenSizeH].
  assert (Hcases : o mod 4 = 0 \/ o mod 4 = 1 \/ o mod 4 = 2 \/ o mod 4 = 3)
    by lia.
  destruct Hcases as [-> | [-> | [-> | ->]]]; split; reflexivity.
Qed.

(** ** Reading a pixel *)

(** X6. [readPixel] never changes the Screen and never returns a colour
    read from the plane: a rejected coordinate returns 0, an accepted one
    raises. *)
Theorem readPixel_behaviour :
  forall (s : Screen) (x y : Z),
    (rejected s x y = true -> readPixel x y s = Return 0 s)
    /\ (rejected s x y = false ->
        readPixel x y s = Raise Py.UnboundLocalError s).
Proof.
  intros s x y. unfold rejected, readPixel, bind, self.
  destruct (orientCoordinates s x y) as [[flag x1] y1]. cbn.
  split; intros ->; reflexivity.
Qed.

Lemma readPixel_behaviour_witness :
  readPixel 9 9 (panel 2 8 [0; 0]) = Return 0 (panel 2 8 [0; 0])
  /\ readPixel 3 1 (panel 2 8 [0; 0])
     = Raise Py.UnboundLocalError (panel 2 8 [0; 0]).
Proof.
  split.
  - apply (proj1 (readPixel_behaviour (panel 2 8 [0; 0]) 9 9)). reflexivity.
  - apply (proj2 (readPixel_behaviour (panel 2 8 [0; 0]) 3 1)). reflexivity.
Defined.

(** ** Fonts and text *)

(** The descriptor [selectFont] writes for selector [k]; selectors
    outside 0..3 write none. *)
Lemma selectFont_run MAX font s :
  let k := if font <? MAX then font else MAX - 1 in
  selectFont MAX font s
  = Return tt
      (match k with
       | 0 => with_font {| font_kind := 0x40; font_height := 8;
                           font_maxWidth := 6; font_first := 32;
                           font_number := 224 |}
       | 1 => with_font {| font_kind := 0x40; font_height := 12;
                           font_maxWidth := 8; font_first := 32;
                           font_number := 224 |}
       | 2 => with_font {| font_kind := 0x40; font_height := 16;
                           font_maxWidth := 12; font_first := 32;
                           font_number := 224 |}
       | 3 => with_font {| font_kind := 0x40; font_height := 24;
                           font_maxWidth := 16; font_first := 32;
                           font_number := 224 |}
       | _ => fun s => s
       end (with_fontSize k s)).
Proof.
  cbv zeta. unfold selectFont, bind, assign, self, ret.
  destruct (font <? MAX); cbn [_fontSize with_fontSize].
  - destruct font as [| [[p | p |] | [p | p |] |] | p]; reflexivity.
  - destruct (MAX - 1) as [| [[p | p |] | [p | p |] |] | p]; reflexivity.
Qed.

(** X7. [selectFont] always returns. A selector below [MAX_FONT_SIZE] is
    stored as given and any other as [MAX_FONT_SIZE - 1]; for a stored
    selector 0, 1, 2 or 3 the descriptor becomes the 6x8, 8x12, 12x16 or
    16x24 metrics, and for any other stored selector the descriptor of
    the previous font stays in place. Nothing else changes. *)
Theorem selectFont_installs_metrics :
  forall (MAX_FONT_SIZE font : Z) (s : Screen),
    exists s',
      selectFont MAX_FONT_SIZE font s = Return tt s'
      /\ _fontSize s' = (if font <? MAX_FONT_SIZE then font
                         else MAX_FONT_SIZE - 1)
      /\ s' = with_font (_font s') (with_fontSize (_fontSize s') s)
      /\ (font_height (_font s'), font_maxWidth (_font s'))
         = match _fontSize s' with
           | 0 => (8, 6)
           | 1 => (12, 8)
           | 2 => (16, 12)
           | 3 => (24, 16)
           | _ => (font_height (_font s), font_maxWidth (_font s))
           end
      /\ (0 < MAX_FONT_SIZE -> 0 <= font -> 0 <= _fontSize s' < MAX_FONT_SIZE).
Proof.
  intros MAX font s. eexists. split; [apply selectFont_run |].
  cbv zeta. set (k := if font <? MAX then font else MAX - 1).
  assert (Hk : 0 < MAX -> 0 <= font -> 0 <= k < MAX).
  { subst k. destruct (Z.ltb_spec font MAX); lia. }
  clearbody k.
  destruct k as [| [[p | p |] | [p | p |] |] | p];
    (split; [reflexivity |]); (split; [reflexivity |]);
    (split; [reflexivity | exact Hk]).
Qed.

Lemma selectFont_installs_metrics_witness :
  exists s',
    selectFont 4 1 (panel 2 8 [0; 0]) = Return tt s'
    /\ 0 <= _fontSize s' < 4.
Proof.
  destruct (selectFont_installs_metrics 4 1 (panel 2 8 [0; 0]))
    as (s' & Hrun & _ & _ & _ & Hrange).
  exists s'. split; [exact Hrun |]. apply Hrange; lia.
Defined.

(** X8. [gText] draws nothing, and returns with the Screen unchanged,
    for the empty string under any font, and for any string when the
    stored selector is not 0, 1 or 2 - in particular after
    [selectFont(3)], whose glyph table the class does not use. *)
Theorem gText_draws_nothing :
  forall (t6 t8 t12 : list (list Z)) (s : Screen) (x0 y0 tc bc : Z)
         (text : list Z),
    gText t6 t8 t12 x0 y0 [] tc bc s = Return tt s
    /\ (~ 0 <= _fontSize s < 3 ->
        gText t6 t8 t12 x0 y0 text tc bc s = Return tt s).
Proof.
  intros t6 t8 t12 s x0 y0 tc bc text. unfold gText. rewrite !bind_self.
  split.
  - destruct (_fontSize s =? 0); [reflexivity |].
    destruct (_fontSize s =? 1); [reflexivity |].
    destruct (_fontSize s =? 2); reflexivity.
  - intros Hk.
    destruct (Z.eqb_spec (_fontSize s) 0); [lia |].
    destruct (Z.eqb_spec (_fontSize s) 1); [lia |].
    destruct (Z.eqb_spec (_fontSize s) 2); [lia |]. reflexivity.
Qed.

Lemma gText_draws_nothing_witness :
  gText [] [] [] 0 0 [65] Colour.BLACK Colour.WHITE
    (with_fontSize 3 (panel 2 8 [0; 0]))
  = Return tt (with_fontSize 3 (panel 2 8 [0; 0])).
Proof.
  apply (proj2 (gText_draws_nothing [] [] []
                  (with_fontSize 3 (panel 2 8 [0; 0])) 0 0
                  Colour.BLACK Colour.WHITE [65])).
  cbn. lia.
Defined.

(** ** Loops that return *)

Lemma for_each_returns {A B} (I : Screen -> Prop) (xs : list B)
    (body : B -> M A) :
  (forall a s, a ∈ xs -> I s -> exists r s', body a s = Return r s' /\ I s') ->
  forall s, I s -> exists s', for_each xs body s = Return tt s' /\ I s'.
Proof.
  induction xs as [| a xs IH]; intros Hbody s HI; cbn [for_each].
  - exists s. split; [reflexivity | exact HI].
  - destruct (Hbody a s ltac:(left) HI) as (r & s1 & Ha & HI1).
    rewrite (bind_Return _ _ _ _ _ Ha). apply IH; [| exact HI1].
    intros a' s2 Hin. apply Hbody. now right.
Qed.

(** A loop over [range(a, b)] whose invariant advances with the index. *)
Lemma for_each_range_inv {A} (I : Z -> Screen -> Prop) (a b : Z)
    (body : Z -> M A) :
  a <= b ->
  (forall k s, a <= k < b -> I k s ->
     exists r s', body k s = Return r s' /\ I (k + 1) s') ->
  forall s, I a s ->
    exists s', for_each (Py.range a b) body s = Return tt s' /\ I b s'.
Proof.
  intros Hab Hbody. unfold Py.range.
  remember (Z.to_nat (b - a)) as n eqn:Hn.
  revert a Hab Hbody Hn. induction n as [| n IH]; intros a Hab Hbody Hn s HI.
  - assert (b = a) by lia. subst b. rewrite seqZ_nil by lia.
    exists s. split; [reflexivity | exact HI].
  - rewrite seqZ_cons by lia. cbn [for_each].
    destruct (Hbody a s ltac:(lia) HI) as (r & s1 & Ha & HI1).
    rewrite (bind_Return _ _ _ _ _ Ha).
    replace (Z.pred (b - a)) with (b - Z.succ a) by lia.
    apply IH; [lia | | lia | exact HI1].
    intros k s2 Hk. apply Hbody. lia.
Qed.

(** ** Points on the panel *)

Lemma accepted_in_panel s x y x1 y1 :
  0 <= x -> 0 <= y ->
  orientCoordinates s x y = (false, x1, y1) ->
  0 <= x1 < _screenSizeV s /\ 0 <= y1 < _screenSizeH s.
Proof.
  intros Hx Hy. orient_cases s; intros [= <- <-]; lia.
Qed.

Lemma item_in_plane s x1 y1 :
  well_sized s -> byte_aligned s ->
  0 <= x1 < _screenSizeV s -> 0 <= y1 < _screenSizeH s ->
  0 <= fst (getZT s x1 y1) < Z.of_nat (length (_newImage s)).
Proof.
  intros (HV & HH & HbV & HbH & Hlen & _) Hal Hx Hy.
  unfold byte_aligned in Hal. unfold getZT. cbn [fst].
  rewrite Hlen, HbV, Z.shiftr_div_pow2 by lia. change (2 ^ 3) with 8.
  assert (0 <= y1 / 8 < _bufferSizeH s)
    by (split; [apply Z.div_pos; lia | apply Z.div_lt_upper_bound; lia]).
  nia.
Qed.

Lemma getitem_in_range (img : list Z) z :
  0 <= z < Z.of_nat (length img) ->
  Forall is_byte img ->
  exists b, Py.getitem img z = inr b /\ is_byte b
            /\ Py.index (Z.of_nat (length img)) z = Some (Z.to_nat z).
Proof.
  intros Hz Hb.
  assert (Hi : Py.index (Z.of_nat (length img)) z = Some (Z.to_nat z)).
  { unfold Py.index. destruct (Z.leb_spec 0 z); [| lia].
    destruct (Z.ltb_spec z (Z.of_nat (length img))); [| lia]. reflexivity. }
  destruct (getitem_index img z _ Hi) as (b & Hl & Hg).
  exists b. split; [exact Hg |]. split; [| exact Hi].
  rewrite Forall_lookup in Hb. exact (Hb _ _ Hl).
Qed.

Lemma on_panel_same_shape s0 s :
  on_panel s0 -> same_shape s0 s -> on_panel s.
Proof.
  intros ((HV & HH & HbV & HbH & Hlen & Hold) & Hal & _) (img & -> & Hl & Hb).
  split; [| split; [exact Hal | exact Hb]].
  unfold well_sized. cbn [_newImage with_newImage _screenSizeV _screenSizeH
    _bufferSizeV _bufferSizeH _oldImage].
  rewrite Hl. auto 10.
Qed.

Lemma on_panel_bytes s : on_panel s -> Forall is_byte (_newImage s).
Proof. intros (_ & _ & Hb). exact Hb. Qed.

(** On a panel, [point] at a non-negative coordinate never raises: it
    returns, and leaves a panel. (A coordinate beyond the far edges is
    rejected and ignored; one inside addresses a byte of the plane.) *)
Lemma point_returns_on_panel :
  forall (s : Screen) (x y c : Z),
    on_panel s -> 0 <= x -> 0 <= y ->
    exists r s', point x y c s = Return r s' /\ on_panel s'.
Proof.
  intros s x y c Hpan Hx Hy.
  assert (Hshape : same_shape s (final (point x y c s))).
  { apply keeps_shape_point, same_shape_refl, on_panel_bytes, Hpan. }
  assert (Hret : exists r s', point x y c s = Return r s').
  { unfold point. rewrite bind_self.
    destruct (orientCoordinates s x y) as [[flag x1] y1] eqn:Ho.
    destruct flag; [eexists; eexists; reflexivity |].
    destruct (accepted_in_panel _ _ _ _ _ Hx Hy Ho) as [Hx1 Hy1].
    destruct Hpan as (Hws & Hal & Hb).
    pose proof (item_in_plane s x1 y1 Hws Hal Hx1 Hy1) as Hz.
    pose proof (getZT_bit_range s x1 y1) as Ht.
    destruct (getZT s x1 y1) as [z1 t1]. cbn [fst snd] in Hz, Ht. cbv zeta.
    destruct (getitem_in_range _ z1 Hz Hb) as (b & Hg & Hbyte & Hi).
    assert (Hset : forall v, is_byte v ->
              exists img, Py.setitem (_newImage s) z1 v = inr img).
    { intros v [Hv0 Hv1]. unfold Py.setitem. rewrite Hi.
      destruct (Z.leb_spec 0 v); [| lia]. destruct (Z.ltb_spec v 256); [| lia].
      eexists. reflexivity. }
    destruct (xorb _ (_invert s)); [| destruct (xorb _ (_invert s))].
    - unfold bind, newImage_get, newImage_set, lift, ret. rewrite Hg.
      destruct (Hset (bitClear b t1) (is_byte_bitClear _ _ Hbyte)) as [img ->].
      eexists; eexists; reflexivity.
    - unfold bind, newImage_get, newImage_set, lift, ret. rewrite Hg.
      destruct (Hset (bitSet b t1) (is_byte_bitSet _ _ Hbyte Ht)) as [img ->].
      eexists; eexists; reflexivity.
    - eexists; eexists; reflexivity. }
  destruct Hret as (r & s' & Hp). exists r, s'. split; [exact Hp |].
  rewrite Hp in Hshape. exact (on_panel_same_shape _ _ Hpan Hshape).
Qed.

Lemma on_panel_panel_2x8 : on_panel (panel 2 8 [0; 0]).
Proof.
  split; [| split].
  - unfold well_sized. cbn. repeat split; lia.
  - reflexivity.
  - repeat constructor; unfold is_byte; lia.
Defined.

(** X9. What one [point] does to the pixels of a panel: drawn in BLACK
    or WHITE at a non-negative coordinate it never raises, but returns
    and leaves a panel; if the coordinate is accepted its pixel then
    shows that colour's ink, and every other non-negative coordinate's
    pixel is as before; if it is rejected the Screen is unchanged. *)
Theorem point_sets_one_pixel :
  forall (s : Screen) (x y c : Z),
    on_panel s -> 0 <= x -> 0 <= y ->
    c = Colour.BLACK \/ c = Colour.WHITE ->
    exists r s',
      point x y c s = Return r s'
      /\ on_panel s'
      /\ (rejected s x y = false -> pixel_bit s' x y = Some (ink s c))
      /\ (rejected s x y = true -> s' = s)
      /\ forall a b, 0 <= a -> 0 <= b -> (a, b) <> (x, y) ->
                     pixel_bit s' a b = pixel_bit s a b.
Proof.
  intros s x y c Hpan Hx Hy Hc.
  destruct (point_returns_on_panel s x y c Hpan Hx Hy)
    as (r & s' & Hp & Hpan').
  exists r, s'. split; [exact Hp |]. split; [exact Hpan' |].
  split; [| split].
  - intros Hacc. exact (point_written _ _ _ _ _ _ Hc Hacc Hp).
  - intros Hrej.
    destruct (point_cases _ _ _ _ _ _ Hp)
      as [[E _] | (x1 & y1 & _ & _ & _ & Ho & _)]; [exact E |].
    unfold rejected in Hrej. rewrite Ho in Hrej. discriminate.
  - intros a b Ha Hb Hne. destruct Hpan as (_ & Hal & _).
    apply (point_other_pixel s x y c r s' a b Hal Hx Hy Ha Hb); [| exact Hp].
    congruence.
Qed.

Lemma point_sets_one_pixel_witness :
  on_panel (panel 2 8 [0; 0]) /\ 0 <= 3 /\ 0 <= 1
  /\ (Colour.BLACK = Colour.BLACK \/ Colour.BLACK = Colour.WHITE)
  /\ exists r s',
       point 3 1 Colour.BLACK (panel 2 8 [0; 0]) = Return r s'
       /\ on_panel s'
       /\ (rejected (panel 2 8 [0; 0]) 3 1 = false ->
           pixel_bit s' 3 1 = Some (ink (panel 2 8 [0; 0]) Colour.BLACK))
       /\ (rejected (panel 2 8 [0; 0]) 3 1 = true -> s' = panel 2 8 [0; 0])
       /\ forall a b, 0 <= a -> 0 <= b -> (a, b) <> (3, 1) ->
                      pixel_bit s' a b = pixel_bit (panel 2 8 [0; 0]) a b.
Proof.
  split; [exact on_panel_panel_2x8 |]. split; [lia |]. split; [lia |].
  split; [left; reflexivity |].
  apply (point_sets_one_pixel (panel 2 8 [0; 0]) 3 1 Colour.BLACK);
    [exact on_panel_panel_2x8 | lia | lia | left; reflexivity].
Defined.

Lemma setitem_again (img img' : list Z) z v :
  Py.setitem img z v = inr img' ->
  Py.getitem img' z = inr v /\ Py.setitem img' z v = inr img'.
Proof.
  unfold Py.setitem, Py.getitem.
  destruct (Py.index (Z.of_nat (length img)) z) as [n |] eqn:Hi;
    [| discriminate].
  destruct ((0 <=? v) && (v <? 256)) eqn:Hv; [| discriminate].
  intros [= <-]. rewrite length_insert, Hi.
  pose proof (index_lt _ _ _ Hi).
  rewrite list_lookup_insert_eq by lia.
  split; [reflexivity |]. now rewrite list_insert_insert_eq.
Qed.

Lemma bitSet_again b t : bitSet (bitSet b t) t = bitSet b t.
Proof. unfold bitSet. now rewrite <- Z.lor_assoc, Z.lor_diag. Qed.

Lemma bitClear_again b t : bitClear (bitClear b t) t = bitClear b t.
Proof. unfold bitClear. now rewrite <- Z.land_assoc, Z.land_diag. Qed.

Lemma point_again s x y c r s1 :
  point x y c s = Return r s1 -> point x y c s1 = Return r s1.
Proof.
  unfold point at 1. rewrite bind_self.
  destruct (orientCoordinates s x y) as [[flag x1] y1] eqn:Ho.
  destruct flag.
  { intros [= <- <-]. unfold point. rewrite bind_self, Ho. reflexivity. }
  destruct (getZT s x1 y1) as [z1 t1] eqn:Hzt. cbv zeta.
  set (c' := if c =? Colour.GREY then _ else c).
  destruct (xorb (c' =? Colour.WHITE) (_invert s)) eqn:Hw;
    [| destruct (xorb (c' =? Colour.BLACK) (_invert s)) eqn:Hb].
  - unfold bind, newImage_get, newImage_set, lift, ret, raise.
    destruct (Py.getitem (_newImage s) z1) as [e | b] eqn:Hg;
      [discriminate |].
    destruct (Py.setitem (_newImage s) z1 (bitClear b t1)) as [e | img']
      eqn:Hs; [discriminate |].
    intros [= <- <-]. destruct (setitem_again _ _ _ _ Hs) as [Hg' Hs'].
    unfold point. rewrite bind_self.
    change (orientCoordinates (with_newImage img' s) x y)
      with (orientCoordinates s x y). rewrite Ho.
    change (getZT (with_newImage img' s) x1 y1) with (getZT s x1 y1).
    rewrite Hzt. cbv zeta. fold c'.
    change (_invert (with_newImage img' s)) with (_invert s). rewrite Hw.
    unfold bind, newImage_get, newImage_set, lift, ret, raise.
    cbn [_newImage with_newImage]. rewrite Hg'.
    cbn [_newImage with_newImage]. rewrite bitClear_again, Hs'.
    reflexivity.
  - unfold bind, newImage_get, newImage_set, lift, ret, raise.
    destruct (Py.getitem (_newImage s) z1) as [e | b] eqn:Hg;
      [discriminate |].
    destruct (Py.setitem (_newImage s) z1 (bitSet b t1)) as [e | img']
      eqn:Hs; [discriminate |].
    intros [= <- <-]. destruct (setitem_again _ _ _ _ Hs) as [Hg' Hs'].
    unfold point. rewrite bind_self.
    change (orientCoordinates (with_newImage img' s) x y)
      with (orientCoordinates s x y). rewrite Ho.
    change (getZT (with_newImage img' s) x1 y1) with (getZT s x1 y1).
    rewrite Hzt. cbv zeta. fold c'.
    change (_invert (with_newImage img' s)) with (_invert s). rewrite Hw, Hb.
    unfold bind, newImage_get, newImage_set, lift, ret, raise.
    cbn [_newImage with_newImage]. rewrite Hg'.
    cbn [_newImage with_newImage]. rewrite bitSet_again, Hs'.
    reflexivity.
  - intros [= <- <-]. unfold point. rewrite bind_self, Ho, Hzt. cbv zeta.
    fold c'. rewrite Hw, Hb. reflexivity.
Qed.

(** X10. Drawing the same point twice is drawing it once: the second
    call finds the bit already as it would write it and leaves the Screen
    as the first call left it; if the first call raises, so does the
    pair. This holds on every Screen, for every colour and coordinate. *)
Theorem point_twice_is_once :
  forall (s : Screen) (x y c : Z),
    (point x y c ;; point x y c) s = point x y c s.
Proof.
  intros s x y c. unfold bind.
  destruct (point x y c s) as [r s1 | e s1 | s1] eqn:Hp; try reflexivity.
  exact (point_again _ _ _ _ _ _ Hp).
Qed.

(** ** Loops of points on the panel *)

Section Plot.

Context {B : Type} (px py : B -> Z) (c : Z) (s0 : Screen) (a b : Z).

Let body : B -> M (option Z) := fun k => point (px k) (py k) c.

Lemma plot_returns (xs : list B) s :
  on_panel s ->
  (forall k, k ∈ xs -> 0 <= px k /\ 0 <= py k) ->
  exists s', for_each xs body s = Return tt s' /\ on_panel s'.
Proof.
  intros Hpan Hxs. apply (for_each_returns on_panel); [| exact Hpan].
  intros k s1 Hin Hs1. destruct (Hxs k Hin).
  now apply point_returns_on_panel.
Qed.

Lemma plot_redrawn (xs : list B) s r s' :
  redrawn s0 s -> for_each xs body s = Return r s' -> redrawn s0 s'.
Proof.
  apply (for_each_preserve (redrawn s0)).
  intros k s1 r1 s1' _. apply redrawn_point.
Qed.

Lemma plot_keeps_ink (xs : list B) s r s' :
  c = Colour.BLACK \/ c = Colour.WHITE ->
  redrawn s0 s ->
  pixel_bit s a b = Some (ink s0 c) ->
  for_each xs body s = Return r s' ->
  pixel_bit s' a b = Some (ink s0 c).
Proof.
  intros Hc Hred Hpix Hloop.
  refine (proj2 (for_each_preserve
            (fun s1 => redrawn s0 s1 /\ pixel_bit s1 a b = Some (ink s0 c))
            xs body _ s r s' (conj Hred Hpix) Hloop)).
  intros k s1 r1 s1' _ [Hred1 Hpix1] Hp.
  split; [eapply redrawn_point; eauto |].
  destruct Hred1 as [img ->].
  exact (point_keeps_ink (with_newImage img s0) _ _ _ _ _ _ _ Hc Hp Hpix1).
Qed.

Lemma plot_sets_ink (xs : list B) s r s' k0 :
  c = Colour.BLACK \/ c = Colour.WHITE ->
  redrawn s0 s ->
  k0 ∈ xs -> px k0 = a -> py k0 = b ->
  rejected s0 a b = false ->
  for_each xs body s = Return r s' ->
  pixel_bit s' a b = Some (ink s0 c).
Proof.
  intros Hc Hred Hin Hpx Hpy Hacc Hloop.
  refine (proj2 (for_each_establish (redrawn s0)
            (fun s1 => redrawn s0 s1 /\ pixel_bit s1 a b = Some (ink s0 c))
            xs body k0 Hin _ _ _ s r s' Hred Hloop)).
  - intros k s1 r1 s1'. apply redrawn_point.
  - intros s1 r1 s1' Hred1 Hp. split; [eapply redrawn_point; eauto |].
    destruct Hred1 as [img ->]. unfold body in Hp. rewrite Hpx, Hpy in Hp.
    exact (point_written (with_newImage img s0) _ _ _ _ _ Hc Hacc Hp).
  - intros k s1 r1 s1' [Hred1 Hpix1] Hp.
    split; [eapply redrawn_point; eauto |].
    destruct Hred1 as [img ->].
    exact (point_keeps_ink (with_newImage img s0) _ _ _ _ _ _ _ Hc Hp Hpix1).
Qed.

Lemma plot_leaves_pixel (xs : list B) s r s' :
  byte_aligned s0 -> 0 <= a -> 0 <= b ->
  (forall k, k ∈ xs -> 0 <= px k /\ 0 <= py k /\ (px k, py k) <> (a, b)) ->
  redrawn s0 s ->
  for_each xs body s = Return r s' ->
  pixel_bit s' a b = pixel_bit s a b.
Proof.
  intros Hal Ha Hb Hxs Hred Hloop.
  refine (proj2 (for_each_preserve
            (fun s1 => redrawn s0 s1 /\ pixel_bit s1 a b = pixel_bit s a b)
            xs body _ s r s' (conj Hred eq_refl) Hloop)).
  intros k s1 r1 s1' Hin [Hred1 Hpix1] Hp.
  split; [eapply redrawn_point; eauto |].
  rewrite <- Hpix1. destruct Hred1 as [img ->].
  destruct (Hxs k Hin) as (Hk1 & Hk2 & Hne).
  exact (point_other_pixel (with_newImage img s0) _ _ _ _ _ _ _
           Hal Hk1 Hk2 Ha Hb Hne Hp).
Qed.

End Plot.

Lemma redrawn_refl s : redrawn s s.
Proof. exists (_newImage s). symmetry. apply with_newImage_same. Qed.

Lemma redrawn_trans s0 s1 s2 : redrawn s0 s1 -> redrawn s1 s2 -> redrawn s0 s2.
Proof. intros [i1 ->] [i2 ->]. exists i2. reflexivity. Qed.

(** ** Rectangles on the panel *)

(** X11. A solid rectangle in BLACK or WHITE with non-negative corners,
    on a panel: the call returns; every accepted pixel of the normalized
    range shows the colour's ink; every non-negative coordinate outside
    the range keeps its pixel. *)
Theorem rectangle_solid_on_panel :
  forall (s : Screen) (x1 y1 x2 y2 c : Z),
    on_panel s -> _penSolid s = true ->
    0 <= x1 -> 0 <= y1 -> 0 <= x2 -> 0 <= y2 ->
    c = Colour.BLACK \/ c = Colour.WHITE ->
    exists s',
      rectangle x1 y1 x2 y2 c s = Return tt s'
      /\ on_panel s'
      /\ forall a b, 0 <= a -> 0 <= b ->
           (in_rectangle x1 y1 x2 y2 a b -> rejected s a b = false ->
            pixel_bit s' a b = Some (ink s c))
           /\ (~ in_rectangle x1 y1 x2 y2 a b ->
               pixel_bit s' a b = pixel_bit s a b).
Proof.
  intros s x1 y1 x2 y2 c Hpan Hpen Hx1 Hy1 Hx2 Hy2 Hc.
  assert (Hret : exists s', rectangle x1 y1 x2 y2 c s = Return tt s'
                            /\ on_panel s').
  { rewrite rectangle_solid by exact Hpen.
    apply (for_each_returns on_panel); [| exact Hpan].
    intros x s1 Hx%elem_of_range Hs1.
    destruct (plot_returns (fun _ : Z => x) (fun k : Z => k) c
                (Py.range (Z.min y1 y2) (Z.max y1 y2 + 1)) s1 Hs1)
      as (s1' & Hl & Hs1').
    { intros k Hk%elem_of_range. lia. }
    exists tt, s1'. split; [exact Hl | exact Hs1']. }
  destruct Hret as (s' & Hrect & Hpan'). exists s'.
  split; [exact Hrect |]. split; [exact Hpan' |].
  intros a b Ha Hb. split.
  - intros [Hina Hinb] Hacc.
    exact (rectangle_solid_pixels s x1 y1 x2 y2 c s' a b Hpen Hc Hrect
             Hina Hinb Hacc).
  - intros Hout. rewrite rectangle_solid in Hrect by exact Hpen.
    destruct Hpan as (_ & Hal & _).
    refine (proj2 (for_each_preserve
              (fun s1 => redrawn s s1 /\ pixel_bit s1 a b = pixel_bit s a b)
              _ _ _ s tt s' (conj (redrawn_refl s) eq_refl) Hrect)).
    intros x s1 r s1' Hx%elem_of_range [Hred Hpix] Hl.
    split; [exact (plot_redrawn (fun _ : Z => x) (fun k : Z => k) c s
                     _ _ _ _ Hred Hl) |].
    rewrite <- Hpix.
    apply (plot_leaves_pixel (fun _ : Z => x) (fun k : Z => k) c s a b
             (Py.range (Z.min y1 y2) (Z.max y1 y2 + 1)) s1 r s1' Hal Ha Hb);
      [| exact Hred | exact Hl].
    intros k Hk%elem_of_range. split; [lia |]. split; [lia |].
    intros [= -> ->]. apply Hout. unfold in_rectangle. lia.
Qed.

Lemma rectangle_solid_on_panel_witness :
  on_panel (with_penSolid true (panel 2 8 [0; 0]))
  /\ exists s',
       rectangle 1 0 3 1 Colour.BLACK (with_penSolid true (panel 2 8 [0; 0]))
       = Return tt s'
       /\ on_panel s'
       /\ forall a b, 0 <= a -> 0 <= b ->
            (in_rectangle 1 0 3 1 a b ->
             rejected (with_penSolid true (panel 2 8 [0; 0])) a b = false ->
             pixel_bit s' a b
             = Some (ink (with_penSolid true (panel 2 8 [0; 0])) Colour.BLACK))
            /\ (~ in_rectangle 1 0 3 1 a b ->
                pixel_bit s' a b
                = pixel_bit (with_penSolid true (panel 2 8 [0; 0])) a b).
Proof.
  assert (Hpan : on_panel (with_penSolid true (panel 2 8 [0; 0])))
    by exact on_panel_panel_2x8.
  split; [exact Hpan |].
  apply (rectangle_solid_on_panel (with_penSolid true (panel 2 8 [0; 0]))
           1 0 3 1 Colour.BLACK Hpan);
    [reflexivity | lia | lia | lia | lia | left; reflexivity].
Defined.

(** X12. An outline rectangle in BLACK or WHITE with non-negative
    corners, on a panel: the call returns; every accepted pixel of the
    border shows the colour's ink; every non-negative coordinate off the
    border - inside or outside - keeps its pixel. *)
Theorem rectangle_outline_on_panel :
  forall (s : Screen) (x1 y1 x2 y2 c : Z),
    on_panel s -> _penSolid s = false ->
    0 <= x1 -> 0 <= y1 -> 0 <= x2 -> 0 <= y2 ->
    c = Colour.BLACK \/ c = Colour.WHITE ->
    exists s',
      rectangle x1 y1 x2 y2 c s = Return tt s'
      /\ on_panel s'
      /\ forall a b, 0 <= a -> 0 <= b ->
           (on_border x1 y1 x2 y2 a b -> rejected s a b = false ->
            pixel_bit s' a b = Some (ink s c))
           /\ (~ on_border x1 y1 x2 y2 a b ->
               pixel_bit s' a b = pixel_bit s a b).
Proof.
  intros s x1 y1 x2 y2 c Hpan Hpen Hx1 Hy1 Hx2 Hy2 Hc.
  rewrite rectangle_outline by exact Hpen.
  set (ys := Py.range (Z.min y1 y2) (Z.max y1 y2 + 1)).
  set (xs := Py.range (Z.min x1 x2) (Z.max x1 x2 + 1)).
  assert (Hys : forall k, k ∈ ys <-> Z.min y1 y2 <= k <= Z.max y1 y2)
    by (intros k; subst ys; rewrite elem_of_range; lia).
  assert (Hxs : forall k, k ∈ xs <-> Z.min x1 x2 <= k <= Z.max x1 x2)
    by (intros k; subst xs; rewrite elem_of_range; lia).
  (* the four loops, one after the other *)
  destruct (plot_returns (fun _ : Z => x1) (fun k : Z => k) c ys s Hpan)
    as (s1 & Hl1 & Hp1); [intros k Hk%Hys; lia |].
  destruct (plot_returns (fun k : Z => k) (fun _ : Z => y1) c xs s1 Hp1)
    as (s2 & Hl2 & Hp2); [intros k Hk%Hxs; lia |].
  destruct (plot_returns (fun k : Z => k) (fun _ : Z => y2) c xs s2 Hp2)
    as (s3 & Hl3 & Hp3); [intros k Hk%Hxs; lia |].
  destruct (plot_returns (fun _ : Z => x2) (fun k : Z => k) c ys s3 Hp3)
    as (s4 & Hl4 & Hp4); [intros k Hk%Hys; lia |].
  cbv beta in Hl1, Hl2, Hl3, Hl4.
  exists s4. split.
  { unfold bind. rewrite line_vertical. fold ys. rewrite Hl1.
    rewrite line_horizontal. fold xs. rewrite Hl2.
    rewrite line_horizontal. fold xs. rewrite Hl3.
    rewrite line_vertical. fold ys. exact Hl4. }
  split; [exact Hp4 |].
  pose proof (plot_redrawn (fun _ : Z => x1) (fun k : Z => k) c s
                _ _ _ _ (redrawn_refl s) Hl1) as Hr1.
  pose proof (plot_redrawn (fun k : Z => k) (fun _ : Z => y1) c s
                _ _ _ _ Hr1 Hl2) as Hr2.
  pose proof (plot_redrawn (fun k : Z => k) (fun _ : Z => y2) c s
                _ _ _ _ Hr2 Hl3) as Hr3.
  intros a b Ha Hb. split.
  - intros [[Hina Hinb] Hside] Hacc.
    assert (H1 : a = x1 -> pixel_bit s1 a b = Some (ink s c)).
    { intros ->.
      apply (plot_sets_ink (fun _ : Z => x1) (fun k : Z => k) c s x1 b
               ys s tt s1 b Hc (redrawn_refl s)); auto. now apply Hys. }
    assert (H2 : a = x1 \/ b = y1 -> pixel_bit s2 a b = Some (ink s c)).
    { intros [Hx | ->].
      - apply (plot_keeps_ink (fun k : Z => k) (fun _ : Z => y1) c s a b
                 xs s1 tt s2 Hc Hr1); auto.
      - apply (plot_sets_ink (fun k : Z => k) (fun _ : Z => y1) c s a y1
                 xs s1 tt s2 a Hc Hr1); auto. now apply Hxs. }
    assert (H3 : a = x1 \/ b = y1 \/ b = y2 ->
                 pixel_bit s3 a b = Some (ink s c)).
    { intros [Hx | [Hy | ->]].
      - apply (plot_keeps_ink (fun k : Z => k) (fun _ : Z => y2) c s a b
                 xs s2 tt s3 Hc Hr2); auto.
      - apply (plot_keeps_ink (fun k : Z => k) (fun _ : Z => y2) c s a b
                 xs s2 tt s3 Hc Hr2); auto.
      - apply (plot_sets_ink (fun k : Z => k) (fun _ : Z => y2) c s a y2
                 xs s2 tt s3 a Hc Hr2); auto. now apply Hxs. }
    destruct (Z.eq_dec a x2) as [-> | Hne2].
    + apply (plot_sets_ink (fun _ : Z => x2) (fun k : Z => k) c s x2 b
               ys s3 tt s4 b Hc Hr3); auto. now apply Hys.
    + apply (plot_keeps_ink (fun _ : Z => x2) (fun k : Z => k) c s a b
               ys s3 tt s4 Hc Hr3); auto. apply H3. tauto.
  - intros Hoff. destruct Hpan as (_ & Hal & _).
    assert (Hnot : forall u v, in_rectangle x1 y1 x2 y2 u v ->
              u = x1 \/ u = x2 \/ v = y1 \/ v = y2 -> (u, v) <> (a, b)).
    { intros u v Hin Hside [= -> ->]. apply Hoff. split; assumption. }
    unfold in_rectangle in Hnot.
    rewrite (plot_leaves_pixel (fun _ : Z => x2) (fun k : Z => k) c s a b
               ys s3 tt s4 Hal Ha Hb); [| | exact Hr3 | exact Hl4].
    2:{ intros k Hk%Hys. split; [lia |]. split; [lia |].
        apply Hnot; [lia | tauto]. }
    rewrite (plot_leaves_pixel (fun k : Z => k) (fun _ : Z => y2) c s a b
               xs s2 tt s3 Hal Ha Hb); [| | exact Hr2 | exact Hl3].
    2:{ intros k Hk%Hxs. split; [lia |]. split; [lia |].
        apply Hnot; [lia | tauto]. }
    rewrite (plot_leaves_pixel (fun k : Z => k) (fun _ : Z => y1) c s a b
               xs s1 tt s2 Hal Ha Hb); [| | exact Hr1 | exact Hl2].
    2:{ intros k Hk%Hxs. split; [lia |]. split; [lia |].
        apply Hnot; [lia | tauto]. }
    apply (plot_leaves_pixel (fun _ : Z => x1) (fun k : Z => k) c s a b
             ys s tt s1 Hal Ha Hb); [| exact (redrawn_refl s) | exact Hl1].
    intros k Hk%Hys. split; [lia |]. split; [lia |].
    apply Hnot; [lia | tauto].
Qed.

Lemma rectangle_outline_on_panel_witness :
  on_panel (panel 2 8 [0; 0])
  /\ exists s',
       rectangle 1 0 3 1 Colour.BLACK (panel 2 8 [0; 0]) = Return tt s'
       /\ on_panel s'
       /\ forall a b, 0 <= a -> 0 <= b ->
            (on_border 1 0 3 1 a b ->
             rejected (panel 2 8 [0; 0]) a b = false ->
             pixel_bit s' a b = Some (ink (panel 2 8 [0; 0]) Colour.BLACK))
            /\ (~ on_border 1 0 3 1 a b ->
                pixel_bit s' a b = pixel_bit (panel 2 8 [0; 0]) a b).
Proof.
  split; [exact on_panel_panel_2x8 |].
  apply (rectangle_outline_on_panel (panel 2 8 [0; 0]) 1 0 3 1 Colour.BLACK
           on_panel_panel_2x8);
    [reflexivity | lia | lia | lia | lia | left; reflexivity].
Defined.

(** ** Clearing *)

Lemma clear_fill_run (pattern : Z -> Z) s :
  well_sized s ->
  (forall i, is_byte (pattern i)) ->
  exists img,
    clear_fill pattern s = Return tt (with_newImage img s)
    /\ length img = length (_newImage s)
    /\ forall z, 0 <= z < _bufferSizeV s * _bufferSizeH s ->
         img !! Z.to_nat z = Some (pattern (z / _bufferSizeH s)).
Proof.
  intros (HV & HH & HbV & HbH & Hlen & _) Hpat.
  assert (HbH0 : 0 <= _bufferSizeH s) by (rewrite HbH; now apply Z.shiftr_nonneg).
  set (bH := _bufferSizeH s) in *. set (bV := _bufferSizeV s) in *.
  set (I := fun k s1 => exists img,
              s1 = with_newImage img s
              /\ length img = length (_newImage s)
              /\ forall z, 0 <= z < k ->
                   img !! Z.to_nat z = Some (pattern (z / bH))).
  assert (Hstep : forall i j s1, 0 <= i < bV -> 0 <= j < bH ->
            I (i * bH + j) s1 ->
            exists r s1',
              bind self (fun s2 =>
                newImage_set (i * _bufferSizeH s2 + j) (pattern i)) s1
              = Return r s1'
              /\ I (i * bH + j + 1) s1').
  { intros i j s1 Hi Hj (img & -> & Hl & Hfill).
    rewrite bind_self. unfold newImage_set. cbn [_bufferSizeH _newImage
      with_newImage]. fold bH.
    assert (Hz : 0 <= i * bH + j < Z.of_nat (length img)) by (rewrite Hl; nia).
    unfold Py.setitem, Py.index.
    destruct (Z.leb_spec 0 (i * bH + j)); [| lia].
    destruct (Z.ltb_spec (i * bH + j) (Z.of_nat (length img))); [| lia].
    cbn [andb]. destruct (Hpat i) as [Hp0 Hp1].
    destruct (Z.leb_spec 0 (pattern i)); [| lia].
    destruct (Z.ltb_spec (pattern i) 256); [| lia]. cbn [andb].
    eexists. eexists. split; [reflexivity |].
    eexists. split; [reflexivity |]. split; [now rewrite length_insert |].
    intros z Hzr. destruct (Z.eq_dec z (i * bH + j)) as [-> | Hne].
    - rewrite list_lookup_insert_eq by lia. f_equal. f_equal.
      apply (Z.div_unique_pos _ _ i j); lia.
    - rewrite list_lookup_insert_ne by lia. apply Hfill. lia. }
  assert (Hrow : forall i s1, 0 <= i < bV -> I (i * bH) s1 ->
            exists r s1',
              bind self (fun s2 =>
                for_each (Py.range 0 (_bufferSizeH s2)) (fun j =>
                  bind self (fun s3 =>
                    newImage_set (i * _bufferSizeH s3 + j) (pattern i)))) s1
              = Return r s1'
              /\ I ((i + 1) * bH) s1').
  { intros i s1 Hi HI. rewrite bind_self.
    assert (Hb1 : _bufferSizeH s1 = bH)
      by (destruct HI as (img & -> & _); reflexivity).
    rewrite Hb1.
    destruct (for_each_range_inv (fun j => I (i * bH + j)) 0 bH
                (fun j => bind self (fun s3 =>
                   newImage_set (i * _bufferSizeH s3 + j) (pattern i)))
                HbH0) with (s := s1) as (s1' & Hl & HI').
    - intros j s2 Hj HI2.
      replace (i * bH + (j + 1)) with (i * bH + j + 1) by lia.
      apply Hstep; [lia | lia | exact HI2].
    - now rewrite Z.add_0_r.
    - exists tt, s1'. split; [exact Hl |].
      replace ((i + 1) * bH) with (i * bH + bH) by lia. exact HI'. }
  unfold clear_fill. rewrite bind_self. fold bV.
  assert (HbV0 : 0 <= bV) by (subst bV; lia).
  match goal with
  | |- context [for_each (Py.range 0 bV) ?body s] =>
      destruct (for_each_range_inv (fun i => I (i * bH)) 0 bV body HbV0)
        with (s := s) as (s' & Hl & (img & -> & Hlen' & Hfill))
  end.
  - intros i s1 Hi HI. apply Hrow; [lia | exact HI].
  - exists (_newImage s). split; [symmetry; apply with_newImage_same |].
    split; [reflexivity |]. intros z Hz. lia.
  - exists img. split; [exact Hl |]. split; [exact Hlen' |]. exact Hfill.
Qed.

Lemma is_byte_clear_byte s c i : is_byte (clear_byte s c i).
Proof.
  unfold clear_byte, is_byte.
  repeat match goal with |- context [if ?b then _ else _] => destruct b end;
    lia.
Qed.

(** On a Screen sized as [__init__] sizes it, [clear(colour)] returns,
    leaves the length of the plane and everything but the plane as they
    were, and every item of row [i] holds the colour's byte. *)
Lemma clear_fills_plane :
  forall (s : Screen) (colour : Z),
    well_sized s ->
    exists img,
      clear colour s = Return tt (with_newImage img s)
      /\ length img = length (_newImage s)
      /\ forall i j, 0 <= i < _bufferSizeV s -> 0 <= j < _bufferSizeH s ->
           Py.getitem img (i * _bufferSizeH s + j)
           = inr (clear_byte s colour i).
Proof.
  intros s colour Hws.
  assert (Hrun : exists img,
            clear colour s = Return tt (with_newImage img s)
            /\ length img = length (_newImage s)
            /\ forall z, 0 <= z < _bufferSizeV s * _bufferSizeH s ->
                 img !! Z.to_nat z
                 = Some (clear_byte s colour (z / _bufferSizeH s))).
  { unfold clear, clear_byte. rewrite bind_self.
    destruct (colour =? Colour.GREY);
      [| destruct (xorb (colour =? Colour.WHITE) (_invert s))].
    - apply (clear_fill_run (fun i => if i mod 2 =? 0 then 0xaa else 0x55));
        [exact Hws |].
      intros i. unfold is_byte. destruct (i mod 2 =? 0); lia.
    - apply (clear_fill_run (fun _ => 0x00)); [exact Hws |].
      intros _. unfold is_byte. lia.
    - apply (clear_fill_run (fun _ => 0xff)); [exact Hws |].
      intros _. unfold is_byte. lia. }
  destruct Hrun as (img & Hc & Hlen & Hfill). exists img.
  split; [exact Hc |]. split; [exact Hlen |].
  intros i j Hi Hj.
  destruct Hws as (_ & _ & _ & _ & Hl & _).
  assert (Hz : 0 <= i * _bufferSizeH s + j < _bufferSizeV s * _bufferSizeH s)
    by nia.
  unfold Py.getitem, Py.index. rewrite Hlen, Hl.
  destruct (Z.leb_spec 0 (i * _bufferSizeH s + j)); [| lia].
  destruct (Z.ltb_spec (i * _bufferSizeH s + j)
              (_bufferSizeV s * _bufferSizeH s)); [| lia].
  cbn [andb]. rewrite (Hfill _ Hz). f_equal. f_equal.
  symmetry. apply (Z.div_unique_pos _ _ i j); lia.
Qed.

Lemma well_sized_panel_2x8 : well_sized (panel 2 8 [0; 0]).
Proof. exact (proj1 on_panel_panel_2x8). Defined.

Lemma testbit_clear_byte s c x1 t m :
  0 <= m < 8 -> t = 7 - m ->
  Z.testbit (clear_byte s c x1) t
  = if c =? Colour.GREY then (x1 + m) mod 2 =? 0
    else negb (xorb (c =? Colour.WHITE) (_invert s)).
Proof.
  intros Hm ->. unfold clear_byte.
  assert (Hcases : m = 0 \/ m = 1 \/ m = 2 \/ m = 3 \/ m = 4 \/ m = 5
                   \/ m = 6 \/ m = 7) by lia.
  destruct (c =? Colour.GREY).
  - assert (Hx : x1 mod 2 = 0 \/ x1 mod 2 = 1)
      by (pose proof (Z.mod_pos_bound x1 2 ltac:(lia)); lia).
    rewrite (Z.add_mod x1 m 2) by lia.
    destruct Hx as [-> | ->];
      destruct Hcases as [-> | [-> | [-> | [-> | [-> | [-> | [-> | ->]]]]]]];
      reflexivity.
  - destruct (xorb (c =? Colour.WHITE) (_invert s));
      destruct Hcases as [-> | [-> | [-> | [-> | [-> | [-> | [-> | ->]]]]]]];
      reflexivity.
Qed.

(** X13. [clear(colour)] on a panel returns and leaves a panel that
    differs in the current plane only. Every item of row [i] of the plane
    then holds the colour's byte: [0x00] or [0xff] for a plain colour
    according to the invert flag, [0xaa] / [0x55] on even / odd rows for
    GREY. So every accepted non-negative coordinate shows the colour: the
    ink of BLACK or WHITE, and for GREY the checkerboard that sets the
    pixels whose buffer coordinates have an even sum. *)
Theorem clear_then_pixels :
  forall (s : Screen) (colour : Z),
    on_panel s ->
    exists img,
      clear colour s = Return tt (with_newImage img s)
      /\ on_panel (with_newImage img s)
      /\ (forall i j, 0 <= i < _bufferSizeV s -> 0 <= j < _bufferSizeH s ->
            Py.getitem img (i * _bufferSizeH s + j)
            = inr (clear_byte s colour i))
      /\ forall a b, 0 <= a -> 0 <= b -> rejected s a b = false ->
           pixel_bit (with_newImage img s) a b
           = Some (clear_bit s colour a b).
Proof.
  intros s colour Hpan.
  destruct (clear_fills_plane s colour (proj1 Hpan))
    as (img & Hclear & Hlen & Hfill).
  exists img. split; [exact Hclear |]. split.
  { apply (on_panel_same_shape s); [exact Hpan |].
    pose proof (keeps_shape_clear s colour s
                  (same_shape_refl s (on_panel_bytes s Hpan))) as Hk.
    rewrite Hclear in Hk. exact Hk. }
  split; [exact Hfill |].
  intros a b Ha Hb Hacc. rewrite pixel_bit_eq. unfold clear_bit, rejected in *.
  change (orientCoordinates (with_newImage img s) a b)
    with (orientCoordinates s a b).
  destruct (orientCoordinates s a b) as [[flag x1] y1] eqn:Ho.
  cbn [fst] in Hacc. subst flag.
  destruct (accepted_in_panel _ _ _ _ _ Ha Hb Ho) as [Hx1 Hy1].
  destruct Hpan as ((HV & HH & HbV & HbH & Hl & _) & Hal & _).
  unfold byte_aligned in Hal.
  change (getZT (with_newImage img s) x1 y1) with (getZT s x1 y1).
  unfold getZT, bit_at. cbn [fst snd _newImage with_newImage].
  rewrite Z.shiftr_div_pow2 by lia. change (2 ^ 3) with 8.
  assert (Hq : 0 <= y1 / 8 < _bufferSizeH s)
    by (split; [apply Z.div_pos; lia | apply Z.div_lt_upper_bound; lia]).
  rewrite (Hfill x1 (y1 / 8)) by lia. f_equal.
  pose proof (Z.mod_pos_bound y1 8 ltac:(lia)) as Hm.
  rewrite (testbit_clear_byte s colour x1 _ (y1 mod 8) Hm eq_refl).
  destruct (colour =? Colour.GREY); [| reflexivity].
  replace ((x1 + y1 mod 8) mod 2) with ((x1 + y1) mod 2); [reflexivity |].
  pose proof (Z.div_mod y1 8 ltac:(lia)).
  rewrite (Z.div_mod y1 8) at 1 by lia.
  replace (x1 + (8 * (y1 / 8) + y1 mod 8))
    with (x1 + y1 mod 8 + (4 * (y1 / 8)) * 2) by lia.
  apply Z.mod_add. lia.
Qed.

Lemma clear_then_pixels_witness :
  on_panel (panel 2 8 [0; 0])
  /\ exists img,
       clear Colour.GREY (panel 2 8 [0; 0])
       = Return tt (with_newImage img (panel 2 8 [0; 0]))
       /\ on_panel (with_newImage img (panel 2 8 [0; 0]))
       /\ (forall i j, 0 <= i < _bufferSizeV (panel 2 8 [0; 0]) ->
             0 <= j < _bufferSizeH (panel 2 8 [0; 0]) ->
             Py.getitem img (i * _bufferSizeH (panel 2 8 [0; 0]) + j)
             = inr (clear_byte (panel 2 8 [0; 0]) Colour.GREY i))
       /\ forall a b, 0 <= a -> 0 <= b ->
            rejected (panel 2 8 [0; 0]) a b = false ->
            pixel_bit (with_newImage img (panel 2 8 [0; 0])) a b
            = Some (clear_bit (panel 2 8 [0; 0]) Colour.GREY a b).
Proof.
  split; [exact on_panel_panel_2x8 |].
  exact (clear_then_pixels (panel 2 8 [0; 0]) Colour.GREY
           on_panel_panel_2x8).
Defined.

(** ** Waiting for the panel *)

Lemma waitBusy_ready_at n : forall s j,
  (j < n)%nat ->
  busy_pin (board s) (polls (board s) + j)%nat = 1 ->
  (forall i, (i < j)%nat -> busy_pin (board s) (polls (board s) + i)%nat <> 1) ->
  waitBusy n s
  = Return tt
      (with_board
         {| wire := wire (board s)
                    ++ wait_events (busy_pin (board s)) (polls (board s)) j;
            busy_pin := busy_pin (board s);
            polls := (polls (board s) + j + 1)%nat |} s).
Proof.
  induction n as [| n IH]; intros s j Hj Hready Hnot; [lia |].
  cbn [waitBusy]. unfold bind at 1. cbn [busy_value].
  destruct j as [| j].
  - rewrite Nat.add_0_r in Hready. rewrite Hready. cbn [Z.eqb Pos.eqb negb].
    unfold ret. cbn [wait_events]. rewrite Nat.add_0_r, Hready.
    replace (polls (board s) + 1)%nat with (S (polls (board s))) by lia.
    reflexivity.
  - assert (Hne : busy_pin (board s) (polls (board s)) <> 1).
    { specialize (Hnot O ltac:(lia)). now rewrite Nat.add_0_r in Hnot. }
    destruct (Z.eqb_spec (busy_pin (board s) (polls (board s))) 1);
      [contradiction |]. cbn [negb].
    unfold bind, sleep_ms, assign.
    rewrite (IH _ j); cbn [board with_board log wire busy_pin polls].
    + cbn [wait_events]. rewrite <- !app_assoc. cbn [app].
      replace (S (polls (board s)) + j + 1)%nat
        with (polls (board s) + S j + 1)%nat by lia.
      reflexivity.
    + lia.
    + rewrite <- Hready. f_equal. lia.
    + intros i Hi. specialize (Hnot (S i) ltac:(lia)).
      replace (S (polls (board s)) + i)%nat
        with (polls (board s) + S i)%nat by lia. exact Hnot.
Qed.

Lemma waitBusy_never_ready n : forall s,
  (forall i, (i < n)%nat -> busy_pin (board s) (polls (board s) + i)%nat <> 1) ->
  exists s', waitBusy n s = Blocked s'
             /\ polls (board s') = (polls (board s) + n)%nat
             /\ quiet_step s s'.
Proof.
  induction n as [| n IH]; intros s Hnot.
  - exists s. split; [reflexivity |]. split; [lia | apply quiet_step_refl].
  - cbn [waitBusy]. unfold bind at 1. cbn [busy_value].
    assert (Hne : busy_pin (board s) (polls (board s)) <> 1).
    { specialize (Hnot O ltac:(lia)). now rewrite Nat.add_0_r in Hnot. }
    destruct (Z.eqb_spec (busy_pin (board s) (polls (board s))) 1);
      [contradiction |]. cbn [negb].
    unfold bind, sleep_ms, assign.
    match goal with |- context [waitBusy n ?s1] =>
      destruct (IH s1) as (s' & Hw & Hp & Hq) end.
    + cbn [board with_board log wire busy_pin polls]. intros i Hi.
      specialize (Hnot (S i) ltac:(lia)).
      replace (S (polls (board s)) + i)%nat
        with (polls (board s) + S i)%nat by lia. exact Hnot.
    + exists s'. rewrite Hw. split; [reflexivity |]. split.
      * rewrite Hp. cbn [board with_board log wire busy_pin polls]. lia.
      * eapply quiet_step_trans; [| exact Hq].
        exists [BusyRead (busy_pin (board s) (polls (board s))); Sleep 32],
          (S (polls (board s))).
        split; [| not_image_write].
        unfold log, with_board. cbn. rewrite <- app_assoc. reflexivity.
Qed.

(** X14. [__waitBusy] polls until the first reading of 1: if that is the
    [j]-th reading from now and [j < n], it returns after [j] sleeps of
    32 ms with exactly those readings and sleeps on the wire; if none of
    the next [n] readings is 1 it is still waiting after [n] polls,
    whatever [n] is - the loop has no other exit. *)
Theorem waitBusy_polls_until_ready :
  forall (n : nat) (s : Screen),
    (forall j,
       (j < n)%nat ->
       busy_pin (board s) (polls (board s) + j)%nat = 1 ->
       (forall i, (i < j)%nat ->
                  busy_pin (board s) (polls (board s) + i)%nat <> 1) ->
       waitBusy n s
       = Return tt
           (with_board
              {| wire := wire (board s)
                         ++ wait_events (busy_pin (board s))
                              (polls (board s)) j;
                 busy_pin := busy_pin (board s);
                 polls := (polls (board s) + j + 1)%nat |} s))
    /\ ((forall i, (i < n)%nat ->
                   busy_pin (board s) (polls (board s) + i)%nat <> 1) ->
        exists s', waitBusy n s = Blocked s'
                   /\ polls (board s') = (polls (board s) + n)%nat).
Proof.
  intros n s. split.
  - intros j. apply waitBusy_ready_at.
  - intros Hnot. destruct (waitBusy_never_ready n s Hnot) as (s' & Hw & Hp & _).
    eauto.
Qed.

Lemma waitBusy_polls_until_ready_witness :
  (exists s', waitBusy 1 (panel 2 8 [0; 0]) = Return tt s')
  /\ exists s',
       waitBusy 2
         (with_board {| wire := []; busy_pin := fun _ => 0; polls := O |}
            (panel 2 8 [0; 0])) = Blocked s'
       /\ polls (board s') = 2%nat.
Proof.
  split.
  - eexists.
    apply (proj1 (waitBusy_polls_until_ready 1 (panel 2 8 [0; 0])) O);
      [lia | reflexivity | intros i Hi; lia].
  - apply (proj2 (waitBusy_polls_until_ready 2
                    (with_board
                       {| wire := []; busy_pin := fun _ => 0; polls := O |}
                       (panel 2 8 [0; 0])))).
    intros i _. cbn. discriminate.
Defined.

(** ** The wire of a flush *)

Lemma after_traffic_after evs1 k1 evs2 k2 s :
  after_traffic evs2 k2 (after_traffic evs1 k1 s)
  = after_traffic (evs1 ++ evs2) k2 s.
Proof.
  unfold after_traffic, with_board. cbn. now rewrite <- app_assoc.
Qed.

Lemma emit_after evs1 k1 evs2 s :
  emit evs2 (after_traffic evs1 k1 s) = after_traffic (evs1 ++ evs2) k1 s.
Proof. unfold emit, after_traffic, with_board. cbn. now rewrite <- app_assoc. Qed.

Lemma emit_is_after evs s : emit evs s = after_traffic evs (polls (board s)) s.
Proof. reflexivity. Qed.

Lemma after_traffic_oldImage evs k o s :
  after_traffic evs k (with_oldImage o s)
  = with_oldImage o (after_traffic evs k s).
Proof. reflexivity. Qed.

Lemma emit_oldImage evs o s :
  emit evs (with_oldImage o s) = with_oldImage o (emit evs s).
Proof. reflexivity. Qed.

Lemma transfer_events_after evs k s :
  transfer_events (after_traffic evs k s) = transfer_events s.
Proof. reflexivity. Qed.

Lemma newImage_after evs k s :
  _newImage (after_traffic evs k s) = _newImage s.
Proof. reflexivity. Qed.

Lemma waitBusy_Return_log n : forall s s',
  waitBusy n s = Return tt s' ->
  exists w k, s' = after_traffic w k s /\ Forall poll_event w.
Proof.
  induction n as [| n IH]; intros s s'; cbn [waitBusy]; [discriminate |].
  unfold bind at 1. cbn [busy_value].
  set (v := busy_pin (board s) (polls (board s))).
  destruct (negb (v =? 1)).
  - unfold bind, sleep_ms, assign. intros Hw.
    destruct (IH _ _ Hw) as (w & k & -> & Hpoll).
    exists (BusyRead v :: Sleep 32 :: w), k. split.
    + unfold after_traffic, log, with_board. cbn.
      rewrite <- !app_assoc. reflexivity.
    + constructor; [left; eauto |]. constructor; [right; reflexivity |].
      exact Hpoll.
  - intros [= <-]. exists [BusyRead v], (S (polls (board s))).
    split; [reflexivity |]. constructor; [left; eauto | constructor].
Qed.

Lemma flush_wire n s s' :
  flush n s = Return tt s' ->
  exists w1 w2 w3 w4 k,
    s' = with_oldImage (_newImage s)
           (after_traffic (flush_events s w1 w2 w3 w4) k s)
    /\ Forall poll_event w1 /\ Forall poll_event w2
    /\ Forall poll_event w3 /\ Forall poll_event w4.
Proof.
  unfold flush, COG_initial, COG_update, COG_powerOff. intros Hf.
  repeat match type of Hf with
    | bind _ _ _ = Return _ _ =>
        let u := fresh "u" in let s1 := fresh "s" in
        let H := fresh "Hstep" in
        apply bind_Return_inv in Hf; destruct Hf as (u & s1 & H & Hf)
    end.
  repeat match goal with
    | H : bind _ _ _ = Return _ _ |- _ =>
        let u := fresh "u" in let s1 := fresh "s" in
        let H1 := fresh "Hstep" in
        apply bind_Return_inv in H; destruct H as (u & s1 & H1 & H)
    end.
  repeat match goal with
    | H : sendIndexData _ _ _ _ = Return _ _ |- _ =>
        rewrite sendIndexData_run in H; injection H as <-
    | H : sendCommand8 _ _ = Return _ _ |- _ =>
        rewrite sendCommand8_run in H; injection H as <-
    | H : pin_value _ _ _ = Return _ _ |- _ =>
        unfold pin_value, assign in H; rewrite log_emit in H;
        injection H as <-
    | H : COG_sendImageDataFast _ = Return _ _ |- _ =>
        rewrite COG_sendImageDataFast_run in H; injection H as <-
    | H : waitBusy _ _ = Return ?u _ |- _ =>
        destruct u; apply waitBusy_Return_log in H;
        let w := fresh "w" in let k := fresh "k" in
        let Hp := fresh "Hpoll" in
        destruct H as (w & k & -> & Hp)
    end.
  subst.
  rewrite (emit_is_after _ s).
  repeat first
    [ rewrite emit_after
    | rewrite after_traffic_after
    | rewrite emit_oldImage
    | rewrite after_traffic_oldImage
    | rewrite transfer_events_after
    | rewrite newImage_after ].
  exists w2, w1, w0, w, k.
  split.
  - f_equal. f_equal. unfold flush_events.
    change (Z.lor 25 64) with 0x59. change (Z.lor 207 16) with 0xdf.
    change (Z.lor 141 2) with 0x8f.
    rewrite <- !app_assoc. reflexivity.
  - repeat split; assumption.
Qed.

Lemma poll_log_skipped w rest :
  Forall poll_event w ->
  (forall dc, tagged_writes dc (w ++ rest) = tagged_writes dc rest)
  /\ (forall cs, selected_writes cs (w ++ rest) = selected_writes cs rest).
Proof.
  induction 1 as [| e w He _ [IHt IHs]]; [split; reflexivity |].
  destruct He as [[v ->] | ->]; split; intros; cbn; auto.
Qed.

Lemma tagged_indexData dc index data rest :
  tagged_writes dc (indexData_events index data ++ rest)
  = (0, [index]) :: (1, data) :: tagged_writes 1 rest.
Proof. reflexivity. Qed.

Lemma tagged_command8 dc command rest :
  tagged_writes dc (command8_events command ++ PinWrite CS 1 :: rest)
  = (0, [command]) :: tagged_writes 0 rest.
Proof. reflexivity. Qed.

Lemma selected_indexData cs index data rest :
  selected_writes cs (indexData_events index data ++ rest)
  = selected_writes 1 rest.
Proof. reflexivity. Qed.

Lemma selected_command8 cs command rest :
  selected_writes cs (command8_events command ++ PinWrite CS 1 :: rest)
  = selected_writes 1 rest.
Proof. reflexivity. Qed.

Lemma flush_events_writes s w1 w2 w3 w4 dc cs :
  Forall poll_event w1 -> Forall poll_event w2 ->
  Forall poll_event w3 -> Forall poll_event w4 ->
  tagged_writes dc (flush_events s w1 w2 w3 w4)
  = update_writes (_oldImage s) (_newImage s)
  /\ selected_writes cs (flush_events s w1 w2 w3 w4) = Some 1.
Proof.
  intros H1 H2 H3 H4. unfold flush_events, transfer_events.
  rewrite <- (app_nil_r w4).
  destruct (poll_log_skipped w4 [] H4) as [Ht4 Hs4].
  split.
  - rewrite tagged_indexData, (proj1 (poll_log_skipped w1 _ H1)).
    rewrite <- !app_assoc. rewrite !tagged_indexData.
    cbn [app]. rewrite tagged_command8, (proj1 (poll_log_skipped w2 _ H2)).
    rewrite tagged_command8, (proj1 (poll_log_skipped w3 _ H3)).
    rewrite tagged_command8, Ht4. reflexivity.
  - rewrite selected_indexData, (proj2 (poll_log_skipped w1 _ H1)).
    rewrite <- !app_assoc. rewrite !selected_indexData.
    cbn [app]. rewrite selected_command8, (proj2 (poll_log_skipped w2 _ H2)).
    rewrite selected_command8, (proj2 (poll_log_skipped w3 _ H3)).
    rewrite selected_command8, Hs4. reflexivity.
Qed.

(** X15. The bus traffic of a flush does not depend on how long the panel
    stays busy: whenever [flush] returns, the bytes it wrote are the
    fifteen writes of one panel update - index and command bytes on the
    command level, payloads on the data level, the previous plane under
    index 0x10 and the current plane under 0x13 - every byte was written
    with the device selected, the device ends deselected, and the
    previous plane is now the current one. *)
Theorem flush_bus_writes :
  forall (n : nat) (s s' : Screen) (dc cs : Z),
    flush n s = Return tt s' ->
    exists evs,
      wire (board s') = wire (board s) ++ evs
      /\ tagged_writes dc evs = update_writes (_oldImage s) (_newImage s)
      /\ selected_writes cs evs = Some 1
      /\ _oldImage s' = _newImage s
      /\ _newImage s' = _newImage s.
Proof.
  intros n s s' dc cs Hf.
  destruct (flush_wire n s s' Hf)
    as (w1 & w2 & w3 & w4 & k & -> & H1 & H2 & H3 & H4).
  exists (flush_events s w1 w2 w3 w4).
  destruct (flush_events_writes s w1 w2 w3 w4 dc cs H1 H2 H3 H4) as [Ht Hs].
  repeat split; try assumption; reflexivity.
Qed.

Lemma flush_bus_writes_witness :
  exists s',
    flush 1 (panel 2 8 [0; 0]) = Return tt s'
    /\ exists evs,
         wire (board s') = wire (board (panel 2 8 [0; 0])) ++ evs
         /\ tagged_writes 1 evs = update_writes [0; 0] [0; 0]
         /\ selected_writes 1 evs = Some 1
         /\ _oldImage s' = [0; 0]
         /\ _newImage s' = [0; 0].
Proof.
  eexists. split; [vm_compute; reflexivity |].
  apply (flush_bus_writes 1 (panel 2 8 [0; 0]) _ 1 1).
  vm_compute. reflexivity.
Defined.

Lemma waitBusy_Blocked_log n : forall s s',
  waitBusy n s = Blocked s' ->
  exists w k, s' = after_traffic w k s /\ Forall poll_event w.
Proof.
  induction n as [| n IH]; intros s s'; cbn [waitBusy].
  - intros [= <-]. exists [], (polls (board s)). split; [| constructor].
    unfold after_traffic, with_board.
    destruct s as [? ? ? ? ? ? ? ? ? ? ? ? ? ? ? ? ? [wr bp pl]]. cbn.
    now rewrite app_nil_r.
  - unfold bind at 1. cbn [busy_value].
    set (v := busy_pin (board s) (polls (board s))).
    destruct (negb (v =? 1)); [| discriminate].
    unfold bind, sleep_ms, assign. intros Hw.
    destruct (IH _ _ Hw) as (w & k & -> & Hpoll).
    exists (BusyRead v :: Sleep 32 :: w), k. split.
    + unfold after_traffic, log, with_board. cbn.
      rewrite <- !app_assoc. reflexivity.
    + constructor; [left; eauto |]. constructor; [right; reflexivity |].
      exact Hpoll.
Qed.

(** X16. Liveness of [flush] lies with the busy line alone. If every wait
    finds the line ready within [n] polls, the flush returns. If the line
    never reads ready, the flush is still in its first wait after any
    number of polls: only the soft reset has been written, nothing of the
    image, and both planes are as they were. *)
Theorem flush_liveness :
  forall (n : nat) (s : Screen) (dc : Z),
    (ready_within n (busy_pin (board s)) ->
     exists s', flush n s = Return tt s')
    /\ ((forall k, busy_pin (board s) k <> 1) ->
        exists s' evs,
          flush n s = Blocked s'
          /\ wire (board s') = wire (board s) ++ evs
          /\ tagged_writes dc evs = [(0, [0x00]); (1, [0x00])]
          /\ _oldImage s' = _oldImage s
          /\ _newImage s' = _newImage s).
Proof.
  intros n s dc. split; [apply flush_returns |].
  intros Hnever. unfold flush, COG_initial.
  unfold bind at 1. unfold bind at 1. rewrite sendIndexData_run.
  unfold bind at 1.
  destruct (waitBusy_never_ready n (emit (indexData_events 0 [0]) s))
    as (s' & Hw & _ & _); [intros i _; apply Hnever |].
  rewrite Hw.
  destruct (waitBusy_Blocked_log _ _ _ Hw) as (w & k & -> & Hpoll).
  eexists. exists (indexData_events 0 [0] ++ w).
  split; [reflexivity |]. split; [| split; [| split; reflexivity]].
  - unfold after_traffic, emit, with_board. cbn. now rewrite <- app_assoc.
  - rewrite tagged_indexData. rewrite <- (app_nil_r w).
    rewrite (proj1 (poll_log_skipped w [] Hpoll)). reflexivity.
Qed.

Lemma flush_liveness_witness :
  (exists s', flush 1 (panel 2 8 [0; 0]) = Return tt s')
  /\ exists s' evs,
       flush 5
         (with_board {| wire := []; busy_pin := fun _ => 0; polls := O |}
            (panel 2 8 [0; 0])) = Blocked s'
       /\ wire (board s') = [] ++ evs
       /\ tagged_writes 0 evs = [(0, [0x00]); (1, [0x00])]
       /\ _oldImage s' = [0; 0]
       /\ _newImage s' = [0; 0].
Proof.
  split.
  - apply (proj1 (flush_liveness 1 (panel 2 8 [0; 0]) 0)).
    intros k. exists O. split; [lia | reflexivity].
  - apply (proj2 (flush_liveness 5
                    (with_board
                       {| wire := []; busy_pin := fun _ => 0; polls := O |}
                       (panel 2 8 [0; 0])) 0)).
    intros k. cbn. discriminate.
Defined.

(** ** Regenerating the panel *)

Lemma tagged_writes_app dc evs1 evs2 :
  tagged_writes dc (evs1 ++ evs2)
  = tagged_writes dc evs1 ++ tagged_writes (dc_end dc evs1) evs2.
Proof.
  revert dc. induction evs1 as [| e evs1 IH]; intros dc; [reflexivity |].
  destruct e as [[| |] v | ms | data | v]; cbn; rewrite ?IH; reflexivity.
Qed.

Lemma wire_emit evs s : wire (board (emit evs s)) = wire (board s) ++ evs.
Proof. reflexivity. Qed.

Lemma wire_after evs k s :
  wire (board (after_traffic evs k s)) = wire (board s) ++ evs.
Proof. reflexivity. Qed.

Lemma wire_oldImage o s : wire (board (with_oldImage o s)) = wire (board s).
Proof. reflexivity. Qed.

Lemma wire_newImage img s : wire (board (with_newImage img s)) = wire (board s).
Proof. reflexivity. Qed.

(** X17. [regenerate] is two panel updates. On a Screen sized as
    [__init__] sizes it, whenever it returns, the bus carried one update
    with the old previous plane and an all-black plane, then one with
    that black plane as previous and an all-white plane as current, and
    both planes end white (black and white as the invert flag has them). *)
Theorem regenerate_two_updates :
  forall (n : nat) (s s' : Screen) (dc : Z),
    well_sized s ->
    regenerate n s = Return tt s' ->
    exists black white evs,
      (forall i j, 0 <= i < _bufferSizeV s -> 0 <= j < _bufferSizeH s ->
         Py.getitem black (i * _bufferSizeH s + j)
         = inr (clear_byte s Colour.BLACK i)
         /\ Py.getitem white (i * _bufferSizeH s + j)
            = inr (clear_byte s Colour.WHITE i))
      /\ wire (board s') = wire (board s) ++ evs
      /\ tagged_writes dc evs
         = update_writes (_oldImage s) black ++ update_writes black white
      /\ _newImage s' = white
      /\ _oldImage s' = white.
Proof.
  intros n s s' dc Hws. unfold regenerate. intros Hr.
  destruct (clear_fills_plane s Colour.BLACK Hws)
    as (black & Hc1 & Hlen1 & Hfill1).
  rewrite (bind_Return _ _ _ _ _ Hc1) in Hr.
  apply bind_Return_inv in Hr. destruct Hr as ([] & s2 & Hf1 & Hr).
  destruct (flush_wire _ _ _ Hf1)
    as (w1 & w2 & w3 & w4 & k & -> & P1 & P2 & P3 & P4).
  unfold bind at 1 in Hr. unfold sleep_ms at 1, assign in Hr.
  rewrite log_emit in Hr.
  match type of Hr with bind (clear _) _ ?st = _ =>
    set (s3 := st) in *;
    assert (Hws3 : well_sized s3)
  end.
  { destruct Hws as (HV & HH & HbV & HbH & Hl & Hold).
    unfold well_sized. subst s3.
    cbn [_screenSizeV _screenSizeH _bufferSizeV _bufferSizeH _newImage
         _oldImage emit with_board with_oldImage after_traffic
         with_newImage].
    rewrite Hlen1. auto 10. }
  destruct (clear_fills_plane s3 Colour.WHITE Hws3)
    as (white & Hc2 & Hlen2 & Hfill2).
  rewrite (bind_Return _ _ _ _ _ Hc2) in Hr.
  apply bind_Return_inv in Hr. destruct Hr as ([] & s5 & Hf2 & Hr).
  destruct (flush_wire _ _ _ Hf2)
    as (v1 & v2 & v3 & v4 & k' & -> & Q1 & Q2 & Q3 & Q4).
  unfold sleep_ms, assign in Hr. rewrite log_emit in Hr.
  injection Hr as <-.
  exists black, white.
  exists (flush_events (with_newImage black s) w1 w2 w3 w4 ++ [Sleep 100]
          ++ flush_events (with_newImage white s3) v1 v2 v3 v4
          ++ [Sleep 100]).
  split; [| split; [| split; [| split; reflexivity]]].
  - intros i j Hi Hj. split; [apply Hfill1; assumption |].
    apply (Hfill2 i j); assumption.
  - subst s3.
    repeat first
      [ rewrite wire_emit | rewrite wire_after
      | rewrite wire_oldImage | rewrite wire_newImage ].
    rewrite <- !app_assoc. reflexivity.
  - rewrite tagged_writes_app.
    rewrite (proj1 (flush_events_writes _ w1 w2 w3 w4 dc 0 P1 P2 P3 P4)).
    cbn [app tagged_writes].
    rewrite tagged_writes_app.
    rewrite (proj1 (flush_events_writes _ v1 v2 v3 v4 _ 0 Q1 Q2 Q3 Q4)).
    cbn [tagged_writes]. rewrite app_nil_r. reflexivity.
Qed.

Lemma regenerate_two_updates_witness :
  well_sized (panel 2 8 [0; 0])
  /\ exists s',
       regenerate 1 (panel 2 8 [0; 0]) = Return tt s'
       /\ exists black white evs,
            (forall i j, 0 <= i < _bufferSizeV (panel 2 8 [0; 0]) ->
               0 <= j < _bufferSizeH (panel 2 8 [0; 0]) ->
               Py.getitem black (i * _bufferSizeH (panel 2 8 [0; 0]) + j)
               = inr (clear_byte (panel 2 8 [0; 0]) Colour.BLACK i)
               /\ Py.getitem white (i * _bufferSizeH (panel 2 8 [0; 0]) + j)
                  = inr (clear_byte (panel 2 8 [0; 0]) Colour.WHITE i))
            /\ wire (board s') = wire (board (panel 2 8 [0; 0])) ++ evs
            /\ tagged_writes 0 evs
               = update_writes (_oldImage (panel 2 8 [0; 0])) black
                 ++ update_writes black white
            /\ _newImage s' = white
            /\ _oldImage s' = white.
Proof.
  split; [exact well_sized_panel_2x8 |].
  eexists. split; [vm_compute; reflexivity |].
  apply (regenerate_two_updates 1 (panel 2 8 [0; 0]) _ 0
           well_sized_panel_2x8).
  vm_compute. reflexivity.
Defined.

(** ** Lines *)

(** X18. A line does not depend on the order of its endpoints:
    [line(x1,y1,x2,y2,c)] and [line(x2,y2,x1,y1,c)] plot the same
    coordinates in the same order, in all four cases of the method. *)
Theorem line_symmetric :
  forall (x1 y1 x2 y2 c : Z) (s : Screen),
    line x1 y1 x2 y2 c s = line x2 y2 x1 y1 c s.
Proof.
  intros x1 y1 x2 y2 c s. unfold line.
  rewrite (Z.eqb_sym x2 x1), (Z.eqb_sym y2 y1).
  replace (Z.abs (y1 - y2)) with (Z.abs (y2 - y1)) by lia.
  replace (Z.abs (x1 - x2)) with (Z.abs (x2 - x1)) by lia.
  destruct (Z.eqb_spec x1 x2) as [-> | Hx];
    destruct (Z.eqb_spec y1 y2) as [-> | Hy]; cbn [andb].
  - reflexivity.
  - destruct (Z.gtb_spec y1 y2); destruct (Z.gtb_spec y2 y1);
      try lia; reflexivity.
  - destruct (Z.gtb_spec x1 x2); destruct (Z.gtb_spec x2 x1);
      try lia; reflexivity.
  - cbv zeta. destruct (Z.abs (y2 - y1) >? Z.abs (x2 - x1)).
    + destruct (Z.gtb_spec y1 y2); destruct (Z.gtb_spec y2 y1);
        try lia; reflexivity.
    + destruct (Z.gtb_spec x1 x2); destruct (Z.gtb_spec x2 x1);
        try lia; reflexivity.
Qed.

(** ** Construction *)

(** X19. [Screen(...)] for a panel of non-negative sides whose short side
    is a multiple of 8 builds a panel: two planes of [V * H / 8] zero
    bytes, orientation 0, outline pen, invert off, nothing on the wire.
    A negative plane size makes the constructor raise [ValueError]. *)
Theorem init_builds_panel :
  forall (font_s : FontInfo) (line : nat -> Z) (V H : Z),
    (0 <= V -> 0 <= H -> H mod 8 = 0 ->
     exists s,
       init font_s line V H = inr s
       /\ on_panel s
       /\ _newImage s = replicate (Z.to_nat (V * (H / 8))) 0
       /\ _oldImage s = replicate (Z.to_nat (V * (H / 8))) 0
       /\ _orientation s = 0 /\ _penSolid s = false /\ _invert s = false
       /\ wire (board s) = [])
    /\ (V * Z.shiftr H 3 < 0 -> init font_s line V H = inl Py.ValueError).
Proof.
  intros font_s line V H. split.
  - intros HV HH Hm.
    assert (Hsh : Z.shiftr H 3 = H / 8)
      by (rewrite Z.shiftr_div_pow2 by lia; reflexivity).
    assert (Hq : 0 <= H / 8) by (apply Z.div_pos; lia).
    unfold init, Py.bytearray. rewrite Hsh.
    destruct (Z.ltb_spec (V * (H / 8)) 0) as [Hneg | _]; [nia |].
    eexists. split; [reflexivity |].
    split; [| repeat split; reflexivity].
    split; [| split].
    + unfold well_sized. cbn. rewrite length_replicate.
      repeat split; try lia; rewrite Z2Nat.id by nia; reflexivity.
    + unfold byte_aligned. cbn.
      pose proof (Z.div_mod H 8 ltac:(lia)). lia.
    + cbn. apply Forall_replicate. unfold is_byte. lia.
  - intros Hneg. unfold init, Py.bytearray.
    destruct (Z.ltb_spec (V * Z.shiftr H 3) 0); [reflexivity | lia].
Qed.

Lemma init_builds_panel_witness :
  (exists s,
     init font_6x8 always_ready 2 8 = inr s
     /\ on_panel s
     /\ _newImage s = replicate (Z.to_nat (2 * (8 / 8))) 0
     /\ _oldImage s = replicate (Z.to_nat (2 * (8 / 8))) 0
     /\ _orientation s = 0 /\ _penSolid s = false /\ _invert s = false
     /\ wire (board s) = [])
  /\ init font_6x8 always_ready (-1) 8 = inl Py.ValueError.
Proof.
  split.
  - apply (proj1 (init_builds_panel font_6x8 always_ready 2 8));
      [lia | lia | reflexivity].
  - apply (proj2 (init_builds_panel font_6x8 always_ready (-1) 8)).
    reflexivity.
Defined.

(** ** What a drawing leaves alone *)

Lemma point_outcome s x y c :
  match point x y c s with
  | Return _ _ => True
  | Raise _ s' => s' = s
  | Blocked _ => False
  end.
Proof.
  unfold point. rewrite bind_self.
  destruct (orientCoordinates s x y) as [[flag x1] y1].
  destruct flag; [exact I |].
  destruct (getZT s x1 y1) as [z1 t1]. cbv zeta.
  destruct (xorb _ (_invert s)); [| destruct (xorb _ (_invert s))];
    unfold bind, newImage_get, newImage_set, lift, ret, raise;
    try exact I;
    destruct (Py.getitem (_newImage s) z1); try reflexivity;
    match goal with |- context [Py.setitem ?i ?z ?v] =>
      destruct (Py.setitem i z v) end; try reflexivity; exact I.
Qed.

Lemma keeps_untouched_point s0 a b x y c :
  byte_aligned s0 -> 0 <= a -> 0 <= b ->
  0 <= x -> 0 <= y -> (x, y) <> (a, b) ->
  keeps (untouched s0 a b) (point x y c).
Proof.
  intros Hal Ha Hb Hx Hy Hne s1 [Hred Hpix].
  pose proof (point_outcome s1 x y c) as Ho.
  destruct (point x y c s1) as [r s' | e s' | s'] eqn:Hp; cbn [final].
  - split; [eapply redrawn_point; eauto |].
    rewrite <- Hpix. destruct Hred as [img ->].
    exact (point_other_pixel (with_newImage img s0) _ _ _ _ _ _ _
             Hal Hx Hy Ha Hb Hne Hp).
  - subst s'. split; assumption.
  - contradiction.
Qed.

Lemma keeps_for_each_in {A B} (P : Screen -> Prop) (xs : list B)
    (body : B -> M A) :
  (forall x, x ∈ xs -> keeps P (body x)) -> keeps P (for_each xs body).
Proof.
  induction xs as [| x xs IH]; intros Hb; cbn [for_each].
  - apply keeps_ret.
  - apply keeps_bind; [apply Hb; left |].
    intros _. apply IH. intros y Hy. apply Hb. now right.
Qed.

Lemma keeps_getCharacter P t6 t8 t12 ch i :
  keeps P (getCharacter t6 t8 t12 ch i).
Proof. unfold getCharacter, glyph_byte. keeps_steps. Qed.

Ltac text_box_steps Hal Ha Hb Hout :=
  repeat lazymatch goal with
    | |- keeps _ (bind self _) => apply keeps_self_bind; intros ?
    | |- keeps _ (bind (point _ _ _) _) =>
        apply keeps_bind;
          [apply (keeps_untouched_point _ _ _ _ _ _ Hal Ha Hb);
             [lia | lia | intros [= Ea Eb]; apply Hout; lia]
          | intros ?]
    | |- keeps _ (bind _ _) => apply keeps_bind; [| intros ?]
    | |- keeps _ (for_each (Py.range _ _) _) =>
        apply keeps_for_each_in; intros ? ?%elem_of_range
    | |- keeps _ (ret _) => apply keeps_ret
    | |- keeps _ (ord_at _ _) => apply keeps_lift
    | |- keeps _ (getCharacter _ _ _ _ _) => apply keeps_getCharacter
    | |- keeps _ (if ?b then _ else _) => destruct b
    end.

(** X20. Text stays in its cells. On a byte-aligned Screen, [gText] at a
    non-negative origin leaves the pixel of every non-negative coordinate
    outside the box of the text as it was - the box being [len(text)]
    cells wide, each 6, 8 or 12 columns, and 8 rows high for font 0 and
    16 rows for fonts 1 and 2 - and changes nothing but the current
    plane, whether it returns or a glyph lookup raises. *)
Theorem gText_stays_in_box :
  forall (t6 t8 t12 : list (list Z)) (s : Screen) (x0 y0 tc bc : Z)
         (text : list Z) (a b : Z),
    byte_aligned s -> 0 <= x0 -> 0 <= y0 -> 0 <= a -> 0 <= b ->
    ~ (x0 <= a < x0 + fst (text_cell s) * Z.of_nat (length text)
       /\ y0 <= b < y0 + snd (text_cell s)) ->
    untouched s a b (final (gText t6 t8 t12 x0 y0 text tc bc s)).
Proof.
  intros t6 t8 t12 s x0 y0 tc bc text a b Hal Hx0 Hy0 Ha Hb Hout.
  assert (H0 : untouched s a b s) by (split; [apply redrawn_refl | reflexivity]).
  unfold gText. rewrite bind_self. unfold text_cell in Hout.
  destruct (_fontSize s =? 0); [| destruct (_fontSize s =? 1);
    [| destruct (_fontSize s =? 2); [| exact H0]]];
    cbn [fst snd] in Hout;
    (apply keeps_apply; [| exact H0]);
    cbv zeta; text_box_steps Hal Ha Hb Hout.
Qed.

Lemma gText_stays_in_box_witness :
  byte_aligned (panel 2 8 [0; 0])
  /\ _newImage
       (final (gText [[3; 3; 3; 3; 3; 3]] [] [] 0 0 [32]
                 Colour.BLACK Colour.WHITE (panel 2 8 [0; 0])))
     = [252; 252]
  /\ untouched (panel 2 8 [0; 0]) 7 1
       (final (gText [[3; 3; 3; 3; 3; 3]] [] [] 0 0 [32]
                 Colour.BLACK Colour.WHITE (panel 2 8 [0; 0]))).
Proof.
  split; [reflexivity |]. split; [vm_compute; reflexivity |].
  apply (gText_stays_in_box [[3; 3; 3; 3; 3; 3]] [] []
           (panel 2 8 [0; 0]) 0 0 Colour.BLACK Colour.WHITE [32] 7 1);
    [reflexivity | lia | lia | lia | lia |].
  cbn. lia.
Defined.

(** ** Circles *)

(** The bound given to the loop of [circle] is never what ends it. *)
Lemma circle_while_more_rounds {A} (plot : Z -> Z -> M A) n m :
  forall f ddF_x ddF_y x y s,
    y - x <= Z.of_nat n ->
    circle_while (n + m) plot f ddF_x ddF_y x y s
    = circle_while n plot f ddF_x ddF_y x y s.
Proof.
  induction n as [| n IH]; intros f ddF_x ddF_y x y s Hn.
  - cbn [Nat.add circle_while]. destruct m as [| m]; [reflexivity |].
    cbn [circle_while]. destruct (Z.ltb_spec x y); [lia | reflexivity].
  - cbn [Nat.add circle_while].
    destruct (Z.ltb_spec x y); [| reflexivity].
    destruct (f >=? 0); cbv zeta; unfold bind;
      (destruct (plot _ _ s); [apply IH; lia | reflexivity ..]).
Qed.

Section Leads.

Context {A B : Type}.

Lemma leads_ret (P : Screen -> Prop) (a : A) : leads P P (ret a).
Proof. intros s Hs. exists a, s. split; [reflexivity | exact Hs]. Qed.

Lemma leads_bind (P Q R : Screen -> Prop) (m : M A) (k : A -> M B) :
  leads P Q m -> (forall a, leads Q R (k a)) -> leads P R (bind m k).
Proof.
  intros Hm Hk s Hs. destruct (Hm s Hs) as (a & s1 & Em & Hs1).
  destruct (Hk a s1 Hs1) as (b & s2 & Ek & Hs2).
  exists b, s2. split; [| exact Hs2]. unfold bind. rewrite Em. exact Ek.
Qed.

End Leads.

(** The loop of [circle] with its counters: [ddF_x = 2x + 1],
    [ddF_y = -2y], and [f] the decision value of the next point; every
    point it plots is in the first quadrant of the ring. *)
Lemma leads_circle_while {A} (P : Screen -> Prop) (plot : Z -> Z -> M A) r :
  (forall x y, 0 <= x <= r -> 0 <= y <= r ->
     - r <= x * x + y * y - r * r <= r -> leads P P (plot x y)) ->
  forall n f ddF_x ddF_y x y,
    0 <= x -> y <= r ->
    ddF_x = 2 * x + 1 -> ddF_y = - 2 * y ->
    f = x * x + y * y - r * r + 2 * x - y + 1 ->
    - y <= x * x + y * y - r * r <= r ->
    leads P P (circle_while n plot f ddF_x ddF_y x y).
Proof.
  intros Hplot. induction n as [| n IH];
    intros f ddF_x ddF_y x y Hx Hy Edx Edy Ef Hd; cbn [circle_while].
  - apply leads_ret.
  - destruct (Z.ltb_spec x y) as [Hlt |]; [| apply leads_ret].
    destruct (Z.geb_spec f 0) as [Hf | Hf]; cbv zeta.
    + assert (Ed : (x + 1) * (x + 1) + (y - 1) * (y - 1) - r * r
                   = f - y + 1) by (subst f; ring).
      apply (leads_bind P P P); [apply Hplot; lia |].
      intros _. apply IH; lia.
    + assert (Ed : (x + 1) * (x + 1) + y * y - r * r = f + y)
        by (subst f; ring).
      apply (leads_bind P P P); [apply Hplot; lia |].
      intros _. apply IH; lia.
Qed.

Lemma leads_circle_outline (setPenSolid : bool -> M unit)
    (P0 P1 P2 P3 P4 : Screen -> Prop) x0 y0 r c s :
  _penSolid s = false -> 0 <= r ->
  leads P0 P1 (point x0 (y0 + r) c) ->
  leads P1 P2 (point x0 (y0 - r) c) ->
  leads P2 P3 (point (x0 + r) y0 c) ->
  leads P3 P4 (point (x0 - r) y0 c) ->
  (forall u v, x0 - r <= u <= x0 + r -> y0 - r <= v <= y0 + r ->
     on_ring x0 y0 r u v -> leads P4 P4 (point u v c)) ->
  P0 s ->
  exists s', circle setPenSolid x0 y0 r c s = Return tt s' /\ P4 s'.
Proof.
  intros Hpen Hr H1 H2 H3 H4 Hloop Hs.
  unfold circle. rewrite bind_self, Hpen. cbn [negb].
  assert (Hall : leads P0 P4
            (point x0 (y0 + r) c ;; point x0 (y0 - r) c ;;
             point (x0 + r) y0 c ;; point (x0 - r) y0 c ;;
             circle_while (Z.to_nat (r - 0)) (fun x y =>
               point (x0 + x) (y0 + y) c ;;
               point (x0 - x) (y0 + y) c ;;
               point (x0 + x) (y0 - y) c ;;
               point (x0 - x) (y0 - y) c ;;
               point (x0 + y) (y0 + x) c ;;
               point (x0 - y) (y0 + x) c ;;
               point (x0 + y) (y0 - x) c ;;
               point (x0 - y) (y0 - x) c) (1 - r) 1 (-2 * r) 0 r ;;
             ret tt)%py).
  { apply (leads_bind P0 P1 P4); [exact H1 | intros _].
    apply (leads_bind P1 P2 P4); [exact H2 | intros _].
    apply (leads_bind P2 P3 P4); [exact H3 | intros _].
    apply (leads_bind P3 P4 P4); [exact H4 | intros _].
    apply (leads_bind P4 P4 P4); [| intros _; apply leads_ret].
    apply (leads_circle_while P4 _ r); try lia.
    intros x y Hx Hy Hd.
    repeat (apply (leads_bind P4 P4 P4); [| intros _]);
      (apply Hloop; [lia | lia | unfold on_ring; nia]). }
  destruct (Hall s Hs) as ([] & s' & E & Hs').
  exists s'. split; [exact E | exact Hs'].
Qed.

Lemma leads_point_panel s0 x y c :
  0 <= x -> 0 <= y ->
  leads (fun s1 => on_panel s1 /\ redrawn s0 s1)
        (fun s1 => on_panel s1 /\ redrawn s0 s1) (point x y c).
Proof.
  intros Hx Hy s1 [Hpan Hred].
  destruct (point_returns_on_panel s1 x y c Hpan Hx Hy) as (r & s' & E & Hpan').
  exists r, s'. split; [exact E |].
  split; [exact Hpan' | exact (redrawn_point _ _ _ _ _ _ _ Hred E)].
Qed.

Lemma leads_point_untouched s0 a b x y c :
  byte_aligned s0 -> 0 <= a -> 0 <= b ->
  0 <= x -> 0 <= y -> (x, y) <> (a, b) ->
  leads (fun s1 => on_panel s1 /\ untouched s0 a b s1)
        (fun s1 => on_panel s1 /\ untouched s0 a b s1) (point x y c).
Proof.
  intros Hal Ha Hb Hx Hy Hne s1 [Hpan Hun].
  destruct (point_returns_on_panel s1 x y c Hpan Hx Hy) as (r & s' & E & Hpan').
  exists r, s'. split; [exact E |]. split; [exact Hpan' |].
  pose proof (keeps_untouched_point s0 a b x y c Hal Ha Hb Hx Hy Hne s1 Hun)
    as Hk.
  rewrite E in Hk. exact Hk.
Qed.

Lemma leads_point_inked s0 a b x y c :
  c = Colour.BLACK \/ c = Colour.WHITE -> 0 <= x -> 0 <= y ->
  leads (fun s1 => on_panel s1 /\ inked s0 c a b s1)
        (fun s1 => on_panel s1 /\ inked s0 c a b s1) (point x y c).
Proof.
  intros Hc Hx Hy s1 (Hpan & Hred & Hpix).
  destruct (point_returns_on_panel s1 x y c Hpan Hx Hy) as (r & s' & E & Hpan').
  exists r, s'. split; [exact E |]. split; [exact Hpan' |].
  split; [exact (redrawn_point _ _ _ _ _ _ _ Hred E) |].
  destruct Hred as [img ->].
  exact (point_keeps_ink (with_newImage img s0) _ _ _ _ _ _ _ Hc E Hpix).
Qed.

Lemma leads_point_sets s0 a b c :
  c = Colour.BLACK \/ c = Colour.WHITE -> 0 <= a -> 0 <= b ->
  rejected s0 a b = false ->
  leads (fun s1 => on_panel s1 /\ redrawn s0 s1)
        (fun s1 => on_panel s1 /\ inked s0 c a b s1) (point a b c).
Proof.
  intros Hc Ha Hb Hacc s1 (Hpan & Hred).
  destruct (point_returns_on_panel s1 a b c Hpan Ha Hb) as (r & s' & E & Hpan').
  exists r, s'. split; [exact E |]. split; [exact Hpan' |].
  split; [exact (redrawn_point _ _ _ _ _ _ _ Hred E) |].
  destruct Hred as [img ->].
  exact (point_written (with_newImage img s0) _ _ _ _ _ Hc Hacc E).
Qed.

(** X21. An outline circle in BLACK or WHITE of radius [r >= 0] whose
    bounding square has non-negative corners, on a panel: the call
    returns and leaves a panel; the four points on the axes through the
    centre, where accepted, show the colour's ink; and every non-negative
    coordinate that is not within half a pixel of the circle keeps its
    pixel. *)
Theorem circle_outline_on_panel :
  forall (setPenSolid : bool -> M unit) (s : Screen) (x0 y0 r c : Z),
    on_panel s -> _penSolid s = false ->
    0 <= r -> r <= x0 -> r <= y0 ->
    c = Colour.BLACK \/ c = Colour.WHITE ->
    exists s',
      circle setPenSolid x0 y0 r c s = Return tt s'
      /\ on_panel s'
      /\ forall a b, 0 <= a -> 0 <= b ->
           (axis_point x0 y0 r a b -> rejected s a b = false ->
            pixel_bit s' a b = Some (ink s c))
           /\ (~ on_ring x0 y0 r a b ->
               pixel_bit s' a b = pixel_bit s a b).
Proof.
  intros setPenSolid s x0 y0 r c Hpan Hpen Hr Hx0 Hy0 Hc.
  set (Q := fun s1 => on_panel s1 /\ redrawn s s1).
  assert (HQ : Q s) by (split; [exact Hpan | apply redrawn_refl]).
  assert (HQp : forall u v, 0 <= u -> 0 <= v -> leads Q Q (point u v c))
    by (intros u v Hu Hv; apply leads_point_panel; assumption).
  destruct (leads_circle_outline setPenSolid Q Q Q Q Q x0 y0 r c s Hpen Hr)
    as (s' & E & Hpan' & _);
    [apply HQp; lia .. | intros u v Hu Hv _; apply HQp; lia | exact HQ |].
  exists s'. split; [exact E |]. split; [exact Hpan' |].
  intros a b Ha Hb. split.
  - intros Hax Hacc.
    set (I := fun s1 => on_panel s1 /\ inked s c a b s1).
    assert (HIp : forall u v, 0 <= u -> 0 <= v -> leads I I (point u v c))
      by (intros u v Hu Hv; apply leads_point_inked; assumption).
    assert (HQI : leads Q I (point a b c))
      by (apply leads_point_sets; assumption).
    assert (Hgoal : exists s1,
              circle setPenSolid x0 y0 r c s = Return tt s1 /\ I s1).
    { destruct Hax as [[Ea [Eb | Eb]] | [Eb [Ea | Ea]]]; subst a b.
      - apply (leads_circle_outline setPenSolid Q I I I I); auto;
          first [apply HIp; lia | intros u v Hu Hv _; apply HIp; lia].
      - apply (leads_circle_outline setPenSolid Q Q I I I); auto;
          first [apply HQp; lia | apply HIp; lia
                | intros u v Hu Hv _; apply HIp; lia].
      - apply (leads_circle_outline setPenSolid Q Q Q I I); auto;
          first [apply HQp; lia | apply HIp; lia
                | intros u v Hu Hv _; apply HIp; lia].
      - apply (leads_circle_outline setPenSolid Q Q Q Q I); auto;
          first [apply HQp; lia | apply HIp; lia
                | intros u v Hu Hv _; apply HIp; lia]. }
    destruct Hgoal as (s1 & E1 & _ & _ & Hpix).
    rewrite E in E1. injection E1 as <-. exact Hpix.
  - intros Hout. destruct Hpan as (Hws & Hal & Hby).
    set (U := fun s1 => on_panel s1 /\ untouched s a b s1).
    assert (HUp : forall u v, 0 <= u -> 0 <= v -> on_ring x0 y0 r u v ->
                    leads U U (point u v c)).
    { intros u v Hu Hv Hring.
      apply leads_point_untouched; try assumption.
      intros [= -> ->]. exact (Hout Hring). }
    destruct (leads_circle_outline setPenSolid U U U U U x0 y0 r c s Hpen Hr)
      as (s1 & E1 & _ & _ & Hpix).
    + apply HUp; [lia | lia | unfold on_ring; nia].
    + apply HUp; [lia | lia | unfold on_ring; nia].
    + apply HUp; [lia | lia | unfold on_ring; nia].
    + apply HUp; [lia | lia | unfold on_ring; nia].
    + intros u v Hu Hv Hring. apply HUp; [lia | lia | exact Hring].
    + split; [exact (conj Hws (conj Hal Hby)) |].
      split; [apply redrawn_refl | reflexivity].
    + rewrite E in E1. injection E1 as <-. exact Hpix.
Qed.

Lemma circle_outline_on_panel_witness :
  on_panel (panel 2 8 [0; 0])
  /\ exists s',
       circle (fun _ => ret tt) 1 1 1 Colour.BLACK (panel 2 8 [0; 0])
       = Return tt s'
       /\ on_panel s'
       /\ forall a b, 0 <= a -> 0 <= b ->
            (axis_point 1 1 1 a b ->
             rejected (panel 2 8 [0; 0]) a b = false ->
             pixel_bit s' a b = Some (ink (panel 2 8 [0; 0]) Colour.BLACK))
            /\ (~ on_ring 1 1 1 a b ->
                pixel_bit s' a b = pixel_bit (panel 2 8 [0; 0]) a b).
Proof.
  split; [exact on_panel_panel_2x8 |].
  apply (circle_outline_on_panel (fun _ => ret tt) (panel 2 8 [0; 0])
           1 1 1 Colour.BLACK on_panel_panel_2x8);
    [reflexivity | lia | lia | lia | left; reflexivity].
Defined.

(** ** Sloped lines *)

Lemma leads_point_painted s c (In In' Out : Z -> Z -> Prop) u v :
  c = Colour.BLACK \/ c = Colour.WHITE -> 0 <= u -> 0 <= v ->
  ~ Out u v ->
  (forall a b, In' a b -> In a b \/ (a, b) = (u, v)) ->
  leads (painted s c In Out) (painted s c In' Out) (point u v c).
Proof.
  intros Hc Hu Hv Hout Hin s1 (Hpan & Hred & Hink & Hkeep).
  destruct (point_returns_on_panel s1 u v c Hpan Hu Hv) as (r & s' & E & Hpan').
  exists r, s'. split; [exact E |]. split; [exact Hpan' |].
  split; [exact (redrawn_point _ _ _ _ _ _ _ Hred E) |].
  destruct Hpan as (_ & Hal & _). destruct Hred as [img ->]. split.
  - intros a b Hab Hacc. destruct (Hin a b Hab) as [Hold | [= -> ->]].
    + exact (point_keeps_ink (with_newImage img s) _ _ _ _ _ _ _ Hc E
               (Hink a b Hold Hacc)).
    + exact (point_written (with_newImage img s) _ _ _ _ _ Hc Hacc E).
  - intros a b Ha Hb Hab. rewrite <- (Hkeep a b Ha Hb Hab).
    apply (point_other_pixel (with_newImage img s) u v c r s' a b
             Hal Hu Hv Ha Hb); [| exact E].
    intros [= -> ->]. exact (Hout Hab).
Qed.

(** The error term of [line], a multiple of one half, as twice its value. *)
Lemma half_sub (err : Q) e2 d :
  (err == inject_Z e2 / 2)%Q ->
  (err - inject_Z d == inject_Z (e2 - 2 * d) / 2)%Q.
Proof.
  intros ->. unfold Z.sub. rewrite inject_Z_plus, inject_Z_opp, inject_Z_mult.
  field.
Qed.

Lemma half_add (err : Q) e2 d :
  (err == inject_Z e2 / 2)%Q ->
  (err + inject_Z d == inject_Z (e2 + 2 * d) / 2)%Q.
Proof.
  intros ->. rewrite inject_Z_plus, inject_Z_mult. field.
Qed.

Lemma Qlt_bool_half (err : Q) e2 :
  (err == inject_Z e2 / 2)%Q -> Qlt_bool err 0 = (e2 <? 0).
Proof.
  intros He. unfold Qlt_bool.
  destruct (Qle_bool 0 err) eqn:Hle; cbn [negb]; symmetry.
  - apply Qle_bool_iff in Hle. rewrite He in Hle.
    apply Z.ltb_ge. unfold Qle, Qdiv, Qmult, Qinv, inject_Z in Hle.
    cbn in Hle. lia.
  - apply Z.ltb_lt. destruct (Z.lt_ge_cases e2 0) as [| Hge]; [assumption |].
    assert (Hq : (0 <= err)%Q).
    { rewrite He. unfold Qle, Qdiv, Qmult, Qinv, inject_Z. cbn. lia. }
    apply Qle_bool_iff in Hq. congruence.
Qed.

(** A point of column [wx] within half a pixel of the line lies between
    the rows of the endpoints, and on an endpoint in its column. *)
Lemma near_in_range X1 Y1 X2 Y2 wx wy :
  X1 < X2 -> X1 <= wx <= X2 ->
  2 * Z.abs ((wx - X1) * (Y2 - Y1) - (wy - Y1) * (X2 - X1)) <= X2 - X1 ->
  Z.min Y1 Y2 <= wy <= Z.max Y1 Y2
  /\ (wx = X1 -> wy = Y1) /\ (wx = X2 -> wy = Y2).
Proof.
  intros Hlt Hwx Hnear.
  remember (wx - X1) as k. remember (X2 - X1) as d.
  remember (Y2 - Y1) as h. remember (wy - Y1) as v.
  assert (Hk : 0 <= k <= d) by lia. assert (Hd : 0 < d) by lia.
  assert (Hgoal : Z.min 0 h <= v <= Z.max 0 h
                  /\ (k = 0 -> v = 0) /\ (k = d -> v = h)).
  { clear - Hk Hd Hnear. split; [| split].
    - destruct (Z.le_ge_cases 0 h); nia.
    - intros ->. nia.
    - intros ->. nia. }
  lia.
Qed.

(** The loop of [line] from column [X1] to column [X2] > [X1], rows from
    [Y1] to [Y2] no steeper than the diagonal: each round plots a point
    of its column within half a pixel of the line, and the loop ends past
    column [X2]. *)
Lemma leads_line_while (P : Z -> Screen -> Prop) (flag : bool) c X1 Y1 X2 Y2 :
  X1 < X2 -> Z.abs (Y2 - Y1) <= X2 - X1 ->
  (forall wx wy, X1 <= wx <= X2 ->
     2 * Z.abs ((wx - X1) * (Y2 - Y1) - (wy - Y1) * (X2 - X1)) <= X2 - X1 ->
     leads (P wx) (P (wx + 1))
       (if flag then point wy wx c else point wx wy c)) ->
  forall n wx wy err e2,
    Z.of_nat n = X2 + 1 - wx -> X1 <= wx ->
    (err == inject_Z e2 / 2)%Q -> 0 <= e2 < 2 * (X2 - X1) ->
    e2 = (X2 - X1)
         - 2 * (if Y1 <? Y2 then 1 else -1)
             * ((wx - X1) * (Y2 - Y1) - (wy - Y1) * (X2 - X1)) ->
    leads (P wx) (P (X2 + 1))
      (line_while n flag wx wy X2 (X2 - X1) (Z.abs (Y2 - Y1))
         (if Y1 <? Y2 then 1 else -1) err c).
Proof.
  intros Hlt Hslope Hplot.
  induction n as [| n IH]; intros wx wy err e2 Hn Hwx Herr He2 Einv;
    cbn [line_while].
  - replace wx with (X2 + 1) by lia. apply leads_ret.
  - destruct (Z.leb_spec wx X2) as [Hle |]; [| lia].
    apply (leads_bind (P wx) (P (wx + 1)) (P (X2 + 1))).
    { apply Hplot; [lia |]. destruct (Y1 <? Y2); lia. }
    intros _. cbv zeta.
    pose proof (half_sub err e2 (Z.abs (Y2 - Y1)) Herr) as Herr1.
    rewrite (Qlt_bool_half _ _ Herr1).
    destruct (Z.ltb_spec (e2 - 2 * Z.abs (Y2 - Y1)) 0) as [Hneg | Hpos].
    + apply (IH _ _ _ (e2 - 2 * Z.abs (Y2 - Y1) + 2 * (X2 - X1)));
        [lia | lia | apply half_add; exact Herr1 | lia |].
      destruct (Z.ltb_spec Y1 Y2); lia.
    + apply (IH _ _ _ (e2 - 2 * Z.abs (Y2 - Y1)));
        [lia | lia | exact Herr1 | lia |].
      destruct (Z.ltb_spec Y1 Y2); lia.
Qed.

Lemma line_while_painted s c (flag : bool) X1 Y1 X2 Y2
    (Out : Z -> Z -> Prop) :
  on_panel s -> c = Colour.BLACK \/ c = Colour.WHITE ->
  X1 < X2 -> Z.abs (Y2 - Y1) <= X2 - X1 ->
  0 <= X1 -> 0 <= Y1 -> 0 <= Y2 ->
  (forall wx wy, X1 <= wx <= X2 -> Z.min Y1 Y2 <= wy <= Z.max Y1 Y2 ->
     2 * Z.abs ((wx - X1) * (Y2 - Y1) - (wy - Y1) * (X2 - X1)) <= X2 - X1 ->
     ~ (if flag then Out wy wx else Out wx wy)) ->
  exists s',
    line_while (Z.to_nat (X2 - X1 + 1)) flag X1 Y1 X2 (X2 - X1)
      (Z.abs (Y2 - Y1)) (if Y1 <? Y2 then 1 else -1)
      (inject_Z (X2 - X1) / 2) c s = Return tt s'
    /\ painted s c
         (fun a b => if flag then (a, b) = (Y1, X1) \/ (a, b) = (Y2, X2)
                     else (a, b) = (X1, Y1) \/ (a, b) = (X2, Y2))
         Out s'.
Proof.
  intros Hpan Hc Hlt Hslope HX1 HY1 HY2 Hout.
  set (P := fun wx : Z => painted s c
         (fun a b => (X1 < wx /\ (if flag then (a, b) = (Y1, X1)
                                  else (a, b) = (X1, Y1)))
                     \/ (X2 < wx /\ (if flag then (a, b) = (Y2, X2)
                                     else (a, b) = (X2, Y2))))
         Out).
  assert (Hloop : leads (P X1) (P (X2 + 1))
            (line_while (Z.to_nat (X2 - X1 + 1)) flag X1 Y1 X2 (X2 - X1)
               (Z.abs (Y2 - Y1)) (if Y1 <? Y2 then 1 else -1)
               (inject_Z (X2 - X1) / 2) c)).
  { apply (leads_line_while P flag c X1 Y1 X2 Y2 Hlt Hslope) with (e2 := X2 - X1);
      [| lia | lia | reflexivity | lia | destruct (Y1 <? Y2); lia].
    intros wx wy Hwx Hnear.
    destruct (near_in_range X1 Y1 X2 Y2 wx wy Hlt Hwx Hnear)
      as (Hwy & Hfirst & Hlast).
    specialize (Hout wx wy Hwx Hwy Hnear). unfold P.
    destruct flag; (apply leads_point_painted; [exact Hc | lia | lia | exact Hout |]);
      (intros a b [[H1 E] | [H2 E]];
       [ destruct (Z.eq_dec wx X1) as [-> | Hne];
           [right; rewrite E, Hfirst by reflexivity; reflexivity
           | left; left; split; [lia | exact E]]
       | right; assert (wx = X2) as -> by lia;
           rewrite E, Hlast by reflexivity; reflexivity ]). }
  destruct (Hloop s) as ([] & s' & E & Hpan' & Hred & Hink & Hkeep).
  { split; [exact Hpan |]. split; [apply redrawn_refl |]. split.
    - intros a b [[H _] | [H _]]; lia.
    - intros; reflexivity. }
  exists s'. split; [exact E |]. split; [exact Hpan' |].
  split; [exact Hred |]. split; [| exact Hkeep].
  intros a b Hab. apply Hink.
  destruct flag; (destruct Hab as [Hab | Hab];
    [left; split; [lia | exact Hab] | right; split; [lia | exact Hab]]).
Qed.

Lemma plot_painted {B} (px py : B -> Z) c s (xs : list B)
    (In Out : Z -> Z -> Prop) :
  on_panel s -> c = Colour.BLACK \/ c = Colour.WHITE ->
  (forall k, k ∈ xs -> 0 <= px k /\ 0 <= py k /\ ~ Out (px k) (py k)) ->
  (forall a b, In a b -> exists k, k ∈ xs /\ px k = a /\ py k = b) ->
  exists s',
    for_each xs (fun k => point (px k) (py k) c) s = Return tt s'
    /\ painted s c In Out s'.
Proof.
  intros Hpan Hc Hxs Hin.
  destruct (plot_returns px py c xs s Hpan) as (s' & Hl & Hpan').
  { intros k Hk. destruct (Hxs k Hk) as (? & ? & _). split; assumption. }
  exists s'. split; [exact Hl |]. split; [exact Hpan' |].
  split; [exact (plot_redrawn px py c s _ _ _ _ (redrawn_refl s) Hl) |].
  split.
  - intros a b Hab Hacc. destruct (Hin a b Hab) as (k & Hk & Ea & Eb).
    exact (plot_sets_ink px py c s a b xs s tt s' k Hc (redrawn_refl s)
             Hk Ea Eb Hacc Hl).
  - intros a b Ha Hb Hab. destruct Hpan as (_ & Hal & _).
    apply (plot_leaves_pixel px py c s a b xs s tt s' Hal Ha Hb);
      [| exact (redrawn_refl s) | exact Hl].
    intros k Hk. destruct (Hxs k Hk) as (Hx & Hy & Hno).
    split; [exact Hx |]. split; [exact Hy |].
    intros [= <- <-]. exact (Hno Hab).
Qed.

(** X22. A line in BLACK or WHITE between non-negative endpoints, on a
    panel, in each of the cases of [line]: the call returns and leaves a
    panel; both endpoints, where accepted, show the colour's ink; and a
    non-negative coordinate keeps its pixel unless it lies in the
    bounding box of the endpoints within half a pixel of the straight
    line through them. *)
Theorem line_on_panel :
  forall (s : Screen) (x1 y1 x2 y2 c : Z),
    on_panel s ->
    0 <= x1 -> 0 <= y1 -> 0 <= x2 -> 0 <= y2 ->
    c = Colour.BLACK \/ c = Colour.WHITE ->
    exists s',
      line x1 y1 x2 y2 c s = Return tt s'
      /\ on_panel s'
      /\ forall a b, 0 <= a -> 0 <= b ->
           ((a, b) = (x1, y1) \/ (a, b) = (x2, y2) ->
            rejected s a b = false ->
            pixel_bit s' a b = Some (ink s c))
           /\ (~ (in_rectangle x1 y1 x2 y2 a b
                  /\ near_line x1 y1 x2 y2 a b) ->
               pixel_bit s' a b = pixel_bit s a b).
Proof.
  intros s x1 y1 x2 y2 c Hpan Hx1 Hy1 Hx2 Hy2 Hc.
  set (Out := fun a b => ~ (in_rectangle x1 y1 x2 y2 a b
                            /\ near_line x1 y1 x2 y2 a b)).
  assert (Hmain : exists s',
            line x1 y1 x2 y2 c s = Return tt s'
            /\ painted s c
                 (fun a b => (a, b) = (x1, y1) \/ (a, b) = (x2, y2)) Out s').
  { destruct (Z.eq_dec x1 x2) as [Ex | Hx];
      [| destruct (Z.eq_dec y1 y2) as [Ey | Hy]].
    - (* one column *)
      subst x2. rewrite line_vertical.
      apply (plot_painted (fun _ : Z => x1) (fun k : Z => k)); try assumption.
      + intros k Hk%elem_of_range. split; [lia |]. split; [lia |].
        intros H; apply H. unfold in_rectangle, near_line. lia.
      + intros a b [[= -> ->] | [= -> ->]];
          [exists y1 | exists y2]; rewrite elem_of_range; lia.
    - (* one row *)
      subst y2. rewrite line_horizontal.
      apply (plot_painted (fun k : Z => k) (fun _ : Z => y1)); try assumption.
      + intros k Hk%elem_of_range. split; [lia |]. split; [lia |].
        intros H; apply H. unfold in_rectangle, near_line. lia.
      + intros a b [[= -> ->] | [= -> ->]];
          [exists x1 | exists x2]; rewrite elem_of_range; lia.
    - (* a slope *)
      unfold line.
      destruct (Z.eqb_spec x1 x2) as [| _]; [contradiction |].
      destruct (Z.eqb_spec y1 y2) as [| _]; [contradiction |].
      cbn [andb]. cbv zeta.
      destruct (Z.gtb_spec (Z.abs (y2 - y1)) (Z.abs (x2 - x1))) as [Hst | Hfl].
      + destruct (Z.gtb_spec y1 y2) as [Hsw | Hsw].
        * destruct (line_while_painted s c true y2 x2 y1 x1 Out)
            as (s' & E & Hpan' & Hred & Hink & Hkeep); try assumption;
            try lia.
          { intros wx wy Hwx Hwy Hnear H. apply H.
            unfold in_rectangle, near_line. lia. }
          exists s'. split; [exact E |]. split; [exact Hpan' |].
          split; [exact Hred |]. split; [| exact Hkeep].
          intros a b Hab. apply Hink. tauto.
        * destruct (line_while_painted s c true y1 x1 y2 x2 Out)
            as (s' & E & Hpan' & Hred & Hink & Hkeep); try assumption;
            try lia.
          { intros wx wy Hwx Hwy Hnear H. apply H.
            unfold in_rectangle, near_line. lia. }
          exists s'. split; [exact E |]. split; [exact Hpan' |].
          split; [exact Hred |]. split; [| exact Hkeep].
          intros a b Hab. apply Hink. tauto.
      + destruct (Z.gtb_spec x1 x2) as [Hsw | Hsw].
        * destruct (line_while_painted s c false x2 y2 x1 y1 Out)
            as (s' & E & Hpan' & Hred & Hink & Hkeep); try assumption;
            try lia.
          { intros wx wy Hwx Hwy Hnear H. apply H.
            unfold in_rectangle, near_line. lia. }
          exists s'. split; [exact E |]. split; [exact Hpan' |].
          split; [exact Hred |]. split; [| exact Hkeep].
          intros a b Hab. apply Hink. tauto.
        * destruct (line_while_painted s c false x1 y1 x2 y2 Out)
            as (s' & E & Hpan' & Hred & Hink & Hkeep); try assumption;
            try lia.
          { intros wx wy Hwx Hwy Hnear H. apply H.
            unfold in_rectangle, near_line. lia. }
          exists s'. split; [exact E |]. split; [exact Hpan' |].
          split; [exact Hred |]. split; [| exact Hkeep].
          intros a b Hab. apply Hink. tauto. }
  destruct Hmain as (s' & E & Hpan' & _ & Hink & Hkeep).
  exists s'. split; [exact E |]. split; [exact Hpan' |].
  intros a b Ha Hb. split.
  - intros Hab Hacc. exact (Hink a b Hab Hacc).
  - intros Hout. exact (Hkeep a b Ha Hb Hout).
Qed.

Lemma line_on_panel_witness :
  on_panel (panel 2 8 [0; 0])
  /\ exists s',
       line 0 0 5 1 Colour.BLACK (panel 2 8 [0; 0]) = Return tt s'
       /\ on_panel s'
       /\ forall a b, 0 <= a -> 0 <= b ->
            ((a, b) = (0, 0) \/ (a, b) = (5, 1) ->
             rejected (panel 2 8 [0; 0]) a b = false ->
             pixel_bit s' a b = Some (ink (panel 2 8 [0; 0]) Colour.BLACK))
            /\ (~ (in_rectangle 0 0 5 1 a b /\ near_line 0 0 5 1 a b) ->
                pixel_bit s' a b = pixel_bit (panel 2 8 [0; 0]) a b).
Proof.
  split; [exact on_panel_panel_2x8 |].
  apply (line_on_panel (panel 2 8 [0; 0]) 0 0 5 1 Colour.BLACK
           on_panel_panel_2x8);
    [lia | lia | lia | lia | left; reflexivity].
Defined.
